(** * The blocky voxel mesher

    A shallow embedding of [meshers/blocky/voxel_mesher_blocky.cpp] and of the
    baked model data of [meshers/blocky/voxel_blocky_model.h].

    Conventions of the embedding.
    - [float] values are rationals ([Q]): arithmetic is exact, and rounding,
      infinities and NaN are outside the model.  Equalities between computed
      floats are stated up to [Qeq] where two different expressions are compared.
    - [uint8_t]/[int8_t] values are [Z] with the wrap-around written out where
      the source stores into such a variable; addresses and element counts
      ([int], [unsigned int], [size_t]) are unbounded [Z] or [nat]: a block
      whose buffer fits in memory never overflows them.
    - A read outside a [Span], [StdVector] or [FixedArray], a [memcpy] that
      reads past its source and a failed [ZN_ASSERT] are undefined behaviour or
      a crash: the embedded function returns [None] there.
    - The reader-writer locks are not modelled: one build runs on one thread. *)

From Stdlib Require Import ZArith QArith Qminmax Lia Lqa String.
From Stdlib Require Import Strings.Byte.
From stdpp Require Import base option list gmap.

Local Open Scope Z_scope.

(** ** Machine integers *)

Definition wrap_uint8 (z : Z) : Z := z mod 256.
Definition wrap_int8 (z : Z) : Z := (z + 128) mod 256 - 128.
Definition wrap_int32 (z : Z) : Z := (z + 2 ^ 31) mod 2 ^ 32 - 2 ^ 31.

(** [static_cast<uint8_t>(b)] of a [bool]. *)
Definition bool_to_uint8 (b : bool) : Z := if b then 1 else 0.

(** ** Vectors and colours (util/math, Godot's Color) *)

Record Vector3f := mkVector3f { v3x : Q; v3y : Q; v3z : Q }.
Record Vector2f := mkVector2f { v2x : Q; v2y : Q }.
Record Vector3i := mkVector3i { ix : Z; iy : Z; iz : Z }.
Record Color := mkColor { cr : Q; cg : Q; cb : Q; ca : Q }.

Definition to_vec3f (v : Vector3i) : Vector3f :=
  mkVector3f (inject_Z (ix v)) (inject_Z (iy v)) (inject_Z (iz v)).

(** [a + b] on [Vector3f]. *)
Definition vadd (a b : Vector3f) : Vector3f :=
  mkVector3f (v3x a + v3x b)%Q (v3y a + v3y b)%Q (v3z a + v3z b)%Q.

(** [p * s] on [Vector3f], a vector times a scalar. *)
Definition vscale (p : Vector3f) (s : Q) : Vector3f :=
  mkVector3f (v3x p * s)%Q (v3y p * s)%Q (v3z p * s)%Q.

Definition set_y (p : Vector3f) (y : Q) : Vector3f :=
  mkVector3f (v3x p) y (v3z p).

(** Modelled from the spec: [math::distance_squared] (util/math, not among the
    sources) is the squared distance between two points. *)
Definition distance_squared (a b : Vector3f) : Q :=
  ((v3x a - v3x b) * (v3x a - v3x b) + (v3y a - v3y b) * (v3y a - v3y b)
   + (v3z a - v3z b) * (v3z a - v3z b))%Q.

(** [Color(gs, gs, gs)]: Godot's three-argument constructor, alpha is 1. *)
Definition gray (gs : Q) : Color := mkColor gs gs gs 1.

(** [Color * Color] is component-wise. *)
Definition color_mul (a b : Color) : Color :=
  mkColor (cr a * cr b)%Q (cg a * cg b)%Q (cb a * cb b)%Q (ca a * ca b)%Q.

(** Modelled from the spec: [math::clamp], [math::lerp], [math::min] and
    [math::max] (util/math/funcs.h, not among the sources) are the usual clamp
    to an interval, linear interpolation, minimum and maximum. *)
Definition clamp (x lo hi : Q) : Q :=
  if Qle_bool lo x then (if Qle_bool x hi then x else hi) else lo.

Definition lerp (a b t : Q) : Q := (a + (b - a) * t)%Q.

Definition min4 (a b c d : Z) : Z := Z.min (Z.min a b) (Z.min c d).
Definition max4 (a b c d : Z) : Z := Z.max (Z.max a b) (Z.max c d).

(** ** Cube conventions (constants/cube_tables.h) *)

(** The six sides.  Modelled from the spec: cube_tables.h is not among the
    sources; the spec (4.1) numbers the sides in the order written here, which
    is also the order of [VoxelBlockyModel::Side]. *)
Inductive Side :=
| SIDE_NEGATIVE_X | SIDE_POSITIVE_X
| SIDE_NEGATIVE_Y | SIDE_POSITIVE_Y
| SIDE_NEGATIVE_Z | SIDE_POSITIVE_Z.

Definition side_index (s : Side) : nat :=
  match s with
  | SIDE_NEGATIVE_X => 0 | SIDE_POSITIVE_X => 1
  | SIDE_NEGATIVE_Y => 2 | SIDE_POSITIVE_Y => 3
  | SIDE_NEGATIVE_Z => 4 | SIDE_POSITIVE_Z => 5
  end%nat.

(** [for (side = 0; side < Cube::SIDE_COUNT; ++side)]. *)
Definition SIDES : list Side :=
  [SIDE_NEGATIVE_X; SIDE_POSITIVE_X; SIDE_NEGATIVE_Y; SIDE_POSITIVE_Y;
   SIDE_NEGATIVE_Z; SIDE_POSITIVE_Z].

(** [Cube::SIDE_LEFT] .. [Cube::SIDE_FRONT] name the same six sides.  The
    mesher gives each of them the address offset of the neighbour that faces
    it ([side_neighbor_lut]), which tells which is which: the neighbour of the
    left side is one row further (+x), the one of the front side one deck
    further (+z), the one of the top side one voxel further (+y). *)
Definition SIDE_LEFT := SIDE_POSITIVE_X.
Definition SIDE_RIGHT := SIDE_NEGATIVE_X.
Definition SIDE_BOTTOM := SIDE_NEGATIVE_Y.
Definition SIDE_TOP := SIDE_POSITIVE_Y.
Definition SIDE_BACK := SIDE_NEGATIVE_Z.
Definition SIDE_FRONT := SIDE_POSITIVE_Z.

Inductive Edge :=
| EDGE_BOTTOM_BACK | EDGE_BOTTOM_RIGHT | EDGE_BOTTOM_FRONT | EDGE_BOTTOM_LEFT
| EDGE_BACK_LEFT | EDGE_BACK_RIGHT | EDGE_FRONT_RIGHT | EDGE_FRONT_LEFT
| EDGE_TOP_BACK | EDGE_TOP_RIGHT | EDGE_TOP_FRONT | EDGE_TOP_LEFT.

Inductive Corner :=
| CORNER_BOTTOM_BACK_LEFT | CORNER_BOTTOM_BACK_RIGHT
| CORNER_BOTTOM_FRONT_RIGHT | CORNER_BOTTOM_FRONT_LEFT
| CORNER_TOP_BACK_LEFT | CORNER_TOP_BACK_RIGHT
| CORNER_TOP_FRONT_RIGHT | CORNER_TOP_FRONT_LEFT.

Global Instance Side_eq_dec : EqDecision Side.
Proof. solve_decision. Defined.
Global Instance Edge_eq_dec : EqDecision Edge.
Proof. solve_decision. Defined.
Global Instance Corner_eq_dec : EqDecision Corner.
Proof. solve_decision. Defined.

(** The flow states of a fluid's top face (named in voxel_blocky_fluid.h). *)
Inductive FlowState :=
| FLOW_STRAIGHT_POSITIVE_X | FLOW_STRAIGHT_NEGATIVE_X
| FLOW_STRAIGHT_POSITIVE_Z | FLOW_STRAIGHT_NEGATIVE_Z
| FLOW_DIAGONAL_POSITIVE_X_POSITIVE_Z | FLOW_DIAGONAL_POSITIVE_X_NEGATIVE_Z
| FLOW_DIAGONAL_NEGATIVE_X_POSITIVE_Z | FLOW_DIAGONAL_NEGATIVE_X_NEGATIVE_Z
| FLOW_IDLE.

Global Instance FlowState_eq_dec : EqDecision FlowState.
Proof. solve_decision. Defined.

Inductive Axis := AXIS_X | AXIS_Y | AXIS_Z.

(** What the mesher takes from headers that are not among the sources: the
    lookup tables of cube_tables.h, the numeric values of the [FlowState] and
    [Axis] enumerators (they end up in UV coordinates) and the two heights of
    [VoxelBlockyFluid::BakedData]. *)
Record Constants := mkConstants {
  g_side_normals : Side -> Vector3i;
  g_opposite_side : Side -> Side;
  g_side_edges : Side -> nat -> Edge;
  g_side_corners : Side -> nat -> Corner;
  g_edge_corners : Edge -> nat -> Corner;
  g_corner_position : Corner -> Vector3f;
  flow_state_value : FlowState -> Z;
  axis_value : Axis -> Z;
  BOTTOM_HEIGHT : Q;
  TOP_HEIGHT : Q
}.

(** ** Baked model data (voxel_blocky_model.h) *)

Definition AIR_ID : Z := 0.
Definition NULL_FLUID_INDEX : Z := 255.
Definition MAX_SURFACES : nat := 2.
Definition PADDING : Z := 1.

Module SideSurface.
Record t := mk {
  positions : list Vector3f;
  uvs : list Vector2f;
  indices : list Z;
  tangents : list Q
}.
Definition clear : t := mk [] [] [] [].
End SideSurface.

Module Surface.
Record t := mk {
  positions : list Vector3f;
  normals : list Vector3f;
  uvs : list Vector2f;
  indices : list Z;
  tangents : list Q;
  material_id : nat;
  collision_enabled : bool
}.
End Surface.

(** [VoxelBlockyModel::BakedData::Model]. [FixedArray]s indexed by a side are
    functions of the side; the two-slot arrays of surfaces are lists. *)
Module Model.
Record t := mk {
  surfaces : list Surface.t;
  sides_surfaces : Side -> list SideSurface.t;
  surface_count : nat;
  empty_sides_mask : Z;
  side_pattern_indices : Side -> Z;
  cutout_side_surfaces : Side -> gmap Z (list SideSurface.t)
}.
End Model.

(** [VoxelBlockyModel::BakedData], the fields the mesher reads. *)
Module BakedData.
Record t := mk {
  model : Model.t;
  color : Color;
  transparency_index : Z;
  culls_neighbors : bool;
  contributes_to_ao : bool;
  cutout_sides_enabled : bool;
  fluid_index : Z;
  fluid_level : Z
}.
End BakedData.

(** [VoxelBlockyFluid::Surface] and [VoxelBlockyFluid::BakedData], as the
    mesher uses them. *)
Module FluidSurface.
Record t := mk {
  positions : list Vector3f;
  indices : list Z;
  tangents : list Q
}.
End FluidSurface.

Module Fluid.
Record t := mk {
  side_surfaces : Side -> FluidSurface.t;
  material_id : nat;
  max_level : Z;
  dip_when_flowing_down : bool
}.
End Fluid.

(** [VoxelBlockyLibraryBase::BakedData].  [side_pattern_culling pa pb] is the
    library's precomputed table: side pattern [pa] is fully covered by [pb]. *)
Module Library.
Record t := mk {
  models : list BakedData.t;
  fluids : list Fluid.t;
  indexed_materials_count : nat;
  side_pattern_culling : Z -> Z -> bool
}.
End Library.

(** [library.has_model(id)]: [id < models.size()] on unsigned integers. *)
Definition has_model (lib : Library.t) (id : Z) : bool :=
  (0 <=? id) && (id <? Z.of_nat (length (Library.models lib))).

(** [library.models[id]]. *)
Definition get_model (lib : Library.t) (id : Z) : option BakedData.t :=
  if id <? 0 then None else Library.models lib !! Z.to_nat id.

(** A [Span] of voxel identifiers read at an [int] address. *)
Definition read (type_buffer : list Z) (i : Z) : option Z :=
  if i <? 0 then None else type_buffer !! Z.to_nat i.

(** ** Utility functions of voxel_mesher_blocky.cpp *)

(** [contributes_to_ao(lib, voxel_id)]. *)
Definition contributes_to_ao (lib : Library.t) (voxel_id : Z) : bool :=
  match get_model lib voxel_id with
  | Some t => BakedData.contributes_to_ao t
  | None => true
  end.

(** Modelled from the spec: the two visibility tests of voxel_mesher_blocky.h
    (not among the sources), as section 4.4 of the spec gives them. *)
Definition is_face_visible_regardless_of_shape (vt other_vt : BakedData.t) : bool :=
  negb (BakedData.culls_neighbors other_vt)
  || negb (BakedData.transparency_index vt =? BakedData.transparency_index other_vt).

Definition is_face_visible_according_to_shape (K : Constants) (lib : Library.t)
    (vt other_vt : BakedData.t) (side : Side) : bool :=
  let pa := Model.side_pattern_indices (BakedData.model vt) side in
  let pb := Model.side_pattern_indices (BakedData.model other_vt) (g_opposite_side K side) in
  negb (Library.side_pattern_culling lib pa pb).

(** [copy(src, src_uv, dst)] from a fluid surface into a side surface. *)
Definition copy (src : FluidSurface.t) (src_uv : Vector2f) : SideSurface.t :=
  SideSurface.mk (FluidSurface.positions src)
    (replicate (length (FluidSurface.positions src)) src_uv)
    (FluidSurface.indices src) (FluidSurface.tangents src).

Definition copy_positions_normals_tangents (src : FluidSurface.t) (normal : Vector3f)
    (p_material_id : nat) (p_collision_enabled : bool) (dst_uvs : list Vector2f) : Surface.t :=
  Surface.mk (FluidSurface.positions src)
    (replicate (length (FluidSurface.positions src)) normal)
    dst_uvs (FluidSurface.indices src) (FluidSurface.tangents src)
    p_material_id p_collision_enabled.

Global Instance FlowState_inhabited : Inhabited FlowState := populate FLOW_IDLE.

Definition g_min_corners_mask_to_flowstate : list FlowState :=
  [ FLOW_IDLE                             (* 0000, impossible *)
  ; FLOW_DIAGONAL_POSITIVE_X_POSITIVE_Z   (* 0001 *)
  ; FLOW_DIAGONAL_NEGATIVE_X_POSITIVE_Z   (* 0010 *)
  ; FLOW_STRAIGHT_POSITIVE_Z              (* 0011 *)
  ; FLOW_DIAGONAL_NEGATIVE_X_NEGATIVE_Z   (* 0100 *)
  ; FLOW_IDLE                             (* 0101, ambiguous *)
  ; FLOW_STRAIGHT_NEGATIVE_X              (* 0110 *)
  ; FLOW_DIAGONAL_NEGATIVE_X_POSITIVE_Z   (* 0111 *)
  ; FLOW_DIAGONAL_POSITIVE_X_NEGATIVE_Z   (* 1000 *)
  ; FLOW_STRAIGHT_POSITIVE_X              (* 1001 *)
  ; FLOW_IDLE                             (* 1010, ambiguous *)
  ; FLOW_DIAGONAL_POSITIVE_X_POSITIVE_Z   (* 1011 *)
  ; FLOW_STRAIGHT_NEGATIVE_Z              (* 1100 *)
  ; FLOW_DIAGONAL_POSITIVE_X_NEGATIVE_Z   (* 1101 *)
  ; FLOW_DIAGONAL_NEGATIVE_X_NEGATIVE_Z   (* 1110 *)
  ; FLOW_IDLE                             (* 1111 *)
  ].

(** The [mask] local of [get_fluid_flow_state_from_corner_levels]. *)
Definition min_corners_mask (corner_levels : list Z) : Z :=
  let min_level :=
    min4 (corner_levels !!! 0%nat) (corner_levels !!! 1%nat)
         (corner_levels !!! 2%nat) (corner_levels !!! 3%nat) in
  wrap_uint8
    (Z.lor (Z.lor (Z.lor
      (Z.shiftl (bool_to_uint8 (corner_levels !!! 0%nat =? min_level)) 3)
      (Z.shiftl (bool_to_uint8 (corner_levels !!! 1%nat =? min_level)) 2))
      (Z.shiftl (bool_to_uint8 (corner_levels !!! 2%nat =? min_level)) 1))
      (Z.shiftl (bool_to_uint8 (corner_levels !!! 3%nat =? min_level)) 0)).

Definition get_fluid_flow_state_from_corner_levels (corner_levels : list Z) : FlowState :=
  g_min_corners_mask_to_flowstate !!! Z.to_nat (min_corners_mask corner_levels).

Definition get_corner_levels_from_fluid_levels (fluid_levels : list Z) : list Z :=
  [ max4 (fluid_levels !!! 1%nat) (fluid_levels !!! 2%nat)
         (fluid_levels !!! 4%nat) (fluid_levels !!! 5%nat)
  ; max4 (fluid_levels !!! 0%nat) (fluid_levels !!! 1%nat)
         (fluid_levels !!! 3%nat) (fluid_levels !!! 4%nat)
  ; max4 (fluid_levels !!! 3%nat) (fluid_levels !!! 4%nat)
         (fluid_levels !!! 6%nat) (fluid_levels !!! 7%nat)
  ; max4 (fluid_levels !!! 4%nat) (fluid_levels !!! 5%nat)
         (fluid_levels !!! 7%nat) (fluid_levels !!! 8%nat) ].

(** [LevelToHeight::operator()]. *)
Definition level_to_height (K : Constants) (max_level_inv : Q) (level : Z) : Q :=
  lerp (BOTTOM_HEIGHT K) (TOP_HEIGHT K) (inject_Z level * max_level_inv)%Q.

Definition get_corner_heights_from_corner_levels (K : Constants)
    (corner_levels : list Z) (fluid : Fluid.t) : list Q :=
  let max_level_inv := (1 / inject_Z (Fluid.max_level fluid))%Q in
  [ level_to_height K max_level_inv (corner_levels !!! 0%nat)
  ; level_to_height K max_level_inv (corner_levels !!! 1%nat)
  ; level_to_height K max_level_inv (corner_levels !!! 2%nat)
  ; level_to_height K max_level_inv (corner_levels !!! 3%nat) ].

(** [indices[1] = indices[4]; indices[3] = indices[2];] *)
Definition transpose_quad_triangles (indices : list Z) : option (list Z) :=
  i4 ← indices !! 4%nat;
  let indices := <[1%nat := i4]> indices in
  i2 ← indices !! 2%nat;
  Some (<[3%nat := i2]> indices).

(** [positions[i].y = y]. *)
Definition set_position_y (positions : list Vector3f) (i : nat) (y : Q)
    : option (list Vector3f) :=
  p ← positions !! i;
  Some (<[i := set_y p y]> positions).

(** The two top vertices of a lateral fluid side: [positions[2].y = h2;
    positions[3].y = h3]. *)
Definition raise_top_vertices (side_surface : SideSurface.t) (h2 h3 : Q)
    : option SideSurface.t :=
  p ← set_position_y (SideSurface.positions side_surface) 2 h2;
  p ← set_position_y p 3 h3;
  Some (SideSurface.mk p (SideSurface.uvs side_surface)
          (SideSurface.indices side_surface) (SideSurface.tangents side_surface)).

Definition uv_of (K : Constants) (a : Axis) (f : FlowState) : Vector2f :=
  mkVector2f (inject_Z (axis_value K a)) (inject_Z (flow_state_value K f)).

(** The body of the [dz]/[dx] loops of [generate_fluid_model]: one sampled
    neighbour.  The state is the counter [i], [fluid_levels] and
    [covered_neighbors]. *)
Definition sample_fluid_neighbor (lib : Library.t) (voxel : BakedData.t) (fluid : Fluid.t)
    (type_buffer : list Z) (voxel_index y_jump_size x_jump_size z_jump_size : Z)
    (st : nat * list Z * Z) (d : Z * Z) : option (nat * list Z * Z) :=
  let '(i, fluid_levels, covered_neighbors) := st in
  let '(dz, dx) := d in
  let nloc := voxel_index + dx * x_jump_size + dz * z_jump_size in
  nid ← read type_buffer nloc;
  '(fluid_levels, covered_neighbors) ←
    (if has_model lib nid then
       nm ← get_model lib nid;
       if BakedData.fluid_index nm =? BakedData.fluid_index voxel then
         let fluid_levels := <[i := BakedData.fluid_level nm]> fluid_levels in
         covered_neighbors ←
           (if negb (i =? 4)%nat then
              anid ← read type_buffer (nloc + y_jump_size);
              if negb (anid =? AIR_ID) && has_model lib anid then
                anm ← get_model lib anid;
                Some (if BakedData.fluid_index anm =? BakedData.fluid_index voxel
                      then Z.lor covered_neighbors (Z.shiftl 1 (Z.of_nat i))
                      else covered_neighbors)
              else Some covered_neighbors
            else Some covered_neighbors);
         fluid_levels ←
           (if Fluid.dip_when_flowing_down fluid then
              if negb (BakedData.fluid_level nm =? Fluid.max_level fluid)
                 && (Z.land covered_neighbors (Z.shiftl 1 (Z.of_nat i)) =? 0) then
                bnid ← read type_buffer (nloc - y_jump_size);
                if bnid =? AIR_ID then Some (<[i := 0]> fluid_levels)
                else if has_model lib bnid then
                  bnm ← get_model lib bnid;
                  Some (if BakedData.fluid_index bnm =? BakedData.fluid_index voxel
                        then <[i := 0]> fluid_levels else fluid_levels)
                else Some fluid_levels
              else Some fluid_levels
            else Some fluid_levels);
         Some (fluid_levels, covered_neighbors)
       else Some (<[i := 0]> fluid_levels, covered_neighbors)
     else Some (<[i := 0]> fluid_levels, covered_neighbors));
  Some (S i, fluid_levels, covered_neighbors).

(** A loop whose body may hit undefined behaviour. *)
Fixpoint foldM {S A : Type} (f : S -> A -> option S) (s : S) (l : list A) : option S :=
  match l with
  | [] => Some s
  | x :: l => s' ← f s x; foldM f s' l
  end.

(** [for (dz = -1; dz <= 1; ++dz) for (dx = -1; dx <= 1; ++dx)]. *)
Definition fluid_neighborhood : list (Z * Z) :=
  dz ← [-1; 0; 1]; dx ← [-1; 0; 1]; [(dz, dx)].

(** [generate_fluid_model]: the surfaces, the side surfaces and the surface
    count that replace the model's own for a fluid voxel.

    The thread-local scratch ([get_tls_fluid_sides_surfaces],
    [get_tls_fluid_top]) is not threaded as state: every slot the mesher reads
    afterwards is rewritten here first, the slot of the top side is only ever
    cleared, and the second material slot of each side is never written, so
    both are empty. *)
Definition generate_fluid_model (K : Constants) (voxel : BakedData.t)
    (type_buffer : list Z) (voxel_index y_jump_size x_jump_size z_jump_size : Z)
    (lib : Library.t)
    : option (list Surface.t * (Side -> list SideSurface.t) * nat) :=
  top_voxel_id ← read type_buffer (voxel_index + y_jump_size);
  fluid_top_covered ←
    (if has_model lib top_voxel_id then
       top_model ← get_model lib top_voxel_id;
       Some (BakedData.fluid_index top_model =? BakedData.fluid_index voxel)
     else Some false);
  fluid ← Library.fluids lib !! Z.to_nat (BakedData.fluid_index voxel);
  (* Lateral sides, then the bottom side *)
  let neg_x := copy (Fluid.side_surfaces fluid SIDE_NEGATIVE_X)
                 (uv_of K AXIS_X FLOW_STRAIGHT_POSITIVE_Z) in
  let pos_x := copy (Fluid.side_surfaces fluid SIDE_POSITIVE_X)
                 (uv_of K AXIS_X FLOW_STRAIGHT_POSITIVE_Z) in
  let neg_z := copy (Fluid.side_surfaces fluid SIDE_NEGATIVE_Z)
                 (uv_of K AXIS_Z FLOW_STRAIGHT_POSITIVE_Z) in
  let pos_z := copy (Fluid.side_surfaces fluid SIDE_POSITIVE_Z)
                 (uv_of K AXIS_Z FLOW_STRAIGHT_POSITIVE_Z) in
  let neg_y := copy (Fluid.side_surfaces fluid SIDE_NEGATIVE_Y)
                 (uv_of K AXIS_Y FLOW_IDLE) in
  let fluid_sides (neg_x pos_x neg_z pos_z : SideSurface.t) (s : Side) :=
    [ match s with
      | SIDE_NEGATIVE_X => neg_x | SIDE_POSITIVE_X => pos_x
      | SIDE_NEGATIVE_Z => neg_z | SIDE_POSITIVE_Z => pos_z
      | SIDE_NEGATIVE_Y => neg_y | SIDE_POSITIVE_Y => SideSurface.clear
      end
    ; SideSurface.clear ] in
  if (fluid_top_covered : bool) then
    (* No top side; the model's own surfaces are kept for their material. *)
    Some (Model.surfaces (BakedData.model voxel),
          fluid_sides neg_x pos_x neg_z pos_z, 1%nat)
  else
    let top_src := Fluid.side_surfaces fluid SIDE_POSITIVE_Y in
    sampled ←
      foldM (sample_fluid_neighbor lib voxel fluid type_buffer voxel_index
               y_jump_size x_jump_size z_jump_size)
            (0%nat, replicate 9 0, 0) fluid_neighborhood;
    let fluid_levels := sampled.1.2 in
    let covered_neighbors := sampled.2 in
    let corner_levels := get_corner_levels_from_fluid_levels fluid_levels in
    let flow_state := get_fluid_flow_state_from_corner_levels corner_levels in
    let corner_heights := get_corner_heights_from_corner_levels K corner_levels fluid in
    (* Covered neighbors need to be considered at full height:
       masks 0b000'001'011, 0b000'100'110, 0b011'001'000, 0b110'100'000 *)
    let corner_heights :=
      if negb (Z.land covered_neighbors 11 =? 0)
      then <[1%nat := 1%Q]> corner_heights else corner_heights in
    let corner_heights :=
      if negb (Z.land covered_neighbors 38 =? 0)
      then <[0%nat := 1%Q]> corner_heights else corner_heights in
    let corner_heights :=
      if negb (Z.land covered_neighbors 200 =? 0)
      then <[2%nat := 1%Q]> corner_heights else corner_heights in
    let corner_heights :=
      if negb (Z.land covered_neighbors 416 =? 0)
      then <[3%nat := 1%Q]> corner_heights else corner_heights in
    let h (i : nat) : Q := default 0%Q (corner_heights !! i) in
    neg_x ← raise_top_vertices neg_x (h 2%nat) (h 1%nat);
    pos_x ← raise_top_vertices pos_x (h 0%nat) (h 3%nat);
    neg_z ← raise_top_vertices neg_z (h 1%nat) (h 0%nat);
    pos_z ← raise_top_vertices pos_z (h 3%nat) (h 2%nat);
    p ← set_position_y (FluidSurface.positions top_src) 0 (h 0%nat);
    p ← set_position_y p 1 (h 1%nat);
    p ← set_position_y p 2 (h 2%nat);
    p ← set_position_y p 3 (h 3%nat);
    top_indices ←
      (if bool_decide (flow_state = FLOW_DIAGONAL_POSITIVE_X_POSITIVE_Z)
          || bool_decide (flow_state = FLOW_DIAGONAL_NEGATIVE_X_NEGATIVE_Z)
       then transpose_quad_triangles (FluidSurface.indices top_src)
       else Some (FluidSurface.indices top_src));
    let fluid_top_surface :=
      Surface.mk p
        (Surface.normals
           (copy_positions_normals_tangents top_src (mkVector3f 0 1 0)
              (Fluid.material_id fluid) false []))
        (replicate 4 (uv_of K AXIS_Y flow_state))
        top_indices (FluidSurface.tangents top_src)
        (Fluid.material_id fluid) false in
    Some ([fluid_top_surface], fluid_sides neg_x pos_x neg_z pos_z, 1%nat).

(** ** Output arrays *)

(** [VoxelMesherBlocky::Arrays]. *)
Module Arrays.
Record t := mk {
  positions : list Vector3f;
  normals : list Vector3f;
  uvs : list Vector2f;
  colors : list Color;
  indices : list Z;
  tangents : list Q
}.
Definition clear : t := mk [] [] [] [] [] [].
End Arrays.

(** [VoxelMesher::Output::CollisionSurface]. *)
Module CollisionSurface.
Record t := mk {
  positions : list Vector3f;
  indices : list Z
}.
End CollisionSurface.

(** What one iteration of a surface loop appends: the vertex data of one
    baked surface of one voxel, already moved to the voxel's position, with
    the material and the [collision_enabled] flag of the surface it is emitted
    for.  Indices are still relative to the patch. *)
Record Patch := mkPatch {
  patch_material : nat;
  patch_collision : bool;
  patch_positions : list Vector3f;
  patch_uvs : list Vector2f;
  patch_tangents : list Q;
  patch_normals : list Vector3f;
  patch_colors : list Color;
  patch_indices : list Z
}.

(** The mutable state of [generate_blocky_mesh]. *)
Record MeshState := mkMeshState {
  ms_out_arrays_per_material : list Arrays.t;
  ms_index_offsets : list Z;
  ms_collision_surface : option CollisionSurface.t;
  ms_collision_surface_index_offset : Z
}.

(** The vertex data a patch adds to the arrays of its material, indices
    rebased by [index_offset]. *)
Definition append_to_arrays (arrays : Arrays.t) (index_offset : Z) (p : Patch) : Arrays.t :=
  Arrays.mk
    (Arrays.positions arrays ++ patch_positions p)
    (Arrays.normals arrays ++ patch_normals p)
    (Arrays.uvs arrays ++ patch_uvs p)
    (Arrays.colors arrays ++ patch_colors p)
    (Arrays.indices arrays ++ map (Z.add index_offset) (patch_indices p))
    (Arrays.tangents arrays ++ patch_tangents p).

Definition append_to_collision (dst : CollisionSurface.t) (index_offset : Z) (p : Patch)
    : CollisionSurface.t :=
  CollisionSurface.mk
    (CollisionSurface.positions dst ++ patch_positions p)
    (CollisionSurface.indices dst ++ map (Z.add index_offset) (patch_indices p)).

(** The appends of one iteration of the surface loops of
    [generate_blocky_mesh] (the side loop resizes and writes, the inside loop
    pushes back; both append): into the arrays of the surface's material, into
    the collision surface when there is one and the surface has
    [collision_enabled], then the two offsets advance. *)
Definition append_patch (st : MeshState) (p : Patch) : option MeshState :=
  let material_id := patch_material p in
  arrays ← ms_out_arrays_per_material st !! material_id;
  index_offset ← ms_index_offsets st !! material_id;
  let vertex_count := Z.of_nat (length (patch_positions p)) in
  let arrays := append_to_arrays arrays index_offset p in
  let mirrored :=
    match ms_collision_surface st with
    | Some dst =>
        if patch_collision p
        then (Some (append_to_collision dst (ms_collision_surface_index_offset st) p),
              ms_collision_surface_index_offset st + vertex_count)
        else (Some dst, ms_collision_surface_index_offset st)
    | None => (None, ms_collision_surface_index_offset st)
    end in
  Some (mkMeshState
          (<[material_id := arrays]> (ms_out_arrays_per_material st))
          (<[material_id := index_offset + vertex_count]> (ms_index_offsets st))
          mirrored.1 mirrored.2).

(** A [memcpy] of [n] elements out of [l]. *)
Definition memcpy {A : Type} (n : nat) (l : list A) : option (list A) :=
  if (n <=? length l)%nat then Some (take n l) else None.

(** [if (tangents.size() > 0) memcpy(.., tangents.data(), vertex_count * 4)]. *)
Definition copy_tangents (vertex_count : nat) (tangents : list Q) : option (list Q) :=
  if (0 <? length tangents)%nat then memcpy (vertex_count * 4) tangents else Some [].

(** ** Ambient occlusion *)

Definition Qlt_bool (a b : Q) : bool := negb (Qle_bool b a).

(** [int8_t shaded_corner[8]], indexed by corner. *)
Definition ShadedCorners := Corner -> Z.

Definition set_corner (shaded_corner : ShadedCorners) (c : Corner) (v : Z) : ShadedCorners :=
  fun c' => if decide (c' = c) then v else shaded_corner c'.

(** [++shaded_corner[c]] on [int8_t]. *)
Definition incr_corner (shaded_corner : ShadedCorners) (c : Corner) : ShadedCorners :=
  set_corner shaded_corner c (wrap_int8 (shaded_corner c + 1)).

Section Neighbors.
Variables row_size deck_size : Z.

Definition side_neighbor_lut (side : Side) : Z :=
  if decide (side = SIDE_LEFT) then row_size
  else if decide (side = SIDE_RIGHT) then - row_size
  else if decide (side = SIDE_BACK) then - deck_size
  else if decide (side = SIDE_FRONT) then deck_size
  else if decide (side = SIDE_BOTTOM) then -1
  else 1.

Definition edge_neighbor_lut (edge : Edge) : Z :=
  match edge with
  | EDGE_BOTTOM_BACK => side_neighbor_lut SIDE_BOTTOM + side_neighbor_lut SIDE_BACK
  | EDGE_BOTTOM_FRONT => side_neighbor_lut SIDE_BOTTOM + side_neighbor_lut SIDE_FRONT
  | EDGE_BOTTOM_LEFT => side_neighbor_lut SIDE_BOTTOM + side_neighbor_lut SIDE_LEFT
  | EDGE_BOTTOM_RIGHT => side_neighbor_lut SIDE_BOTTOM + side_neighbor_lut SIDE_RIGHT
  | EDGE_BACK_LEFT => side_neighbor_lut SIDE_BACK + side_neighbor_lut SIDE_LEFT
  | EDGE_BACK_RIGHT => side_neighbor_lut SIDE_BACK + side_neighbor_lut SIDE_RIGHT
  | EDGE_FRONT_LEFT => side_neighbor_lut SIDE_FRONT + side_neighbor_lut SIDE_LEFT
  | EDGE_FRONT_RIGHT => side_neighbor_lut SIDE_FRONT + side_neighbor_lut SIDE_RIGHT
  | EDGE_TOP_BACK => side_neighbor_lut SIDE_TOP + side_neighbor_lut SIDE_BACK
  | EDGE_TOP_FRONT => side_neighbor_lut SIDE_TOP + side_neighbor_lut SIDE_FRONT
  | EDGE_TOP_LEFT => side_neighbor_lut SIDE_TOP + side_neighbor_lut SIDE_LEFT
  | EDGE_TOP_RIGHT => side_neighbor_lut SIDE_TOP + side_neighbor_lut SIDE_RIGHT
  end.

Definition corner_neighbor_lut (corner : Corner) : Z :=
  match corner with
  | CORNER_BOTTOM_BACK_LEFT =>
      side_neighbor_lut SIDE_BOTTOM + side_neighbor_lut SIDE_BACK + side_neighbor_lut SIDE_LEFT
  | CORNER_BOTTOM_BACK_RIGHT =>
      side_neighbor_lut SIDE_BOTTOM + side_neighbor_lut SIDE_BACK + side_neighbor_lut SIDE_RIGHT
  | CORNER_BOTTOM_FRONT_RIGHT =>
      side_neighbor_lut SIDE_BOTTOM + side_neighbor_lut SIDE_FRONT + side_neighbor_lut SIDE_RIGHT
  | CORNER_BOTTOM_FRONT_LEFT =>
      side_neighbor_lut SIDE_BOTTOM + side_neighbor_lut SIDE_FRONT + side_neighbor_lut SIDE_LEFT
  | CORNER_TOP_BACK_LEFT =>
      side_neighbor_lut SIDE_TOP + side_neighbor_lut SIDE_BACK + side_neighbor_lut SIDE_LEFT
  | CORNER_TOP_BACK_RIGHT =>
      side_neighbor_lut SIDE_TOP + side_neighbor_lut SIDE_BACK + side_neighbor_lut SIDE_RIGHT
  | CORNER_TOP_FRONT_RIGHT =>
      side_neighbor_lut SIDE_TOP + side_neighbor_lut SIDE_FRONT + side_neighbor_lut SIDE_RIGHT
  | CORNER_TOP_FRONT_LEFT =>
      side_neighbor_lut SIDE_TOP + side_neighbor_lut SIDE_FRONT + side_neighbor_lut SIDE_LEFT
  end.

End Neighbors.

Section Mesher.
Variable K : Constants.
Variable lib : Library.t.
Variable type_buffer : list Z.
Variables row_size deck_size : Z.

(** The first AO loop: the four edges of the side. *)
Definition shade_edge (voxel_index : Z) (side : Side)
    (shaded_corner : ShadedCorners) (j : nat) : option ShadedCorners :=
  let edge := g_side_edges K side j in
  edge_neighbor_id ← read type_buffer (voxel_index + edge_neighbor_lut row_size deck_size edge);
  Some (if contributes_to_ao lib edge_neighbor_id
        then incr_corner (incr_corner shaded_corner (g_edge_corners K edge 0))
                         (g_edge_corners K edge 1)
        else shaded_corner).

(** The second AO loop: the four corners of the side. *)
Definition shade_corner (voxel_index : Z) (side : Side)
    (shaded_corner : ShadedCorners) (j : nat) : option ShadedCorners :=
  let corner := g_side_corners K side j in
  if shaded_corner corner =? 2 then Some (set_corner shaded_corner corner 3)
  else
    corner_neigbor_id ←
      read type_buffer (voxel_index + corner_neighbor_lut row_size deck_size corner);
    Some (if contributes_to_ao lib corner_neigbor_id
          then incr_corner shaded_corner corner else shaded_corner).

(** [shaded_corner] of a visible face. *)
Definition bake_shaded_corner (bake_occlusion : bool) (voxel_index : Z) (side : Side)
    : option ShadedCorners :=
  let shaded_corner : ShadedCorners := fun _ => 0 in
  if bake_occlusion then
    shaded_corner ← foldM (shade_edge voxel_index side) shaded_corner [0; 1; 2; 3]%nat;
    foldM (shade_corner voxel_index side) shaded_corner [0; 1; 2; 3]%nat
  else Some shaded_corner.

(** The body of the loop over the four corners that computes [shade]. *)
Definition shade_step (baked_occlusion_darkness : Q) (side : Side)
    (shaded_corner : ShadedCorners) (vertex_pos : Vector3f) (shade : Q) (j : nat) : Q :=
  let corner := g_side_corners K side j in
  if negb (shaded_corner corner =? 0) then
    let s := (baked_occlusion_darkness * inject_Z (shaded_corner corner))%Q in
    let k := (1 - distance_squared (g_corner_position K corner) vertex_pos)%Q in
    let k := if Qlt_bool k 0 then 0%Q else k in
    let s := (s * k)%Q in
    if Qlt_bool shade s then s else shade
  else shade.

Definition vertex_shade (baked_occlusion_darkness : Q) (side : Side)
    (shaded_corner : ShadedCorners) (vertex_pos : Vector3f) : Q :=
  foldl (shade_step baked_occlusion_darkness side shaded_corner vertex_pos)
        0%Q [0; 1; 2; 3]%nat.

(** The colours appended for one side surface. *)
Definition side_colors (bake_occlusion : bool) (baked_occlusion_darkness : Q)
    (side : Side) (shaded_corner : ShadedCorners) (modulate_color : Color)
    (side_positions : list Vector3f) : list Color :=
  if bake_occlusion then
    map (fun vertex_pos =>
           let shade := vertex_shade baked_occlusion_darkness side shaded_corner vertex_pos in
           let gs := (1 - shade)%Q in
           color_mul (gray gs) modulate_color)
        side_positions
  else replicate (length side_positions) modulate_color.

(** ** The main mesher *)

(** The visibility test of one side: [None] when the neighbour occludes it
    completely ([continue]), else the side surfaces to render, which are the
    model's own unless a cut-out is found for the neighbour's shape. *)
Definition visible_side_surfaces (voxel : BakedData.t)
    (model_sides_surfaces : Side -> list SideSurface.t)
    (voxel_index : Z) (side : Side) : option (option (list SideSurface.t)) :=
  let model := BakedData.model voxel in
  let side_surfaces := model_sides_surfaces side in
  neighbor_voxel_id ← read type_buffer (voxel_index + side_neighbor_lut row_size deck_size side);
  (* Invalid voxels are treated like air *)
  if has_model lib neighbor_voxel_id then
    other_vt ← get_model lib neighbor_voxel_id;
    if negb (is_face_visible_regardless_of_shape voxel other_vt) then
      if negb (is_face_visible_according_to_shape K lib voxel other_vt side) then
        Some None
      else if BakedData.cutout_sides_enabled voxel then
        let neighbor_shape_id :=
          Model.side_pattern_indices (BakedData.model other_vt) (g_opposite_side K side) in
        match Model.cutout_side_surfaces model side !! neighbor_shape_id with
        | Some cut => Some (Some cut)
        | None => Some (Some side_surfaces)
        end
      else Some (Some side_surfaces)
    else Some (Some side_surfaces)
  else Some (Some side_surfaces).

(** What the side loop appends for one surface of one visible side. *)
Definition side_patch (bake_occlusion : bool) (baked_occlusion_darkness : Q)
    (voxel : BakedData.t) (side : Side) (shaded_corner : ShadedCorners)
    (pos : Vector3f) (surface : Surface.t) (side_surface : SideSurface.t) : option Patch :=
  let side_positions := SideSurface.positions side_surface in
  let vertex_count := length side_positions in
  uvs ← memcpy vertex_count (SideSurface.uvs side_surface);
  tangents ← copy_tangents vertex_count (SideSurface.tangents side_surface);
  Some (mkPatch (Surface.material_id surface) (Surface.collision_enabled surface)
          (map (fun p => vadd p pos) side_positions)
          uvs tangents
          (replicate vertex_count (to_vec3f (g_side_normals K side)))
          (side_colors bake_occlusion baked_occlusion_darkness side shaded_corner
             (BakedData.color voxel) side_positions)
          (SideSurface.indices side_surface)).

(** What the inside loop appends for one surface. *)
Definition inside_patch (voxel : BakedData.t) (pos : Vector3f) (surface : Surface.t)
    : option Patch :=
  let positions := Surface.positions surface in
  let vertex_count := length positions in
  tangents ← copy_tangents vertex_count (Surface.tangents surface);
  normals ← memcpy vertex_count (Surface.normals surface);
  uvs ← memcpy vertex_count (Surface.uvs surface);
  Some (mkPatch (Surface.material_id surface) (Surface.collision_enabled surface)
          (map (fun p => vadd p pos) positions)
          uvs tangents normals
          (replicate vertex_count (BakedData.color voxel))
          (Surface.indices surface)).

(** Appending to the list of the emitted surfaces. *)
Definition snoc (l : list Patch) (p : Patch) : option (list Patch) := Some (l ++ [p]).

(** The traversal is written once over the operation [emit] that appends a
    patch: the mesher runs it with [append_patch]; run with a list as the
    state it yields the emitted surfaces in visit order. *)
Section Traversal.
Context {S : Type}.
Variable emit : S -> Patch -> option S.
Variables (bake_occlusion : bool) (baked_occlusion_darkness : Q).

(** The body of the loop over the sides of one voxel. *)
Definition mesh_side (voxel : BakedData.t) (model_surfaces : list Surface.t)
    (model_sides_surfaces : Side -> list SideSurface.t) (model_surface_count : nat)
    (voxel_index : Z) (pos : Vector3f) (st : S) (side : Side) : option S :=
  if negb (Z.land (Model.empty_sides_mask (BakedData.model voxel))
                  (Z.shiftl 1 (Z.of_nat (side_index side))) =? 0)
  then Some st (* This side is empty *)
  else
    visible ← visible_side_surfaces voxel model_sides_surfaces voxel_index side;
    match visible with
    | None => Some st (* Completely occluded *)
    | Some side_surfaces =>
        shaded_corner ← bake_shaded_corner bake_occlusion voxel_index side;
        foldM (fun st surface_index =>
                 surface ← model_surfaces !! surface_index;
                 side_surface ← side_surfaces !! surface_index;
                 p ← side_patch bake_occlusion baked_occlusion_darkness voxel side
                       shaded_corner pos surface side_surface;
                 emit st p)
              st (seq 0 model_surface_count)
    end.

(** The body of the loop over the inner surfaces of one voxel. *)
Definition mesh_inside (voxel : BakedData.t) (model_surfaces : list Surface.t)
    (pos : Vector3f) (st : S) (surface_index : nat) : option S :=
  surface ← model_surfaces !! surface_index;
  if bool_decide (Surface.positions surface = []) then Some st
  else
    p ← inside_patch voxel pos surface;
    emit st p.

(** The body of the triple loop: one voxel of the block. *)
Definition mesh_voxel (st : S) (x y z : Z) : option S :=
  let voxel_index := y + x * row_size + z * deck_size in
  voxel_id ← read type_buffer voxel_index;
  if (voxel_id =? AIR_ID) || negb (has_model lib voxel_id) then Some st
  else
    voxel ← get_model lib voxel_id;
    let model := BakedData.model voxel in
    fluid_or_model ←
      (if negb (BakedData.fluid_index voxel =? NULL_FLUID_INDEX) then
         generate_fluid_model K voxel type_buffer voxel_index 1 row_size deck_size lib
       else Some (Model.surfaces model, Model.sides_surfaces model,
                  Model.surface_count model));
    let model_surfaces := fluid_or_model.1.1 in
    let model_sides_surfaces := fluid_or_model.1.2 in
    let model_surface_count := fluid_or_model.2 in
    (* Subtracting 1 because the data is padded *)
    let pos := mkVector3f (inject_Z (x - 1)) (inject_Z (y - 1)) (inject_Z (z - 1)) in
    st ← foldM (mesh_side voxel model_surfaces model_sides_surfaces model_surface_count
                  voxel_index pos) st SIDES;
    foldM (mesh_inside voxel model_surfaces pos) st (seq 0 model_surface_count).

End Traversal.
End Mesher.

(** [for (i = lo; i < hi; ++i)]. *)
Definition range (lo hi : Z) : list Z :=
  map (fun i => lo + Z.of_nat i) (seq 0 (Z.to_nat (hi - lo))).

(** The triple loop of [generate_blocky_mesh] over the inner voxels of the
    padded block: z, then x, then y. *)
Definition mesh_block {S : Type} (emit : S -> Patch -> option S) (K : Constants)
    (type_buffer : list Z) (block_size : Vector3i) (lib : Library.t)
    (bake_occlusion : bool) (baked_occlusion_darkness : Q) (st : S) : option S :=
  let row_size := iy block_size in
  let deck_size := ix block_size * row_size in
  let min := mkVector3i PADDING PADDING PADDING in
  let max := mkVector3i (ix block_size - PADDING) (iy block_size - PADDING)
                        (iz block_size - PADDING) in
  foldM (fun st z =>
    foldM (fun st x =>
      foldM (fun st y =>
               mesh_voxel K lib type_buffer row_size deck_size emit
                 bake_occlusion baked_occlusion_darkness st x y z)
            st (range (iy min) (iy max)))
      st (range (ix min) (ix max)))
    st (range (iz min) (iz max)).

(** [ERR_FAIL_COND] at the head of [generate_blocky_mesh]. *)
Definition block_too_small (block_size : Vector3i) : bool :=
  (ix block_size <? 2 * PADDING) || (iy block_size <? 2 * PADDING)
  || (iz block_size <? 2 * PADDING).

(** [generate_blocky_mesh]: the arrays per material and the collision surface
    after the pass, and the error [ERR_FAIL_COND] prints when the block is too
    small (Godot words it from the text of the condition, shortened here). *)
Definition generate_blocky_mesh (K : Constants)
    (out_arrays_per_material : list Arrays.t)
    (collision_surface : option CollisionSurface.t)
    (type_buffer : list Z) (block_size : Vector3i) (lib : Library.t)
    (bake_occlusion : bool) (baked_occlusion_darkness : Q)
    : option (list Arrays.t * option CollisionSurface.t * list string) :=
  if block_too_small block_size then
    Some (out_arrays_per_material, collision_surface,
          ["Condition is true: block_size < 2 * PADDING"%string])
  else
    let st := mkMeshState out_arrays_per_material
                (replicate (length out_arrays_per_material) 0)
                collision_surface 0 in
    st ← mesh_block append_patch K type_buffer block_size lib
           bake_occlusion baked_occlusion_darkness st;
    Some (ms_out_arrays_per_material st, ms_collision_surface st, []).

(** The surfaces the main pass emits, in visit order. *)
Definition emitted_patches (K : Constants) (type_buffer : list Z) (block_size : Vector3i)
    (lib : Library.t) (bake_occlusion : bool) (baked_occlusion_darkness : Q)
    : option (list Patch) :=
  if block_too_small block_size then Some []
  else mesh_block snoc K type_buffer block_size lib
         bake_occlusion baked_occlusion_darkness [].

(** ** The seam appender *)

Definition zyx (v : Vector3f) : Vector3f := mkVector3f (v3z v) (v3y v) (v3x v).
Definition yzx (v : Vector3f) : Vector3f := mkVector3f (v3y v) (v3z v) (v3x v).

Definition side_to_block_coordinates (v : Vector3f) (side : Side) : Vector3f :=
  match side with
  | SIDE_NEGATIVE_X | SIDE_POSITIVE_X => zyx v
  | SIDE_NEGATIVE_Y | SIDE_POSITIVE_Y => yzx v
  | SIDE_NEGATIVE_Z | SIDE_POSITIVE_Z => v
  end.

Definition get_side_sign (side : Side) : Z :=
  match side with
  | SIDE_NEGATIVE_X | SIDE_NEGATIVE_Y | SIDE_NEGATIVE_Z => -1
  | SIDE_POSITIVE_X | SIDE_POSITIVE_Y | SIDE_POSITIVE_Z => 1
  end.

(** The appends of one iteration of the surface loop of [append_side_seams]:
    into the arrays of the surface's material only, indices rebased by the
    number of positions already there. *)
Definition append_seam_patch (out_arrays_per_material : list Arrays.t) (p : Patch)
    : option (list Arrays.t) :=
  let material_id := patch_material p in
  arrays ← out_arrays_per_material !! material_id;
  let index_offset := Z.of_nat (length (Arrays.positions arrays)) in
  Some (<[material_id := append_to_arrays arrays index_offset p]> out_arrays_per_material).

(** What [append_side_seams] appends for one surface of the inner voxel.  The
    side surface is read at [side_surfaces[side]]: the two-slot array of the
    side, indexed by the side again. *)
Definition seam_patch (K : Constants) (side : Side) (pos : Vector3f)
    (voxel_baked_data : BakedData.t) (surface_index : nat) : option Patch :=
  let model := BakedData.model voxel_baked_data in
  let side_surfaces := Model.sides_surfaces model side in
  surface ← Model.surfaces model !! surface_index;
  side_surface ← side_surfaces !! side_index side;
  let vertex_count := length (SideSurface.positions side_surface) in
  uvs ← memcpy vertex_count (SideSurface.uvs side_surface);
  tangents ← copy_tangents vertex_count (SideSurface.tangents side_surface);
  Some (mkPatch (Surface.material_id surface) (Surface.collision_enabled surface)
          (map (fun p => vadd p pos) (SideSurface.positions side_surface))
          uvs tangents
          (replicate vertex_count (to_vec3f (g_side_normals K side)))
          (replicate vertex_count (BakedData.color voxel_baked_data))
          (SideSurface.indices side_surface)).

(** The body of the two loops of [append_side_seams]: one outer voxel, at
    side-relative coordinates [x], [y] on the layer [z]. *)
Definition seam_voxel {S : Type} (emit : S -> Patch -> option S) (K : Constants)
    (buffer : list Z) (jump : Vector3i) (z : Z) (side : Side) (lib : Library.t)
    (st : S) (x y : Z) : option S :=
  let AIR := 0 in
  let pad := 1 in
  let z_base := z * iz jump in
  let side_sign := get_side_sign side in
  let buffer_index := x * ix jump + y * iy jump + z_base in
  v ← read buffer buffer_index;
  if v =? AIR then Some st
  else
    (* Check if the voxel is exposed to air *)
    nv0 ← read buffer (buffer_index - ix jump);
    nv1 ← read buffer (buffer_index + ix jump);
    nv2 ← read buffer (buffer_index - iy jump);
    nv3 ← read buffer (buffer_index + iy jump);
    if negb (nv0 =? AIR) && negb (nv1 =? AIR) && negb (nv2 =? AIR) && negb (nv3 =? AIR)
    then Some st
    else
      (* Check if the outer voxel occludes an inner voxel *)
      nv4 ← read buffer (buffer_index - side_sign * iz jump);
      if nv4 =? AIR then Some st
      else
        let pos :=
          side_to_block_coordinates
            (mkVector3f (inject_Z (x - pad)) (inject_Z (y - pad))
                        (inject_Z (z - (side_sign + 1)))) side in
        voxel_baked_data ← get_model lib nv4;
        foldM (fun st surface_index =>
                 p ← seam_patch K side pos voxel_baked_data surface_index;
                 emit st p)
              st (seq 0 (Model.surface_count (BakedData.model voxel_baked_data))).

Definition append_side_seams {S : Type} (emit : S -> Patch -> option S) (K : Constants)
    (buffer : list Z) (jump : Vector3i) (z size_x size_y : Z) (side : Side)
    (lib : Library.t) (st : S) : option S :=
  let pad := 1 in
  foldM (fun st x =>
    foldM (fun st y => seam_voxel emit K buffer jump z side lib st x y)
          st (range pad (size_y - pad)))
    st (range pad (size_x - pad)).

Definition jump_zyx (j : Vector3i) : Vector3i := mkVector3i (iz j) (iy j) (ix j).
Definition jump_zxy (j : Vector3i) : Vector3i := mkVector3i (iz j) (ix j) (iy j).

Definition seams {S : Type} (emit : S -> Patch -> option S) (K : Constants)
    (buffer : list Z) (size : Vector3i) (lib : Library.t) (out : S) : option S :=
  let jump := mkVector3i (iy size) 1 (ix size * iy size) in
  out ← append_side_seams emit K buffer jump 0 (ix size) (iy size) SIDE_NEGATIVE_Z lib out;
  out ← append_side_seams emit K buffer jump (iz size - 1) (ix size) (iy size)
          SIDE_POSITIVE_Z lib out;
  out ← append_side_seams emit K buffer (jump_zyx jump) 0 (iz size) (iy size)
          SIDE_NEGATIVE_X lib out;
  out ← append_side_seams emit K buffer (jump_zyx jump) (ix size - 1) (iz size) (iy size)
          SIDE_POSITIVE_X lib out;
  out ← append_side_seams emit K buffer (jump_zxy jump) 0 (iz size) (ix size)
          SIDE_NEGATIVE_Y lib out;
  append_side_seams emit K buffer (jump_zxy jump) (iy size - 1) (iz size) (ix size)
    SIDE_POSITIVE_Y lib out.

(** [append_seams]. *)
Definition append_seams (K : Constants) (buffer : list Z) (size : Vector3i)
    (out_arrays_per_material : list Arrays.t) (lib : Library.t) : option (list Arrays.t) :=
  seams append_seam_patch K buffer size lib out_arrays_per_material.

(** The surfaces the seam pass emits, in visit order. *)
Definition emitted_seam_patches (K : Constants) (buffer : list Z) (size : Vector3i)
    (lib : Library.t) : option (list Patch) :=
  seams snoc K buffer size lib [].

(** ** The build driver *)

(** The voxel buffer, as [build] sees its TYPE channel (storage/voxel_buffer.h
    is not among the sources).  [COMPRESSION_OTHER] stands for any value of
    the enumeration other than the two that are named. *)
Inductive Compression := COMPRESSION_NONE | COMPRESSION_UNIFORM | COMPRESSION_OTHER.
Inductive Depth := DEPTH_8_BIT | DEPTH_16_BIT | DEPTH_32_BIT | DEPTH_64_BIT.

Module VoxelBuffer.
Record t := mk {
  get_size : Vector3i;
  get_channel_compression : Compression;
  get_channel_depth : Depth;
  (** [None] when [get_channel_as_bytes_read_only] returns false. *)
  get_channel_as_bytes_read_only : option (list byte)
}.
End VoxelBuffer.

Module Input.
Record t := mk {
  voxels : VoxelBuffer.t;
  lod_index : Z;
  collision_hint : bool
}.
End Input.

(** The mesh arrays of one output surface: the VERTEX, TEX_UV, NORMAL, COLOR
    and INDEX slots, and the TANGENT slot when there are tangents. *)
Module MeshArrays.
Record t := mk {
  vertex : list Vector3f;
  tex_uv : list Vector2f;
  normal : list Vector3f;
  color : list Color;
  index : list Z;
  tangent : option (list Q)
}.
End MeshArrays.

Module OutputSurface.
Record t := mk {
  arrays : MeshArrays.t;
  material_index : nat
}.
End OutputSurface.

Inductive PrimitiveType :=
| PRIMITIVE_POINTS | PRIMITIVE_LINES | PRIMITIVE_LINE_STRIP
| PRIMITIVE_TRIANGLES | PRIMITIVE_TRIANGLE_STRIP.

Module Output.
Record t := mk {
  surfaces : list OutputSurface.t;
  collision_surface : CollisionSurface.t;
  primitive_type : PrimitiveType
}.
(** A freshly constructed output. *)
Definition empty : t := mk [] (CollisionSurface.mk [] []) PRIMITIVE_TRIANGLES.
End Output.

(** [VoxelMesherBlocky::Parameters]. *)
Module Parameters.
Record t := mk {
  library : option Library.t;
  bake_occlusion : bool;
  baked_occlusion_darkness : Q
}.
End Parameters.

Definition set_occlusion_darkness (_parameters : Parameters.t) (darkness : Q) : Parameters.t :=
  Parameters.mk (Parameters.library _parameters) (Parameters.bake_occlusion _parameters)
    (clamp darkness 0 1).

Definition get_occlusion_darkness (_parameters : Parameters.t) : Q :=
  Parameters.baked_occlusion_darkness _parameters.

(** The darkness [build] hands to [generate_blocky_mesh]. *)
Definition build_occlusion_darkness (params : Parameters.t) : Q :=
  if Parameters.bake_occlusion params
  then (Parameters.baked_occlusion_darkness params / 3)%Q
  else 0%Q.

(** The TYPE channel read as 8-bit identifiers. *)
Definition as_uint8 (raw_channel : list byte) : list Z :=
  map (fun b => Z.of_N (Byte.to_N b)) raw_channel.

(** [reinterpret_cast_to<const uint16_t>()], little-endian. *)
Fixpoint as_uint16 (raw_channel : list byte) : list Z :=
  match raw_channel with
  | lo :: hi :: rest =>
      (Z.of_N (Byte.to_N lo) + 256 * Z.of_N (Byte.to_N hi)) :: as_uint16 rest
  | _ => []
  end.

(** [const float lod_scale = 1 << input.lod_index]: a shift of the [int] 1.
    Shifting by the width of [int] or more is undefined. *)
Definition lod_scale (lod_index : Z) : option Q :=
  if lod_index <? 32 then Some (inject_Z (wrap_int32 (Z.shiftl 1 lod_index))) else None.

Definition scale_arrays (s : Q) (arrays : Arrays.t) : Arrays.t :=
  Arrays.mk (map (fun p => vscale p s) (Arrays.positions arrays))
    (Arrays.normals arrays) (Arrays.uvs arrays) (Arrays.colors arrays)
    (Arrays.indices arrays) (Arrays.tangents arrays).

Definition scale_collision (s : Q) (c : CollisionSurface.t) : CollisionSurface.t :=
  CollisionSurface.mk (map (fun p => vscale p s) (CollisionSurface.positions c))
    (CollisionSurface.indices c).

(** The mesh arrays made of the arrays of one material. *)
Definition mesh_arrays_of (arrays : Arrays.t) : MeshArrays.t :=
  MeshArrays.mk (Arrays.positions arrays) (Arrays.uvs arrays) (Arrays.normals arrays)
    (Arrays.colors arrays) (Arrays.indices arrays)
    (if (0 <? length (Arrays.tangents arrays))%nat
     then Some (Arrays.tangents arrays) else None).

(** The last loop of [build]: one output surface per material that has
    vertices. *)
Definition package (arrays_per_material : list Arrays.t) (material_count : nat)
    (surfaces : list OutputSurface.t) : option (list OutputSurface.t) :=
  foldM (fun surfaces material_index =>
           arrays ← arrays_per_material !! material_index;
           Some (if bool_decide (Arrays.positions arrays = []) then surfaces
                 else surfaces ++ [OutputSurface.mk (mesh_arrays_of arrays) material_index]))
        surfaces (seq 0 material_count).

(** [arrays_per_material.resize(material_count)] when it is shorter. *)
Definition grow (arrays_per_material : list Arrays.t) (material_count : nat)
    : list Arrays.t :=
  if (length arrays_per_material <? material_count)%nat
  then arrays_per_material
       ++ replicate (material_count - length arrays_per_material) Arrays.clear
  else arrays_per_material.

(** The part of [build] that runs once the channel is readable and its depth
    is 8 or 16 bits: the main pass, the seams, the scaling and the packaging,
    on the identifiers [model_ids]. *)
Definition build_mesh (K : Constants) (params : Parameters.t) (lib : Library.t)
    (arrays_per_material : list Arrays.t) (output : Output.t) (input : Input.t)
    (model_ids : list Z) : option (Output.t * list Arrays.t * list string) :=
  let block_size := VoxelBuffer.get_size (Input.voxels input) in
  let collision_surface :=
    if Input.collision_hint input then Some (Output.collision_surface output) else None in
  '(arrays_per_material, collision_surface, errors) ←
    generate_blocky_mesh K arrays_per_material collision_surface model_ids
      block_size lib (Parameters.bake_occlusion params)
      (build_occlusion_darkness params);
  arrays_per_material ←
    (if 0 <? Input.lod_index input
     then append_seams K model_ids block_size arrays_per_material lib
     else Some arrays_per_material);
  '(arrays_per_material, collision_surface) ←
    (if 0 <? Input.lod_index input then
       lod_scale ← lod_scale (Input.lod_index input);
       Some (map (scale_arrays lod_scale) arrays_per_material,
             scale_collision lod_scale <$> (collision_surface : option CollisionSurface.t))
     else Some (arrays_per_material, collision_surface));
  surfaces ← package arrays_per_material (Library.indexed_materials_count lib)
               (Output.surfaces output);
  Some (Output.mk surfaces
          (default (Output.collision_surface output) collision_surface)
          PRIMITIVE_TRIANGLES,
        arrays_per_material, errors).

(** [VoxelMesherBlocky::build].  [cache] is the thread's
    [cache.arrays_per_material] before the call; the result is the output,
    the thread's arrays after the call and the errors printed. *)
Definition build (K : Constants) (_parameters : Parameters.t) (cache : list Arrays.t)
    (output : Output.t) (input : Input.t)
    : option (Output.t * list Arrays.t * list string) :=
  let params := _parameters in
  match Parameters.library params with
  | None => Some (output, cache, [])
  | Some library =>
      let arrays_per_material := map (fun _ => Arrays.clear) cache in
      let voxels := Input.voxels input in
      match VoxelBuffer.get_channel_compression voxels with
      | COMPRESSION_UNIFORM => Some (output, arrays_per_material, [])
      | COMPRESSION_OTHER =>
          Some (output, arrays_per_material,
                ["VoxelMesherBlocky received unsupported voxel compression"%string])
      | COMPRESSION_NONE =>
          match VoxelBuffer.get_channel_as_bytes_read_only voxels with
          | None => Some (output, arrays_per_material, ["Something wrong happened"%string])
          | Some raw_channel =>
              let material_count := Library.indexed_materials_count library in
              let arrays_per_material := grow arrays_per_material material_count in
              match VoxelBuffer.get_channel_depth voxels with
              | DEPTH_8_BIT =>
                  build_mesh K params library arrays_per_material output input
                    (as_uint8 raw_channel)
              | DEPTH_16_BIT =>
                  build_mesh K params library arrays_per_material output input
                    (as_uint16 raw_channel)
              | _ => Some (output, arrays_per_material, ["Unsupported voxel depth"%string])
              end
          end
      end
  end.

(** ** The rest of the mesher *)

(** [generate_preview_fluid_model]: the fluid model of a voxel alone in a
    3x3x3 block of air.  The assertion fails on a model that is no fluid.
    [Vector3iUtil::get_zxy_index] is not among the sources; whatever the order
    of the axes, the address of the centre (1,1,1) of a 3x3x3 block is
    1 + 3 + 9 = 13, the one the jumps 1, 3 and 9 handed on give it too. *)
Definition generate_preview_fluid_model (K : Constants) (model : BakedData.t)
    (model_id : Z) (lib : Library.t)
    : option (list Surface.t * (Side -> list SideSurface.t)) :=
  if BakedData.fluid_index model =? NULL_FLUID_INDEX then None
  else
    let id_buffer := replicate (3 * 3 * 3) AIR_ID in
    let center_loc := 13 in
    let id_buffer := <[Z.to_nat center_loc := model_id]> id_buffer in
    r ← generate_fluid_model K model id_buffer center_loc 1 3 (3 * 3) lib;
    Some (r.1.1, r.1.2).

(** [voxel_index] and [pos] of [generate_blocky_mesh], for the voxel at
    [(x, y, z)] of a block of the given size. *)
Definition voxel_address (block_size : Vector3i) (v : Vector3i) : Z :=
  let row_size := iy block_size in
  let deck_size := ix block_size * row_size in
  iy v + ix v * row_size + iz v * deck_size.

Definition voxel_position (v : Vector3i) : Vector3f :=
  mkVector3f (inject_Z (ix v - 1)) (inject_Z (iy v - 1)) (inject_Z (iz v - 1)).

(** The six calls of [append_seams]: the side, the jumps, the layer [z] and
    the two sizes handed to [append_side_seams]. *)
Definition seam_layers (size : Vector3i) : list (Side * Vector3i * Z * Z * Z) :=
  let jump := mkVector3i (iy size) 1 (ix size * iy size) in
  [ (SIDE_NEGATIVE_Z, jump, 0, ix size, iy size)
  ; (SIDE_POSITIVE_Z, jump, iz size - 1, ix size, iy size)
  ; (SIDE_NEGATIVE_X, jump_zyx jump, 0, iz size, iy size)
  ; (SIDE_POSITIVE_X, jump_zyx jump, ix size - 1, iz size, iy size)
  ; (SIDE_NEGATIVE_Y, jump_zxy jump, 0, iz size, ix size)
  ; (SIDE_POSITIVE_Y, jump_zxy jump, iy size - 1, iz size, ix size) ].

(** In [append_side_seams], the address at which [nv4] is read and the
    position [pos] handed to the surface loop. *)
Definition seam_inner_address (jump : Vector3i) (z : Z) (side : Side) (x y : Z) : Z :=
  let z_base := z * iz jump in
  let side_sign := get_side_sign side in
  let buffer_index := x * ix jump + y * iy jump + z_base in
  buffer_index - side_sign * iz jump.

Definition seam_position (z : Z) (side : Side) (x y : Z) : Vector3f :=
  let pad := 1 in
  let side_sign := get_side_sign side in
  side_to_block_coordinates
    (mkVector3f (inject_Z (x - pad)) (inject_Z (y - pad)) (inject_Z (z - (side_sign + 1))))
    side.

(** ** Definitions that follow the words of the specification *)

(** Zero surfaces and no collision geometry. *)
Definition output_is_empty (o : Output.t) : Prop :=
  Output.surfaces o = []
  /\ CollisionSurface.positions (Output.collision_surface o) = []
  /\ CollisionSurface.indices (Output.collision_surface o) = [].

(** Ambient occlusion as the specification words it (4.5), for the voxel at
    [voxel_index] and one of its sides. *)
Section OcclusionSpec.
Variable K : Constants.
Variable lib : Library.t.
Variable type_buffer : list Z.
Variables row_size deck_size voxel_index : Z.
Variable side : Side.

(** The neighbour at the given address offset contributes to AO. *)
Definition neighbor_contributes_to_ao (offset : Z) : bool :=
  match read type_buffer (voxel_index + offset) with
  | Some id => contributes_to_ao lib id
  | None => false
  end.

(** What the edge neighbour of the [j]-th edge of the side adds to corner [c]:
    one for each end of the edge that is [c], when the neighbour contributes. *)
Definition edge_contribution (c : Corner) (j : nat) : Z :=
  let edge := g_side_edges K side j in
  if neighbor_contributes_to_ao (edge_neighbor_lut row_size deck_size edge)
  then bool_to_uint8 (bool_decide (g_edge_corners K edge 0 = c))
       + bool_to_uint8 (bool_decide (g_edge_corners K edge 1 = c))
  else 0.

Fixpoint edge_sum (c : Corner) (js : list nat) : Z :=
  match js with
  | [] => 0
  | j :: js => edge_contribution c j + edge_sum c js
  end.


(** Step 3: a count of exactly 2 saturates to 3, any other count is
    incremented when the corner-diagonal neighbour contributes. *)
Definition spec_corner_shade (count : Z) (c : Corner) : Z :=
  if count =? 2 then 3
  else count + bool_to_uint8
                 (neighbor_contributes_to_ao (corner_neighbor_lut row_size deck_size c)).


(** Step 4: the shade of a vertex, the maximum over the four corners of the
    side; only the distance term is clamped. *)
Definition spec_shade_term (d : Q) (shaded_corner : Corner -> Z) (v : Vector3f) (j : nat) : Q :=
  let c := g_side_corners K side j in
  (d * inject_Z (shaded_corner c)
   * Qmax 0 (1 - distance_squared (g_corner_position K c) v))%Q.

Definition spec_vertex_shade (d : Q) (shaded_corner : Corner -> Z) (v : Vector3f) : Q :=
  Qmax (spec_shade_term d shaded_corner v 0)
    (Qmax (spec_shade_term d shaded_corner v 1)
       (Qmax (spec_shade_term d shaded_corner v 2) (spec_shade_term d shaded_corner v 3))).

End OcclusionSpec.


Definition vertex_count (p : Patch) : Z := Z.of_nat (length (patch_positions p)).

Fixpoint total_vertices (P : list Patch) : Z :=
  match P with
  | [] => 0
  | p :: P => vertex_count p + total_vertices P
  end.

(** The arrays of one material after the patches [P] were appended in order,
    each with its indices rebased by the number of vertices before it. *)
Fixpoint render (arrays : Arrays.t) (index_offset : Z) (P : list Patch) : Arrays.t :=
  match P with
  | [] => arrays
  | p :: P => render (append_to_arrays arrays index_offset p) (index_offset + vertex_count p) P
  end.

(** The same for the collision surface. *)
Fixpoint mirror (dst : CollisionSurface.t) (index_offset : Z) (P : list Patch)
    : CollisionSurface.t :=
  match P with
  | [] => dst
  | p :: P => mirror (append_to_collision dst index_offset p) (index_offset + vertex_count p) P
  end.

Definition of_material (m : nat) (P : list Patch) : list Patch :=
  filter (fun p => patch_material p = m) P.

Definition with_collision (P : list Patch) : list Patch :=
  filter (fun p => patch_collision p = true) P.

(** Well-formedness of a model with respect to a property of its surfaces and
    one of its side surfaces, cut-outs included. *)
Definition model_ok (SF : Surface.t -> Prop) (SS : SideSurface.t -> Prop)
    (voxel : BakedData.t) : Prop :=
  Forall SF (Model.surfaces (BakedData.model voxel))
  /\ (forall side, Forall SS (Model.sides_surfaces (BakedData.model voxel) side))
  /\ (forall side shape cut,
        Model.cutout_side_surfaces (BakedData.model voxel) side !! shape = Some cut ->
        Forall SS cut).

(** The identifiers [build] meshes, when it gets as far as meshing. *)
Definition model_ids (voxels : VoxelBuffer.t) : option (list Z) :=
  match VoxelBuffer.get_channel_compression voxels,
        VoxelBuffer.get_channel_as_bytes_read_only voxels,
        VoxelBuffer.get_channel_depth voxels with
  | COMPRESSION_NONE, Some raw_channel, DEPTH_8_BIT => Some (as_uint8 raw_channel)
  | COMPRESSION_NONE, Some raw_channel, DEPTH_16_BIT => Some (as_uint16 raw_channel)
  | _, _, _ => None
  end.

(** All the surfaces a build emits: those of the main pass, then those of the
    seam pass when [lod_index > 0]. *)
Definition build_patches (K : Constants) (params : Parameters.t) (lib : Library.t)
    (model_ids : list Z) (block_size : Vector3i) (lod_index : Z) : option (list Patch) :=
  P ← emitted_patches K model_ids block_size lib (Parameters.bake_occlusion params)
         (build_occlusion_darkness params);
  if 0 <? lod_index then
    Pseam ← emitted_seam_patches K model_ids block_size lib;
    Some (P ++ Pseam)
  else Some P.

(** The scaling of the end of [build]. *)
Definition lod_scaled_arrays (lod_index : Z) (arrays : Arrays.t) : Arrays.t :=
  if 0 <? lod_index
  then default arrays ((fun s => scale_arrays s arrays) <$> lod_scale lod_index)
  else arrays.

Definition lod_scaled_collision (lod_index : Z) (c : CollisionSurface.t) : CollisionSurface.t :=
  if 0 <? lod_index
  then default c ((fun s => scale_collision s c) <$> lod_scale lod_index)
  else c.


(** Tangents are absent ([with_tangents = false]) or four floats per vertex. *)
Definition tangent_arity (with_tangents : bool) (tangents positions : nat) : Prop :=
  if with_tangents then tangents = (4 * positions)%nat else tangents = 0%nat.

Definition side_surface_arity (b : bool) (s : SideSurface.t) : Prop :=
  tangent_arity b (length (SideSurface.tangents s)) (length (SideSurface.positions s)).

Definition surface_arity (b : bool) (s : Surface.t) : Prop :=
  tangent_arity b (length (Surface.tangents s)) (length (Surface.positions s)).

Definition fluid_surface_arity (b : bool) (s : FluidSurface.t) : Prop :=
  tangent_arity b (length (FluidSurface.tangents s)) (length (FluidSurface.positions s)).

Definition patch_arity (b : bool) (p : Patch) : Prop :=
  tangent_arity b (length (patch_tangents p)) (length (patch_positions p)).

Definition arrays_arity (b : bool) (a : Arrays.t) : Prop :=
  tangent_arity b (length (Arrays.tangents a)) (length (Arrays.positions a)).

(** A library baked with tangents everywhere, or without tangents anywhere:
    every surface and side surface of every model (cut-outs included) and
    every side of every fluid. *)
Definition uniform_tangents (b : bool) (lib : Library.t) : Prop :=
  Forall (model_ok (surface_arity b) (side_surface_arity b)) (Library.models lib)
  /\ Forall (fun fluid => forall side, fluid_surface_arity b (Fluid.side_surfaces fluid side))
            (Library.fluids lib).

(** The tangent arity of the specification (8.4), for one build. *)
Definition tangents_absent_or_complete (K : Constants) (p : Parameters.t)
    (cache : list Arrays.t) (output : Output.t) (input : Input.t) : Prop :=
  forall output' arrays' errors,
    build K p cache output input = Some (output', arrays', errors) ->
    Forall (fun a => length (Arrays.tangents a) = 0%nat
                     \/ length (Arrays.tangents a) = (4 * length (Arrays.positions a))%nat)
           arrays'.

(** An [emit] that keeps nothing. *)
Definition discard (_ : unit) (_ : Patch) : option unit := Some tt.

(** One normal, UV and colour per vertex. *)
Definition patch_aligned (p : Patch) : Prop :=
  length (patch_normals p) = length (patch_positions p)
  /\ length (patch_uvs p) = length (patch_positions p)
  /\ length (patch_colors p) = length (patch_positions p).

Definition arrays_aligned (a : Arrays.t) : Prop :=
  length (Arrays.normals a) = length (Arrays.positions a)
  /\ length (Arrays.uvs a) = length (Arrays.positions a)
  /\ length (Arrays.colors a) = length (Arrays.positions a).

Definition mesh_arrays_aligned (a : MeshArrays.t) : Prop :=
  length (MeshArrays.normal a) = length (MeshArrays.vertex a)
  /\ length (MeshArrays.tex_uv a) = length (MeshArrays.vertex a)
  /\ length (MeshArrays.color a) = length (MeshArrays.vertex a).

(** A triangle list over [vertex_count] vertices: three indices per triangle,
    each the number of a vertex. *)
Definition triangles_within (indices : list Z) (vertex_count : nat) : Prop :=
  Forall (fun i => 0 <= i < Z.of_nat vertex_count) indices
  /\ (length indices mod 3 = 0)%nat.

Definition surface_triangles (s : Surface.t) : Prop :=
  triangles_within (Surface.indices s) (length (Surface.positions s)).

Definition side_surface_triangles (s : SideSurface.t) : Prop :=
  triangles_within (SideSurface.indices s) (length (SideSurface.positions s)).

Definition fluid_surface_triangles (s : FluidSurface.t) : Prop :=
  triangles_within (FluidSurface.indices s) (length (FluidSurface.positions s)).

Definition patch_triangles (p : Patch) : Prop :=
  triangles_within (patch_indices p) (length (patch_positions p)).

Definition arrays_triangles (a : Arrays.t) : Prop :=
  triangles_within (Arrays.indices a) (length (Arrays.positions a)).

(** A library all of whose baked surfaces (surfaces, side surfaces, cut-outs,
    fluid sides) are triangle lists over their own vertices. *)
Definition triangle_library (lib : Library.t) : Prop :=
  Forall (model_ok surface_triangles side_surface_triangles) (Library.models lib)
  /\ Forall (fun fluid => forall side, fluid_surface_triangles (Fluid.side_surfaces fluid side))
            (Library.fluids lib).

(** The materials that have vertices, and the output surfaces made of them. *)
Definition has_vertices (arrays_per_material : list Arrays.t) (material_index : nat) : bool :=
  match arrays_per_material !! material_index with
  | Some arrays => negb (bool_decide (Arrays.positions arrays = []))
  | None => false
  end.

Definition packaged (arrays_per_material : list Arrays.t) (material_count : nat)
    : list OutputSurface.t :=
  omap (fun material_index =>
          arrays ← arrays_per_material !! material_index;
          if bool_decide (Arrays.positions arrays = []) then None
          else Some (OutputSurface.mk (mesh_arrays_of arrays) material_index))
       (seq 0 material_count).

(** Every array of [a] is the beginning of the same array of [a']. *)
Definition arrays_extend (a a' : Arrays.t) : Prop :=
  Arrays.positions a `prefix_of` Arrays.positions a'
  /\ Arrays.normals a `prefix_of` Arrays.normals a'
  /\ Arrays.uvs a `prefix_of` Arrays.uvs a'
  /\ Arrays.colors a `prefix_of` Arrays.colors a'
  /\ Arrays.indices a `prefix_of` Arrays.indices a'
  /\ Arrays.tangents a `prefix_of` Arrays.tangents a'.

Definition collision_extends (c c' : CollisionSurface.t) : Prop :=
  CollisionSurface.positions c `prefix_of` CollisionSurface.positions c'
  /\ CollisionSurface.indices c `prefix_of` CollisionSurface.indices c'.

(** The state of the main pass with [extra] more arrays per material, all
    empty. *)
Definition longer (extra : nat) (s t : MeshState) : Prop :=
  ms_out_arrays_per_material t
  = ms_out_arrays_per_material s ++ replicate extra Arrays.clear
  /\ ms_index_offsets t = ms_index_offsets s ++ replicate extra 0
  /\ ms_collision_surface t = ms_collision_surface s
  /\ ms_collision_surface_index_offset t = ms_collision_surface_index_offset s.

(** The flow state of the reverse direction. *)
Definition opposite_flow (f : FlowState) : FlowState :=
  match f with
  | FLOW_STRAIGHT_POSITIVE_X => FLOW_STRAIGHT_NEGATIVE_X
  | FLOW_STRAIGHT_NEGATIVE_X => FLOW_STRAIGHT_POSITIVE_X
  | FLOW_STRAIGHT_POSITIVE_Z => FLOW_STRAIGHT_NEGATIVE_Z
  | FLOW_STRAIGHT_NEGATIVE_Z => FLOW_STRAIGHT_POSITIVE_Z
  | FLOW_DIAGONAL_POSITIVE_X_POSITIVE_Z => FLOW_DIAGONAL_NEGATIVE_X_NEGATIVE_Z
  | FLOW_DIAGONAL_POSITIVE_X_NEGATIVE_Z => FLOW_DIAGONAL_NEGATIVE_X_POSITIVE_Z
  | FLOW_DIAGONAL_NEGATIVE_X_POSITIVE_Z => FLOW_DIAGONAL_POSITIVE_X_NEGATIVE_Z
  | FLOW_DIAGONAL_NEGATIVE_X_NEGATIVE_Z => FLOW_DIAGONAL_POSITIVE_X_POSITIVE_Z
  | FLOW_IDLE => FLOW_IDLE
  end.

(** A level sampled for a neighbour is 0 or the level of a model of the same
    fluid. *)
Definition sampled_level (lib : Library.t) (voxel : BakedData.t) (level : Z) : Prop :=
  level = 0
  \/ exists nm, nm ∈ Library.models lib
                /\ BakedData.fluid_index nm = BakedData.fluid_index voxel
                /\ BakedData.fluid_level nm = level.

(** The x and z of the vertices, which no fluid voxel changes. *)
Definition footprint (positions : list Vector3f) : list (Q * Q) :=
  map (fun v => (v3x v, v3z v)) positions.

(** The UV of every vertex of a side of a fluid voxel other than its top: the
    axis of the side, and a flow that is idle at the bottom and goes along +z
    on the lateral sides. *)
Definition fluid_side_uv (K : Constants) (side : Side) : Vector2f :=
  match side with
  | SIDE_NEGATIVE_X | SIDE_POSITIVE_X => uv_of K AXIS_X FLOW_STRAIGHT_POSITIVE_Z
  | SIDE_NEGATIVE_Z | SIDE_POSITIVE_Z => uv_of K AXIS_Z FLOW_STRAIGHT_POSITIVE_Z
  | SIDE_NEGATIVE_Y | SIDE_POSITIVE_Y => uv_of K AXIS_Y FLOW_IDLE
  end.

(** The voxel above is a model of the same fluid. *)
Definition covered_by (lib : Library.t) (voxel : BakedData.t) (top_voxel_id : Z) : bool :=
  match get_model lib top_voxel_id with
  | Some top_model => BakedData.fluid_index top_model =? BakedData.fluid_index voxel
  | None => false
  end.

(** A voxel the main pass meshes: not in the padding. *)
Definition inner_voxel (block_size : Vector3i) (v : Vector3i) : Prop :=
  1 <= ix v < ix block_size - 1
  /\ 1 <= iy v < iy block_size - 1
  /\ 1 <= iz v < iz block_size - 1.

(** How many ends of the edges [js] of a side are the corner [c]. *)
Fixpoint edge_ends (K : Constants) (side : Side) (c : Corner) (js : list nat) : Z :=
  match js with
  | [] => 0
  | j :: js =>
      bool_to_uint8 (bool_decide (g_edge_corners K (g_side_edges K side j) 0 = c))
      + bool_to_uint8 (bool_decide (g_edge_corners K (g_side_edges K side j) 1 = c))
      + edge_ends K side c js
  end.

(** What the mesher copies out of a baked surface is there: [vertex_count * 4]
    tangent numbers when there are tangents at all, one UV (and, for an inner
    surface, one normal) for each position. *)
Definition tangents_fit (tangents : list Q) (vertex_count : nat) : Prop :=
  tangents = [] \/ (vertex_count * 4 <= length tangents)%nat.

Definition side_surface_fits (s : SideSurface.t) : Prop :=
  (length (SideSurface.positions s) <= length (SideSurface.uvs s))%nat
  /\ tangents_fit (SideSurface.tangents s) (length (SideSurface.positions s)).

Definition surface_fits (material_count : nat) (s : Surface.t) : Prop :=
  (Surface.material_id s < material_count)%nat
  /\ (length (Surface.positions s) <= length (Surface.normals s))%nat
  /\ (length (Surface.positions s) <= length (Surface.uvs s))%nat
  /\ tangents_fit (Surface.tangents s) (length (Surface.positions s)).

(** The first [n] slots of [l] are there and satisfy [P]. *)
Definition slots {A : Type} (P : A -> Prop) (n : nat) (l : list A) : Prop :=
  forall i, (i < n)%nat -> exists a, l !! i = Some a /\ P a.

(** A fluid the mesher can generate a model from: a material of the library,
    four vertices to raise on each lateral side, a top of four vertices and of
    two triangles. *)
Definition fluid_fits (material_count : nat) (fluid : Fluid.t) : Prop :=
  (Fluid.material_id fluid < material_count)%nat
  /\ (forall side,
        tangents_fit (FluidSurface.tangents (Fluid.side_surfaces fluid side))
          (length (FluidSurface.positions (Fluid.side_surfaces fluid side))))
  /\ (forall side, side <> SIDE_NEGATIVE_Y -> side <> SIDE_POSITIVE_Y ->
        (4 <= length (FluidSurface.positions (Fluid.side_surfaces fluid side)))%nat)
  /\ length (FluidSurface.positions (Fluid.side_surfaces fluid SIDE_POSITIVE_Y)) = 4%nat
  /\ (5 <= length (FluidSurface.indices (Fluid.side_surfaces fluid SIDE_POSITIVE_Y)))%nat.

(** The number of surfaces the mesher goes through for a voxel: the model's
    own, or one for a fluid. *)
Definition meshed_surface_count (voxel : BakedData.t) : nat :=
  if BakedData.fluid_index voxel =? NULL_FLUID_INDEX
  then Model.surface_count (BakedData.model voxel) else 1%nat.

Definition model_fits (lib : Library.t) (voxel : BakedData.t) : Prop :=
  let model := BakedData.model voxel in
  let material_count := Library.indexed_materials_count lib in
  let n := meshed_surface_count voxel in
  slots (surface_fits material_count) n (Model.surfaces model)
  /\ (BakedData.fluid_index voxel = NULL_FLUID_INDEX ->
      forall side, slots side_surface_fits n (Model.sides_surfaces model side))
  /\ (forall side shape cut,
        Model.cutout_side_surfaces model side !! shape = Some cut ->
        slots side_surface_fits n cut)
  /\ (BakedData.fluid_index voxel <> NULL_FLUID_INDEX ->
      exists fluid,
        Library.fluids lib !! Z.to_nat (BakedData.fluid_index voxel) = Some fluid
        /\ fluid_fits material_count fluid).

(** Every model but the one of air, which is never meshed, fits. *)
Definition library_fits (lib : Library.t) : Prop :=
  forall id voxel, id <> AIR_ID -> get_model lib id = Some voxel -> model_fits lib voxel.

(** A voxel of the block that is not in its padding, and the offset to one of
    the 26 voxels around it, or to itself. *)
Definition inner (size : Vector3i) (x y z : Z) : Prop :=
  1 <= x < ix size - 1 /\ 1 <= y < iy size - 1 /\ 1 <= z < iz size - 1.

Definition neighbor_offset (size : Vector3i) (o : Z) : Prop :=
  exists dx dy dz,
    -1 <= dx <= 1 /\ -1 <= dy <= 1 /\ -1 <= dz <= 1
    /\ o = dy + dx * iy size + dz * (ix size * iy size).

(** ** A concrete cube and a small library, to run the mesher on *)

(** cube_tables.h is not among the sources.  These tables are the unit cube
    the names of the enumerators describe: left is +x, top is +y, front is
    +z, corners are in {0,1}^3 (spec 4.1), an edge joins the two corners that
    carry its two names, a side has the four edges and corners that carry its
    name. *)
Definition cube_side_normals (s : Side) : Vector3i :=
  match s with
  | SIDE_NEGATIVE_X => mkVector3i (-1) 0 0 | SIDE_POSITIVE_X => mkVector3i 1 0 0
  | SIDE_NEGATIVE_Y => mkVector3i 0 (-1) 0 | SIDE_POSITIVE_Y => mkVector3i 0 1 0
  | SIDE_NEGATIVE_Z => mkVector3i 0 0 (-1) | SIDE_POSITIVE_Z => mkVector3i 0 0 1
  end.

Definition cube_opposite_side (s : Side) : Side :=
  match s with
  | SIDE_NEGATIVE_X => SIDE_POSITIVE_X | SIDE_POSITIVE_X => SIDE_NEGATIVE_X
  | SIDE_NEGATIVE_Y => SIDE_POSITIVE_Y | SIDE_POSITIVE_Y => SIDE_NEGATIVE_Y
  | SIDE_NEGATIVE_Z => SIDE_POSITIVE_Z | SIDE_POSITIVE_Z => SIDE_NEGATIVE_Z
  end.

Definition cube_side_edges (s : Side) (j : nat) : Edge :=
  match s with
  | SIDE_POSITIVE_X =>
      nth j [EDGE_BOTTOM_LEFT; EDGE_FRONT_LEFT; EDGE_TOP_LEFT; EDGE_BACK_LEFT] EDGE_BOTTOM_LEFT
  | SIDE_NEGATIVE_X =>
      nth j [EDGE_BOTTOM_RIGHT; EDGE_FRONT_RIGHT; EDGE_TOP_RIGHT; EDGE_BACK_RIGHT] EDGE_BOTTOM_RIGHT
  | SIDE_NEGATIVE_Y =>
      nth j [EDGE_BOTTOM_BACK; EDGE_BOTTOM_RIGHT; EDGE_BOTTOM_FRONT; EDGE_BOTTOM_LEFT] EDGE_BOTTOM_BACK
  | SIDE_POSITIVE_Y =>
      nth j [EDGE_TOP_BACK; EDGE_TOP_RIGHT; EDGE_TOP_FRONT; EDGE_TOP_LEFT] EDGE_TOP_BACK
  | SIDE_NEGATIVE_Z =>
      nth j [EDGE_BOTTOM_BACK; EDGE_BACK_RIGHT; EDGE_TOP_BACK; EDGE_BACK_LEFT] EDGE_BOTTOM_BACK
  | SIDE_POSITIVE_Z =>
      nth j [EDGE_BOTTOM_FRONT; EDGE_FRONT_RIGHT; EDGE_TOP_FRONT; EDGE_FRONT_LEFT] EDGE_BOTTOM_FRONT
  end.

Definition cube_side_corners (s : Side) (j : nat) : Corner :=
  match s with
  | SIDE_POSITIVE_X =>
      nth j [CORNER_BOTTOM_BACK_LEFT; CORNER_BOTTOM_FRONT_LEFT;
             CORNER_TOP_FRONT_LEFT; CORNER_TOP_BACK_LEFT] CORNER_BOTTOM_BACK_LEFT
  | SIDE_NEGATIVE_X =>
      nth j [CORNER_BOTTOM_BACK_RIGHT; CORNER_BOTTOM_FRONT_RIGHT;
             CORNER_TOP_FRONT_RIGHT; CORNER_TOP_BACK_RIGHT] CORNER_BOTTOM_BACK_RIGHT
  | SIDE_NEGATIVE_Y =>
      nth j [CORNER_BOTTOM_BACK_LEFT; CORNER_BOTTOM_BACK_RIGHT;
             CORNER_BOTTOM_FRONT_RIGHT; CORNER_BOTTOM_FRONT_LEFT] CORNER_BOTTOM_BACK_LEFT
  | SIDE_POSITIVE_Y =>
      nth j [CORNER_TOP_BACK_LEFT; CORNER_TOP_BACK_RIGHT;
             CORNER_TOP_FRONT_RIGHT; CORNER_TOP_FRONT_LEFT] CORNER_TOP_BACK_LEFT
  | SIDE_NEGATIVE_Z =>
      nth j [CORNER_BOTTOM_BACK_LEFT; CORNER_BOTTOM_BACK_RIGHT;
             CORNER_TOP_BACK_RIGHT; CORNER_TOP_BACK_LEFT] CORNER_BOTTOM_BACK_LEFT
  | SIDE_POSITIVE_Z =>
      nth j [CORNER_BOTTOM_FRONT_LEFT; CORNER_BOTTOM_FRONT_RIGHT;
             CORNER_TOP_FRONT_RIGHT; CORNER_TOP_FRONT_LEFT] CORNER_BOTTOM_FRONT_LEFT
  end.

Definition cube_edge_corners (e : Edge) (j : nat) : Corner :=
  let ends :=
    match e with
    | EDGE_BOTTOM_BACK => (CORNER_BOTTOM_BACK_LEFT, CORNER_BOTTOM_BACK_RIGHT)
    | EDGE_BOTTOM_RIGHT => (CORNER_BOTTOM_BACK_RIGHT, CORNER_BOTTOM_FRONT_RIGHT)
    | EDGE_BOTTOM_FRONT => (CORNER_BOTTOM_FRONT_RIGHT, CORNER_BOTTOM_FRONT_LEFT)
    | EDGE_BOTTOM_LEFT => (CORNER_BOTTOM_FRONT_LEFT, CORNER_BOTTOM_BACK_LEFT)
    | EDGE_BACK_LEFT => (CORNER_BOTTOM_BACK_LEFT, CORNER_TOP_BACK_LEFT)
    | EDGE_BACK_RIGHT => (CORNER_BOTTOM_BACK_RIGHT, CORNER_TOP_BACK_RIGHT)
    | EDGE_FRONT_RIGHT => (CORNER_BOTTOM_FRONT_RIGHT, CORNER_TOP_FRONT_RIGHT)
    | EDGE_FRONT_LEFT => (CORNER_BOTTOM_FRONT_LEFT, CORNER_TOP_FRONT_LEFT)
    | EDGE_TOP_BACK => (CORNER_TOP_BACK_LEFT, CORNER_TOP_BACK_RIGHT)
    | EDGE_TOP_RIGHT => (CORNER_TOP_BACK_RIGHT, CORNER_TOP_FRONT_RIGHT)
    | EDGE_TOP_FRONT => (CORNER_TOP_FRONT_RIGHT, CORNER_TOP_FRONT_LEFT)
    | EDGE_TOP_LEFT => (CORNER_TOP_FRONT_LEFT, CORNER_TOP_BACK_LEFT)
    end in
  match j with O => ends.1 | _ => ends.2 end.

Definition cube_corner_position (c : Corner) : Vector3f :=
  match c with
  | CORNER_BOTTOM_BACK_LEFT => mkVector3f 1 0 0
  | CORNER_BOTTOM_BACK_RIGHT => mkVector3f 0 0 0
  | CORNER_BOTTOM_FRONT_RIGHT => mkVector3f 0 0 1
  | CORNER_BOTTOM_FRONT_LEFT => mkVector3f 1 0 1
  | CORNER_TOP_BACK_LEFT => mkVector3f 1 1 0
  | CORNER_TOP_BACK_RIGHT => mkVector3f 0 1 0
  | CORNER_TOP_FRONT_RIGHT => mkVector3f 0 1 1
  | CORNER_TOP_FRONT_LEFT => mkVector3f 1 1 1
  end.

Definition cube_flow_state_value (f : FlowState) : Z :=
  match f with
  | FLOW_STRAIGHT_POSITIVE_X => 0
  | FLOW_DIAGONAL_POSITIVE_X_NEGATIVE_Z => 1
  | FLOW_STRAIGHT_NEGATIVE_Z => 2
  | FLOW_DIAGONAL_NEGATIVE_X_NEGATIVE_Z => 3
  | FLOW_STRAIGHT_NEGATIVE_X => 4
  | FLOW_DIAGONAL_NEGATIVE_X_POSITIVE_Z => 5
  | FLOW_STRAIGHT_POSITIVE_Z => 6
  | FLOW_DIAGONAL_POSITIVE_X_POSITIVE_Z => 7
  | FLOW_IDLE => 8
  end.

Definition cube_axis_value (a : Axis) : Z :=
  match a with AXIS_X => 0 | AXIS_Y => 1 | AXIS_Z => 2 end.

Definition cube_constants : Constants :=
  mkConstants cube_side_normals cube_opposite_side cube_side_edges cube_side_corners
    cube_edge_corners cube_corner_position cube_flow_state_value cube_axis_value
    (1 # 16) (15 # 16).

Definition white : Color := mkColor 1 1 1 1.

(** The quad of one side of the unit cube. *)
Definition quad (s : Side) : SideSurface.t :=
  SideSurface.mk (map (fun j => cube_corner_position (cube_side_corners s j)) [0; 1; 2; 3]%nat)
    [mkVector2f 0 0; mkVector2f 1 0; mkVector2f 1 1; mkVector2f 0 1]
    [0; 2; 1; 0; 3; 2] [].

Definition no_surface (material_id : nat) (collision_enabled : bool) : Surface.t :=
  Surface.mk [] [] [] [] [] material_id collision_enabled.

(** Model 0, air: no geometry, culls nothing. *)
Definition air_model : BakedData.t :=
  BakedData.mk
    (Model.mk [no_surface 0 true; no_surface 0 true]
       (fun _ => [SideSurface.clear; SideSurface.clear]) 0 63 (fun _ => 0) (fun _ => ∅))
    white 0 false false false NULL_FLUID_INDEX 0.

(** Model 1, an opaque cube of material 0: one surface, six quads. *)
Definition cube_model : BakedData.t :=
  BakedData.mk
    (Model.mk [no_surface 0 true; no_surface 0 true]
       (fun s => [quad s; SideSurface.clear]) 1 0 (fun _ => 1) (fun _ => ∅))
    white 0 true true false NULL_FLUID_INDEX 0.

(** Side pattern 1 (a full square) is covered by side pattern 1 only. *)
Definition cube_library : Library.t :=
  Library.mk [air_model; cube_model] [] 1
    (fun pa pb => (pa =? 1) && (pb =? 1)).

(** A raw 8-bit buffer of the given size: [AIR_ID] everywhere except at the
    listed (x, y, z) positions. *)
Definition byte_of_id (id : Z) : byte := default "000"%byte (Byte.of_N (Z.to_N id)).

Definition voxel_buffer (size : Vector3i) (cells : list (Z * Z * Z * Z)) : VoxelBuffer.t :=
  let bytes :=
    foldl (fun bytes '(x, y, z, id) =>
             <[Z.to_nat (y + x * iy size + z * ix size * iy size) := byte_of_id id]> bytes)
          (replicate (Z.to_nat (ix size * iy size * iz size)) (byte_of_id AIR_ID)) cells in
  VoxelBuffer.mk size COMPRESSION_NONE DEPTH_8_BIT (Some bytes).

Definition cube_parameters : Parameters.t := Parameters.mk (Some cube_library) false (4 # 5).

(** Buffers that fail the checks of the build. *)
Definition uniform_buffer : VoxelBuffer.t :=
  VoxelBuffer.mk (mkVector3i 3 3 3) COMPRESSION_UNIFORM DEPTH_8_BIT None.
Definition other_buffer : VoxelBuffer.t :=
  VoxelBuffer.mk (mkVector3i 3 3 3) COMPRESSION_OTHER DEPTH_8_BIT None.
Definition unreadable_buffer : VoxelBuffer.t :=
  VoxelBuffer.mk (mkVector3i 3 3 3) COMPRESSION_NONE DEPTH_8_BIT None.
Definition deep_buffer : VoxelBuffer.t :=
  VoxelBuffer.mk (mkVector3i 3 3 3) COMPRESSION_NONE DEPTH_32_BIT (Some []).

(** A 4x4x4 block with a cube at (1,1,1) and two cubes in front of its +z
    face, at (2,1,2) and (1,2,2). *)
Definition ao_buffer : list Z :=
  as_uint8 (default [] (VoxelBuffer.get_channel_as_bytes_read_only
     (voxel_buffer (mkVector3i 4 4 4) [(1, 1, 1, 1); (2, 1, 2, 1); (1, 2, 2, 1)]))).

(** The corner counts of the +z face of the cube at (1,1,1) of [ao_buffer]. *)
Definition ao_shaded_corner : ShadedCorners :=
  default (fun _ => 0)
    (bake_shaded_corner cube_constants cube_library ao_buffer 4 16 true 21 SIDE_POSITIVE_Z).

(** A 3x3x3 block with a cube at (1,1,1) and a cube in the padding on each
    side of it along x. *)
Definition seam_buffer : VoxelBuffer.t :=
  voxel_buffer (mkVector3i 3 3 3) [(1, 1, 1, 1); (0, 1, 1, 1); (2, 1, 1, 1)].

(** A cube whose -x side carries tangents and whose other sides do not. *)
Definition half_tangent_model : BakedData.t :=
  BakedData.mk
    (Model.mk [no_surface 0 true; no_surface 0 true]
       (fun s => [ match s with
                   | SIDE_NEGATIVE_X =>
                       SideSurface.mk (SideSurface.positions (quad s)) (SideSurface.uvs (quad s))
                         (SideSurface.indices (quad s)) (replicate 16 1%Q)
                   | _ => quad s
                   end
                 ; SideSurface.clear ])
       1 0 (fun _ => 1) (fun _ => ∅))
    white 0 true true false NULL_FLUID_INDEX 0.

Definition half_tangent_parameters : Parameters.t :=
  Parameters.mk
    (Some (Library.mk [air_model; half_tangent_model] [] 1 (fun pa pb => (pa =? 1) && (pb =? 1))))
    false (4 # 5).

(** A 3x3x3 block with a cube in the padding at (0,1,1) and the given
    identifier at the inner voxel (1,1,1) behind it. *)
Definition x_seam_buffer (inner : Z) : VoxelBuffer.t :=
  voxel_buffer (mkVector3i 3 3 3) [(0, 1, 1, 1); (1, 1, 1, inner)].

(** A 3x3x3 block with a cube in the padding at (1,1,0) and the given
    identifier at the inner voxel (1,1,1) behind it. *)
Definition z_seam_buffer (inner : Z) : VoxelBuffer.t :=
  voxel_buffer (mkVector3i 3 3 3) [(1, 1, 0, 1); (1, 1, 1, inner)].

(** A side surface that differs from [quad] by its UVs. *)
Definition other_quad (s : Side) : SideSurface.t :=
  SideSurface.mk (SideSurface.positions (quad s))
    (replicate 4 (mkVector2f (1 # 2) (1 # 2))) (SideSurface.indices (quad s)) [].

(** A cube with two surfaces, of materials 0 and 1: each side has [quad] for
    the first and [other_quad] for the second. *)
Definition two_surface_model : BakedData.t :=
  BakedData.mk
    (Model.mk [no_surface 0 true; no_surface 1 true]
       (fun s => [quad s; other_quad s]) 2 0 (fun _ => 1) (fun _ => ∅))
    white 0 true true false NULL_FLUID_INDEX 0.

(** A fluid of four levels whose sides are the quads of the unit cube, and
    its models: model 2 is the fluid at level 1, model 3 at level 3. *)
Definition water_fluid : Fluid.t :=
  Fluid.mk (fun s => FluidSurface.mk (SideSurface.positions (quad s)) [0; 2; 1; 0; 3; 2] [])
    0 4 false.

Definition water_model (level : Z) : BakedData.t :=
  BakedData.mk
    (Model.mk [no_surface 0 false; no_surface 0 false]
       (fun _ => [SideSurface.clear; SideSurface.clear]) 1 0 (fun _ => 2) (fun _ => ∅))
    white 1 true false false 0 level.

Definition water_library : Library.t :=
  Library.mk [air_model; cube_model; water_model 1; water_model 3] [water_fluid] 1
    (fun pa pb => (pa =? 1) && (pb =? 1)).

(** A 3x3x3 block with the fluid at level 1 at (1,1,1) and at level 3 next to
    it at (0,1,1). *)
Definition water_buffer : list Z :=
  as_uint8 (default [] (VoxelBuffer.get_channel_as_bytes_read_only
     (voxel_buffer (mkVector3i 3 3 3) [(1, 1, 1, 2); (0, 1, 1, 3)]))).


(** A 4x3x3 block with the fluid at level 1 at (1,1,1), the fluid at level 3
    in the padding at (0,1,1) and a cube at (2,1,1). *)
Definition pond_buffer : VoxelBuffer.t :=
  voxel_buffer (mkVector3i 4 3 3) [(1, 1, 1, 2); (0, 1, 1, 3); (2, 1, 1, 1)].

Definition water_parameters : Parameters.t := Parameters.mk (Some water_library) true (4 # 5).

(** * Properties *)

(** ** Fluid corner levels, heights and flow state *)


Lemma set_position_y_lookup positions i y positions' :
  set_position_y positions i y = Some positions' ->
  (v3y <$> positions' !! i) = Some y
  /\ forall j, j <> i -> positions' !! j = positions !! j.
Proof.
  unfold set_position_y. intros H. apply bind_Some in H as (q & Hq & H).
  injection H as <-. split.
  - rewrite list_lookup_insert_eq by (eapply lookup_lt_Some; eauto). reflexivity.
  - intros j Hj. now rewrite list_lookup_insert_ne by congruence.
Qed.




(** C8. The flow state is the entry of the 16-entry table at the 4-bit mask
    of the corners that are at the minimum level, bit 3 for corner 0 down to
    bit 0 for corner 3; the mask is never 0, and the entries 0000 (0), 0101 (5),
    1010 (10) and 1111 (15) are idle. *)
Theorem flow_state_is_table_lookup (c0 c1 c2 c3 : Z) :
  let min_level := Z.min c0 (Z.min c1 (Z.min c2 c3)) in
  let bit (c : Z) : Z := if c =? min_level then 1 else 0 in
  let mask := 8 * bit c0 + 4 * bit c1 + 2 * bit c2 + bit c3 in
  get_fluid_flow_state_from_corner_levels [c0; c1; c2; c3]
    = g_min_corners_mask_to_flowstate !!! Z.to_nat mask
  /\ Z.testbit mask 3 = (c0 =? min_level)
  /\ Z.testbit mask 2 = (c1 =? min_level)
  /\ Z.testbit mask 1 = (c2 =? min_level)
  /\ Z.testbit mask 0 = (c3 =? min_level)
  /\ 0 < mask < 16
  /\ g_min_corners_mask_to_flowstate !! 0%nat = Some FLOW_IDLE
  /\ g_min_corners_mask_to_flowstate !! 5%nat = Some FLOW_IDLE
  /\ g_min_corners_mask_to_flowstate !! 10%nat = Some FLOW_IDLE
  /\ g_min_corners_mask_to_flowstate !! 15%nat = Some FLOW_IDLE.
Proof.
  intros min_level bit mask.
  assert (Hmin : min4 c0 c1 c2 c3 = min_level) by (unfold min4, min_level; lia).
  unfold get_fluid_flow_state_from_corner_levels, min_corners_mask.
  cbn [lookup_total list_lookup_total]. rewrite Hmin.
  assert (Hsome : (c0 =? min_level) || (c1 =? min_level)
                  || (c2 =? min_level) || (c3 =? min_level) = true).
  { unfold min_level.
    destruct (Z.eqb_spec c0 (Z.min c0 (Z.min c1 (Z.min c2 c3)))); [reflexivity|].
    destruct (Z.eqb_spec c1 (Z.min c0 (Z.min c1 (Z.min c2 c3)))); [reflexivity|].
    destruct (Z.eqb_spec c2 (Z.min c0 (Z.min c1 (Z.min c2 c3)))); [reflexivity|].
    destruct (Z.eqb_spec c3 (Z.min c0 (Z.min c1 (Z.min c2 c3)))); [reflexivity|].
    lia. }
  unfold mask, bit.
  destruct (c0 =? min_level), (c1 =? min_level), (c2 =? min_level), (c3 =? min_level);
    try discriminate Hsome;
    (repeat split; try reflexivity; lia).
Qed.

(** The UVs of the top face of a fluid voxel whose top is not covered carry
    the flow state of the corner levels of the sampled neighbourhood. *)
Lemma fluid_top_carries_the_flow_state K voxel type_buffer voxel_index
    y_jump_size x_jump_size z_jump_size lib r top_voxel_id :
  read type_buffer (voxel_index + y_jump_size) = Some top_voxel_id ->
  (forall top_model, get_model lib top_voxel_id = Some top_model ->
                     BakedData.fluid_index top_model <> BakedData.fluid_index voxel) ->
  generate_fluid_model K voxel type_buffer voxel_index y_jump_size x_jump_size
    z_jump_size lib = Some r ->
  exists fluid sampled top,
    Library.fluids lib !! Z.to_nat (BakedData.fluid_index voxel) = Some fluid
    /\ foldM (sample_fluid_neighbor lib voxel fluid type_buffer voxel_index
                y_jump_size x_jump_size z_jump_size)
             (0%nat, replicate 9 0, 0) fluid_neighborhood = Some sampled
    /\ r.1.1 = [top]
    /\ Surface.uvs top
       = replicate 4 (uv_of K AXIS_Y
           (get_fluid_flow_state_from_corner_levels
              (get_corner_levels_from_fluid_levels sampled.1.2))).
Proof.
  intros Hread Hnot H. unfold generate_fluid_model in H.
  rewrite Hread in H. cbn [mbind option_bind] in H.
  apply bind_Some in H as (covered & Hcov & H).
  assert (covered = false) as ->.
  { destruct (has_model lib top_voxel_id); [|congruence].
    apply bind_Some in Hcov as (tm & Htm & Hcov). injection Hcov as <-.
    apply Z.eqb_neq. now apply Hnot. }
  apply bind_Some in H as (fluid & Hfluid & H).
  apply bind_Some in H as (sampled & Hsampled & H).
  apply bind_Some in H as (neg_x & _ & H).
  apply bind_Some in H as (pos_x & _ & H).
  apply bind_Some in H as (neg_z & _ & H).
  apply bind_Some in H as (pos_z & _ & H).
  apply bind_Some in H as (p0 & _ & H).
  apply bind_Some in H as (p1 & _ & H).
  apply bind_Some in H as (p2 & _ & H).
  apply bind_Some in H as (p3 & _ & H).
  apply bind_Some in H as (top_indices & _ & H).
  injection H as <-. cbn [fst snd].
  eexists fluid, sampled, _. split; [exact Hfluid|]. split; [exact Hsampled|].
  split; reflexivity.
Qed.

(** ** The occlusion darkness parameter *)

Lemma clamp_bounds (x lo hi : Q) : (lo <= hi)%Q -> (lo <= clamp x lo hi <= hi)%Q.
Proof.
  intros Hle. unfold clamp.
  destruct (Qle_bool lo x) eqn:H1.
  - destruct (Qle_bool x hi) eqn:H2.
    + split; now apply Qle_bool_iff.
    + split; [exact Hle | apply Qle_refl].
  - split; [apply Qle_refl | exact Hle].
Qed.

(** C10. [set_occlusion_darkness] stores [clamp(value, 0, 1)]: 0 for a value
    below 0, 1 for a value above 1 and the value itself in between; what
    [get_occlusion_darkness] returns afterwards, and the darkness a build then
    hands to the mesher, are in [0, 1]. *)
Theorem occlusion_darkness_is_clamped (p : Parameters.t) (value : Q) :
  let p' := set_occlusion_darkness p value in
  get_occlusion_darkness p' = clamp value 0 1
  /\ ((value < 0)%Q -> get_occlusion_darkness p' = 0%Q)
  /\ ((1 < value)%Q -> get_occlusion_darkness p' = 1%Q)
  /\ ((0 <= value <= 1)%Q -> get_occlusion_darkness p' = value)
  /\ (0 <= get_occlusion_darkness p' <= 1)%Q
  /\ (0 <= build_occlusion_darkness p' <= 1)%Q.
Proof.
  intros p'. unfold p', get_occlusion_darkness, set_occlusion_darkness. cbn.
  assert (Hb : (0 <= clamp value 0 1 <= 1)%Q) by (apply clamp_bounds; discriminate).
  repeat split; try apply Hb.
  - intros Hlt. unfold clamp.
    destruct (Qle_bool 0 value) eqn:H1; [|reflexivity].
    apply Qle_bool_iff in H1. exfalso. apply (Qlt_not_le _ _ Hlt H1).
  - intros Hlt. unfold clamp.
    destruct (Qle_bool 0 value) eqn:H1.
    + destruct (Qle_bool value 1) eqn:H2; [|reflexivity].
      apply Qle_bool_iff in H2. exfalso. apply (Qlt_not_le _ _ Hlt H2).
    + exfalso. assert (H0 : (0 <= value)%Q).
      { apply Qle_trans with 1%Q; [discriminate | now apply Qlt_le_weak]. }
      apply Qle_bool_iff in H0. congruence.
  - intros [H0 H1]. unfold clamp.
    apply Qle_bool_iff in H0. apply Qle_bool_iff in H1. now rewrite H0, H1.
  - unfold build_occlusion_darkness. cbn.
    destruct (Parameters.bake_occlusion p); [|apply Qle_refl].
    apply Qle_shift_div_l; [reflexivity|]. rewrite Qmult_0_l. apply Hb.
  - unfold build_occlusion_darkness. cbn.
    destruct (Parameters.bake_occlusion p); [|discriminate].
    apply Qle_shift_div_r; [reflexivity|].
    apply Qle_trans with 1%Q; [apply Hb | discriminate].
Qed.

Lemma occlusion_darkness_is_clamped_witness :
  get_occlusion_darkness (set_occlusion_darkness cube_parameters (-2)) = 0%Q
  /\ get_occlusion_darkness (set_occlusion_darkness cube_parameters 7) = 1%Q
  /\ get_occlusion_darkness (set_occlusion_darkness cube_parameters (1 # 2)) = (1 # 2)%Q.
Proof.
  split; [|split].
  - apply (occlusion_darkness_is_clamped cube_parameters (-2)). reflexivity.
  - apply (occlusion_darkness_is_clamped cube_parameters 7). reflexivity.
  - apply (occlusion_darkness_is_clamped cube_parameters (1 # 2)).
    split; discriminate.
Defined.

(** ** The failure paths of the build *)

(** C2. On each failure input the build returns (it has no other way out),
    leaves the output it was handed untouched, so a fresh output stays empty,
    and prints nothing for an absent library or a uniform channel, and exactly
    one error for another compression, an unreadable channel or a depth other
    than 8 or 16 bits.  The checks are made in this order, each case assumes
    that the checks before it passed. *)
Theorem build_failure_paths (K : Constants) (p : Parameters.t) (cache : list Arrays.t)
    (output : Output.t) (input : Input.t) :
  let voxels := Input.voxels input in
  let cleared := map (fun _ => Arrays.clear) cache in
  (Parameters.library p = None ->
     build K p cache output input = Some (output, cache, []))
  /\ (forall lib, Parameters.library p = Some lib ->
        VoxelBuffer.get_channel_compression voxels = COMPRESSION_UNIFORM ->
        build K p cache output input = Some (output, cleared, []))
  /\ (forall lib, Parameters.library p = Some lib ->
        VoxelBuffer.get_channel_compression voxels = COMPRESSION_OTHER ->
        build K p cache output input
        = Some (output, cleared,
                ["VoxelMesherBlocky received unsupported voxel compression"%string]))
  /\ (forall lib, Parameters.library p = Some lib ->
        VoxelBuffer.get_channel_compression voxels = COMPRESSION_NONE ->
        VoxelBuffer.get_channel_as_bytes_read_only voxels = None ->
        build K p cache output input
        = Some (output, cleared, ["Something wrong happened"%string]))
  /\ (forall lib raw_channel, Parameters.library p = Some lib ->
        VoxelBuffer.get_channel_compression voxels = COMPRESSION_NONE ->
        VoxelBuffer.get_channel_as_bytes_read_only voxels = Some raw_channel ->
        VoxelBuffer.get_channel_depth voxels <> DEPTH_8_BIT ->
        VoxelBuffer.get_channel_depth voxels <> DEPTH_16_BIT ->
        build K p cache output input
        = Some (output, grow cleared (Library.indexed_materials_count lib),
                ["Unsupported voxel depth"%string]))
  /\ (Parameters.library p = None
      \/ VoxelBuffer.get_channel_compression voxels <> COMPRESSION_NONE
      \/ VoxelBuffer.get_channel_as_bytes_read_only voxels = None
      \/ (VoxelBuffer.get_channel_depth voxels <> DEPTH_8_BIT
          /\ VoxelBuffer.get_channel_depth voxels <> DEPTH_16_BIT) ->
      output_is_empty output ->
      exists output' cache' errors,
        build K p cache output input = Some (output', cache', errors)
        /\ output_is_empty output' /\ (length errors <= 1)%nat).
Proof.
  intros voxels cleared. unfold build. fold voxels.
  repeat split.
  - intros ->. reflexivity.
  - intros lib -> ->. reflexivity.
  - intros lib -> ->. reflexivity.
  - intros lib -> -> ->. reflexivity.
  - intros lib raw -> -> -> H8 H16.
    destruct (VoxelBuffer.get_channel_depth voxels); try reflexivity; congruence.
  - intros Hfail Hempty.
    assert (Hret : forall (cache' : list Arrays.t) (errors : list string),
              (length errors <= 1)%nat ->
              exists output' cache'' errors',
                Some (output, cache', errors) = Some (output', cache'', errors')
                /\ output_is_empty output' /\ (length errors' <= 1)%nat)
      by (intros; eauto 10).
    destruct (Parameters.library p) as [lib|]; [|apply Hret; cbn; lia].
    destruct (VoxelBuffer.get_channel_compression voxels);
      [|apply Hret; cbn; lia|apply Hret; cbn; lia].
    destruct (VoxelBuffer.get_channel_as_bytes_read_only voxels) as [raw|];
      [|apply Hret; cbn; lia].
    destruct (VoxelBuffer.get_channel_depth voxels);
      [exfalso; destruct Hfail as [?|[?|[?|[? ?]]]]; congruence
      |exfalso; destruct Hfail as [?|[?|[?|[? ?]]]]; congruence
      |apply Hret; cbn; lia|apply Hret; cbn; lia].
Qed.

Lemma build_failure_paths_witness :
  build cube_constants (Parameters.mk None true 1) [] Output.empty
    (Input.mk deep_buffer 0 true) = Some (Output.empty, [], [])
  /\ build cube_constants cube_parameters [] Output.empty (Input.mk uniform_buffer 0 true)
     = Some (Output.empty, [], [])
  /\ build cube_constants cube_parameters [] Output.empty (Input.mk other_buffer 0 true)
     = Some (Output.empty, [],
             ["VoxelMesherBlocky received unsupported voxel compression"%string])
  /\ build cube_constants cube_parameters [] Output.empty (Input.mk unreadable_buffer 0 true)
     = Some (Output.empty, [], ["Something wrong happened"%string])
  /\ build cube_constants cube_parameters [] Output.empty (Input.mk deep_buffer 2 true)
     = Some (Output.empty, [Arrays.clear], ["Unsupported voxel depth"%string])
  /\ exists output' cache' errors,
       build cube_constants cube_parameters [] Output.empty (Input.mk deep_buffer 2 true)
       = Some (output', cache', errors)
       /\ output_is_empty output' /\ (length errors <= 1)%nat.
Proof.
  split; [|split; [|split; [|split; [|split]]]].
  - apply (build_failure_paths cube_constants (Parameters.mk None true 1) []
             Output.empty (Input.mk deep_buffer 0 true)). reflexivity.
  - apply (build_failure_paths cube_constants cube_parameters []
             Output.empty (Input.mk uniform_buffer 0 true)) with cube_library; reflexivity.
  - apply (build_failure_paths cube_constants cube_parameters []
             Output.empty (Input.mk other_buffer 0 true)) with cube_library; reflexivity.
  - apply (build_failure_paths cube_constants cube_parameters []
             Output.empty (Input.mk unreadable_buffer 0 true)) with cube_library; reflexivity.
  - apply (build_failure_paths cube_constants cube_parameters []
             Output.empty (Input.mk deep_buffer 2 true)) with (lib := cube_library) (raw_channel := []);
      try reflexivity; discriminate.
  - apply (build_failure_paths cube_constants cube_parameters []
             Output.empty (Input.mk deep_buffer 2 true)).
    + right; right; right. split; discriminate.
    + repeat split.
Defined.

(** ** Ambient occlusion *)

Lemma has_model_get_model (lib : Library.t) (id : Z) :
  has_model lib id = true <-> is_Some (get_model lib id).
Proof.
  unfold has_model, get_model. split.
  - intros H. apply andb_true_iff in H as [H0 H1].
    apply Z.leb_le in H0. apply Z.ltb_lt in H1.
    destruct (Z.ltb_spec id 0); [lia|].
    apply lookup_lt_is_Some. lia.
  - destruct (Z.ltb_spec id 0); [intros [? ?]; discriminate|].
    intros H'. apply lookup_lt_is_Some in H'.
    apply andb_true_iff. split; [apply Z.leb_le | apply Z.ltb_lt]; lia.
Qed.


Lemma incr_corner_spec (sc : ShadedCorners) (c c' : Corner) :
  -128 <= sc c < 127 ->
  incr_corner sc c c' = sc c' + bool_to_uint8 (bool_decide (c = c')).
Proof.
  intros Hb. unfold incr_corner, set_corner, wrap_int8.
  destruct (decide (c' = c)) as [->|Hne].
  - rewrite bool_decide_eq_true_2 by reflexivity. cbn.
    rewrite Z.mod_small by lia. lia.
  - rewrite bool_decide_eq_false_2 by congruence. cbn. lia.
Qed.

Section Occlusion.
Variable K : Constants.
Variable lib : Library.t.
Variable type_buffer : list Z.
Variables row_size deck_size voxel_index : Z.
Variable side : Side.

Local Abbreviation esum := (edge_sum K lib type_buffer row_size deck_size voxel_index side).
Local Abbreviation contribution :=
  (edge_contribution K lib type_buffer row_size deck_size voxel_index side).

Lemma edge_contribution_bounds (c : Corner) (j : nat) : 0 <= contribution c j <= 2.
Proof.
  unfold edge_contribution.
  destruct (neighbor_contributes_to_ao _ _ _ _); [|lia].
  do 2 destruct (bool_decide _); cbn; lia.
Qed.

Lemma shade_edge_spec (sc sc' : ShadedCorners) (j : nat) :
  (forall c, 0 <= sc c <= 125) ->
  shade_edge K lib type_buffer row_size deck_size voxel_index side sc j = Some sc' ->
  forall c, sc' c = sc c + contribution c j.
Proof.
  intros Hb H c. unfold shade_edge in H.
  apply bind_Some in H as (id & Hid & H). injection H as <-.
  unfold edge_contribution, neighbor_contributes_to_ao. rewrite Hid.
  destruct (contributes_to_ao lib id); [|lia].
  rewrite incr_corner_spec.
  - rewrite incr_corner_spec by (specialize (Hb (g_edge_corners K (g_side_edges K side j) 0)); lia).
    lia.
  - rewrite incr_corner_spec by (specialize (Hb (g_edge_corners K (g_side_edges K side j) 0)); lia).
    specialize (Hb (g_edge_corners K (g_side_edges K side j) 1)).
    destruct (bool_decide _); cbn; lia.
Qed.

Lemma shade_edges_spec (js : list nat) (sc sc' : ShadedCorners) :
  (forall c, 0 <= sc c /\ sc c + 2 * Z.of_nat (length js) <= 125) ->
  foldM (shade_edge K lib type_buffer row_size deck_size voxel_index side) sc js = Some sc' ->
  forall c, sc' c = sc c + esum c js.
Proof.
  revert sc. induction js as [|j js IH]; intros sc Hb H c.
  - injection H as <-. cbn. lia.
  - cbn [foldM] in H. apply bind_Some in H as (sc1 & H1 & H).
    assert (Hstep : forall c0, sc1 c0 = sc c0 + contribution c0 j).
    { apply shade_edge_spec; [|exact H1].
      intros c0. specialize (Hb c0). cbn [length] in Hb. lia. }
    rewrite (IH sc1); [rewrite Hstep; cbn [edge_sum]; lia | | exact H].
    intros c0. rewrite Hstep. specialize (Hb c0). cbn [length] in Hb.
    pose proof (edge_contribution_bounds c0 j). lia.
Qed.

Lemma edge_sum_bounds (c : Corner) (js : list nat) :
  0 <= esum c js <= 2 * Z.of_nat (length js).
Proof.
  induction js as [|j js IH]; cbn [edge_sum length]; [lia|].
  pose proof (edge_contribution_bounds c j). lia.
Qed.

Local Abbreviation corner_spec :=
  (spec_corner_shade lib type_buffer row_size deck_size voxel_index).

Lemma shade_corner_spec (sc sc' : ShadedCorners) (j : nat) :
  (forall c, 0 <= sc c <= 125) ->
  shade_corner K lib type_buffer row_size deck_size voxel_index side sc j = Some sc' ->
  sc' (g_side_corners K side j) = corner_spec (sc (g_side_corners K side j)) (g_side_corners K side j)
  /\ forall c, c <> g_side_corners K side j -> sc' c = sc c.
Proof.
  intros Hb H. unfold shade_corner in H. unfold spec_corner_shade.
  destruct (sc (g_side_corners K side j) =? 2) eqn:E2.
  - injection H as <-. unfold set_corner. split.
    + now rewrite decide_True.
    + intros c Hc. now rewrite decide_False.
  - apply bind_Some in H as (id & Hid & H). injection H as <-.
    unfold neighbor_contributes_to_ao. rewrite Hid.
    destruct (contributes_to_ao lib id); cbn.
    + split.
      * rewrite incr_corner_spec by (specialize (Hb (g_side_corners K side j)); lia).
        now rewrite bool_decide_eq_true_2.
      * intros c Hc.
        rewrite incr_corner_spec by (specialize (Hb (g_side_corners K side j)); lia).
        rewrite bool_decide_eq_false_2 by congruence. cbn. lia.
    + split; [lia | reflexivity].
Qed.

Lemma spec_corner_shade_bounds (count : Z) (c : Corner) :
  0 <= count -> 0 <= corner_spec count c <= count + 1.
Proof.
  intros Hb. unfold spec_corner_shade.
  destruct (Z.eqb_spec count 2); [lia|].
  destruct (neighbor_contributes_to_ao _ _ _ _); cbn; lia.
Qed.

Lemma shade_corners_spec (js : list nat) (sc sc' : ShadedCorners) :
  (forall c, 0 <= sc c /\ sc c + Z.of_nat (length js) <= 125) ->
  NoDup (map (g_side_corners K side) js) ->
  foldM (shade_corner K lib type_buffer row_size deck_size voxel_index side) sc js = Some sc' ->
  (forall j, j ∈ js ->
     sc' (g_side_corners K side j)
     = corner_spec (sc (g_side_corners K side j)) (g_side_corners K side j))
  /\ (forall c, c ∉ map (g_side_corners K side) js -> sc' c = sc c)
  /\ (forall c, 0 <= sc' c).
Proof.
  revert sc. induction js as [|j js IH]; intros sc Hb Hnd H.
  - injection H as <-. repeat split.
    + intros j Hj. inversion Hj.
    + intros c. specialize (Hb c). lia.
  - cbn [foldM] in H. apply bind_Some in H as (sc1 & H1 & H).
    cbn [map] in Hnd. apply NoDup_cons in Hnd as [Hnotin Hnd].
    destruct (shade_corner_spec sc sc1 j) as [Hat Hother];
      [intros c; specialize (Hb c); cbn [length] in Hb; lia|exact H1|].
    assert (Hrest : forall j', j' ∈ js ->
              sc1 (g_side_corners K side j') = sc (g_side_corners K side j')).
    { intros j' Hj'. apply Hother. intros Heq. apply Hnotin. rewrite <- Heq.
      apply list_elem_of_fmap. eauto. }
    assert (Hb1 : forall c, 0 <= sc1 c /\ sc1 c + Z.of_nat (length js) <= 125).
    { intros c. specialize (Hb c). cbn [length] in Hb.
      destruct (decide (c = g_side_corners K side j)) as [->|Hne].
      - rewrite Hat.
        pose proof (spec_corner_shade_bounds (sc (g_side_corners K side j))
                      (g_side_corners K side j)). lia.
      - rewrite Hother by exact Hne. lia. }
    destruct (IH sc1 Hb1 Hnd H) as (IHat & IHother & IHpos).
    repeat split.
    + intros j' Hj'. apply elem_of_cons in Hj' as [->|Hj'].
      * rewrite IHother by exact Hnotin. exact Hat.
      * rewrite IHat by exact Hj'. now rewrite Hrest.
    + intros c Hc. apply not_elem_of_cons in Hc as [Hc1 Hc2].
      rewrite IHother by exact Hc2. now apply Hother.
    + exact IHpos.
Qed.

(** The shade of one vertex. *)
Lemma Qlt_bool_iff (a b : Q) : Qlt_bool a b = true <-> (a < b)%Q.
Proof.
  unfold Qlt_bool. rewrite negb_true_iff. split.
  - intros H. apply Qnot_le_lt. intros Hle. apply Qle_bool_iff in Hle. congruence.
  - intros H. destruct (Qle_bool b a) eqn:E; [|reflexivity].
    apply Qle_bool_iff in E. exfalso. now apply (Qlt_not_le _ _ H).
Qed.

Lemma shade_step_spec (d : Q) (sc : ShadedCorners) (v : Vector3f) (shade : Q) (j : nat) :
  (0 <= shade)%Q ->
  (shade_step K d side sc v shade j == Qmax shade (spec_shade_term K side d sc v j))%Q.
Proof.
  intros Hs. unfold shade_step, spec_shade_term.
  set (c := g_side_corners K side j).
  set (k := (1 - distance_squared (g_corner_position K c) v)%Q).
  destruct (Z.eqb_spec (sc c) 0) as [E|E]; cbn [negb].
  - rewrite E. rewrite Qmult_0_r, Qmult_0_l. symmetry. now apply Q.max_l.
  - assert (Hk : ((if Qlt_bool k 0 then 0 else k) == Qmax 0 k)%Q).
    { destruct (Qlt_bool k 0) eqn:Ek.
      - apply Qlt_bool_iff in Ek. symmetry. apply Q.max_l. now apply Qlt_le_weak.
      - symmetry. apply Q.max_r. apply Qnot_lt_le. intros Hlt.
        apply Qlt_bool_iff in Hlt. congruence. }
    destruct (Qlt_bool shade _) eqn:Es.
    + apply Qlt_bool_iff in Es. rewrite Hk in Es |- *.
      symmetry. apply Q.max_r. now apply Qlt_le_weak.
    + rewrite <- Hk. symmetry. apply Q.max_l. apply Qnot_lt_le. intros Hlt.
      apply Qlt_bool_iff in Hlt. congruence.
Qed.

Lemma spec_shade_term_nonneg (d : Q) (sc : ShadedCorners) (v : Vector3f) (j : nat) :
  (0 <= d)%Q -> 0 <= sc (g_side_corners K side j) ->
  (0 <= spec_shade_term K side d sc v j)%Q.
Proof.
  intros Hd Hsc. unfold spec_shade_term.
  apply Qmult_le_0_compat; [apply Qmult_le_0_compat|].
  - exact Hd.
  - change 0%Q with (inject_Z 0). now rewrite <- Zle_Qle.
  - apply Q.le_max_l.
Qed.

Lemma shade_step_chain (d : Q) (sc : ShadedCorners) (v : Vector3f) (shade m : Q) (j : nat) :
  (shade == m)%Q -> (0 <= m)%Q ->
  (shade_step K d side sc v shade j == Qmax m (spec_shade_term K side d sc v j))%Q
  /\ (0 <= Qmax m (spec_shade_term K side d sc v j))%Q.
Proof.
  intros E Hm. split.
  - rewrite shade_step_spec by now rewrite E. now rewrite E.
  - apply Qle_trans with m; [exact Hm | apply Q.le_max_l].
Qed.

Lemma vertex_shade_spec (d : Q) (sc : ShadedCorners) (v : Vector3f) :
  (0 <= d)%Q -> (forall j, 0 <= sc (g_side_corners K side j)) ->
  (vertex_shade K d side sc v == spec_vertex_shade K side d sc v)%Q.
Proof.
  intros Hd Hsc. unfold vertex_shade, spec_vertex_shade. cbn [foldl].
  pose proof (spec_shade_term_nonneg d sc v 0 Hd (Hsc _)) as H0.
  destruct (shade_step_chain d sc v 0 0 0) as [E0 P0]; [reflexivity | apply Qle_refl |].
  destruct (shade_step_chain d sc v _ _ 1 E0 P0) as [E1 P1].
  destruct (shade_step_chain d sc v _ _ 2 E1 P1) as [E2 P2].
  destruct (shade_step_chain d sc v _ _ 3 E2 P2) as [E3 P3].
  rewrite E3. rewrite (Q.max_r 0 _ H0).
  now rewrite <- !Q.max_assoc.
Qed.
End Occlusion.




(** ** Loops *)

Lemma foldM_app {S A : Type} (f : S -> A -> option S) (s : S) (l1 l2 : list A) :
  foldM f s (l1 ++ l2) = foldM f s l1 ≫= fun s' => foldM f s' l2.
Proof.
  revert s. induction l1 as [|x l1 IH]; intros s; [reflexivity|].
  cbn [foldM app]. destruct (f s x) as [s1|]; [apply IH | reflexivity].
Qed.

(** A simulation between two runs of a loop with the same iterations. *)
Lemma foldM_sim {S1 S2 A : Type} (R : S1 -> S2 -> Prop)
    (f : S1 -> A -> option S1) (g : S2 -> A -> option S2) (l : list A) :
  (forall s t x s', x ∈ l -> R s t -> f s x = Some s' ->
                    exists t', g t x = Some t' /\ R s' t') ->
  forall s t s', R s t -> foldM f s l = Some s' ->
                 exists t', foldM g t l = Some t' /\ R s' t'.
Proof.
  induction l as [|x l IH]; intros Hstep s t s' HR H.
  - injection H as <-. exists t. split; [reflexivity | exact HR].
  - cbn [foldM] in *. apply bind_Some in H as (s1 & H1 & H).
    destruct (Hstep s t x s1) as (t1 & Ht1 & HR1); [left | exact HR | exact H1 |].
    rewrite Ht1. cbn [mbind option_bind]. apply (IH (fun s t x s' Hx => Hstep s t x s' (list_elem_of_further _ _ _ Hx)) s1 t1 s' HR1 H).
Qed.

Section Simulation.
Context {S1 S2 : Type}.
Variable emit1 : S1 -> Patch -> option S1.
Variable emit2 : S2 -> Patch -> option S2.
Variable R : S1 -> S2 -> Prop.
Variable Good : Patch -> Prop.
Variable SF : Surface.t -> Prop.
Variable SS : SideSurface.t -> Prop.
Variable K : Constants.
Variable lib : Library.t.

Hypothesis emit_sim : forall s t p s',
  Good p -> R s t -> emit1 s p = Some s' -> exists t', emit2 t p = Some t' /\ R s' t'.
Hypothesis side_patch_ok : forall bake d voxel side sc pos surface side_surface p,
  SF surface -> SS side_surface ->
  side_patch K bake d voxel side sc pos surface side_surface = Some p -> Good p.
Hypothesis inside_patch_ok : forall voxel pos surface p,
  SF surface -> inside_patch voxel pos surface = Some p -> Good p.
Hypothesis seam_patch_ok : forall side pos voxel k p,
  model_ok SF SS voxel -> seam_patch K side pos voxel k = Some p -> Good p.
Hypothesis models_ok : forall id voxel,
  get_model lib id = Some voxel -> model_ok SF SS voxel.
Hypothesis fluid_ok : forall voxel tb idx yj xj zj r,
  model_ok SF SS voxel ->
  generate_fluid_model K voxel tb idx yj xj zj lib = Some r ->
  Forall SF r.1.1 /\ forall s, Forall SS (r.1.2 s).

Variable type_buffer : list Z.
Variables (bake_occlusion : bool) (baked_occlusion_darkness : Q).

Section Voxel.
Variables row_size deck_size : Z.

Lemma visible_side_surfaces_ok voxel model_sides_surfaces voxel_index side side_surfaces :
  model_ok SF SS voxel ->
  (forall s, Forall SS (model_sides_surfaces s)) ->
  visible_side_surfaces K lib type_buffer row_size deck_size voxel model_sides_surfaces
    voxel_index side = Some (Some side_surfaces) ->
  Forall SS side_surfaces.
Proof.
  intros (_ & _ & Hcut) Hsides H. unfold visible_side_surfaces in H.
  apply bind_Some in H as (nid & _ & H).
  destruct (has_model lib nid); [|injection H as <-; apply Hsides].
  apply bind_Some in H as (other & _ & H).
  destruct (negb (is_face_visible_regardless_of_shape voxel other));
    [|injection H as <-; apply Hsides].
  destruct (negb (is_face_visible_according_to_shape K lib voxel other side));
    [discriminate|].
  destruct (BakedData.cutout_sides_enabled voxel); [|injection H as <-; apply Hsides].
  destruct (Model.cutout_side_surfaces _ _ !! _) as [cut|] eqn:E.
  - injection H as <-. eapply Hcut, E.
  - injection H as <-. apply Hsides.
Qed.

Lemma mesh_side_sim voxel model_surfaces model_sides_surfaces model_surface_count
    voxel_index pos s t side s' :
  model_ok SF SS voxel -> Forall SF model_surfaces ->
  (forall s, Forall SS (model_sides_surfaces s)) ->
  R s t ->
  mesh_side K lib type_buffer row_size deck_size emit1 bake_occlusion
    baked_occlusion_darkness voxel model_surfaces model_sides_surfaces
    model_surface_count voxel_index pos s side = Some s' ->
  exists t',
    mesh_side K lib type_buffer row_size deck_size emit2 bake_occlusion
      baked_occlusion_darkness voxel model_surfaces model_sides_surfaces
      model_surface_count voxel_index pos t side = Some t'
    /\ R s' t'.
Proof.
  intros Hvoxel Hsurf Hsides HR H. unfold mesh_side in *.
  destruct (negb _); [injection H as <-; eauto|].
  apply bind_Some in H as (visible & Hvis & H). rewrite Hvis. cbn [mbind option_bind].
  destruct visible as [side_surfaces|]; [|injection H as <-; eauto].
  apply bind_Some in H as (sc & Hsc & H). rewrite Hsc. cbn [mbind option_bind].
  eapply foldM_sim; [|exact HR|exact H].
  clear s t s' HR H. intros s t k s' _ HR H.
  apply bind_Some in H as (surface & Hk & H). rewrite Hk. cbn [mbind option_bind].
  apply bind_Some in H as (side_surface & Hk' & H). rewrite Hk'. cbn [mbind option_bind].
  apply bind_Some in H as (p & Hp & H). rewrite Hp. cbn [mbind option_bind].
  eapply emit_sim; [|exact HR|exact H].
  eapply side_patch_ok; [| |exact Hp].
  - eapply Forall_lookup_1; eauto.
  - eapply Forall_lookup_1; [|exact Hk'].
    eapply visible_side_surfaces_ok; eauto.
Qed.

Lemma mesh_inside_sim voxel model_surfaces pos s t k s' :
  Forall SF model_surfaces -> R s t ->
  mesh_inside emit1 voxel model_surfaces pos s k = Some s' ->
  exists t', mesh_inside emit2 voxel model_surfaces pos t k = Some t' /\ R s' t'.
Proof.
  intros Hsurf HR H. unfold mesh_inside in *.
  apply bind_Some in H as (surface & Hk & H). rewrite Hk. cbn [mbind option_bind].
  destruct (bool_decide _); [injection H as <-; eauto|].
  apply bind_Some in H as (p & Hp & H). rewrite Hp. cbn [mbind option_bind].
  eapply emit_sim; [|exact HR|exact H].
  eapply inside_patch_ok; [|exact Hp]. eapply Forall_lookup_1; eauto.
Qed.

Lemma mesh_voxel_sim s t x y z s' :
  R s t ->
  mesh_voxel K lib type_buffer row_size deck_size emit1 bake_occlusion
    baked_occlusion_darkness s x y z = Some s' ->
  exists t',
    mesh_voxel K lib type_buffer row_size deck_size emit2 bake_occlusion
      baked_occlusion_darkness t x y z = Some t'
    /\ R s' t'.
Proof.
  intros HR H. unfold mesh_voxel in *.
  apply bind_Some in H as (voxel_id & Hid & H). rewrite Hid. cbn [mbind option_bind].
  destruct (_ || _); [injection H as <-; eauto|].
  apply bind_Some in H as (voxel & Hvoxel & H). rewrite Hvoxel. cbn [mbind option_bind].
  apply bind_Some in H as (r & Hr & H). rewrite Hr. cbn [mbind option_bind].
  apply bind_Some in H as (s1 & H1 & H).
  assert (Hok : model_ok SF SS voxel) by (eapply models_ok; eauto).
  assert (Hr' : Forall SF r.1.1 /\ forall s, Forall SS (r.1.2 s)).
  { destruct (negb _).
    - eapply fluid_ok; eauto.
    - injection Hr as <-. cbn. destruct Hok as (? & ? & ?). split; assumption. }
  destruct Hr' as [Hsurf Hsides].
  set (voxel_index := y + x * row_size + z * deck_size) in *.
  set (pos := mkVector3f (inject_Z (x - 1)) (inject_Z (y - 1)) (inject_Z (z - 1))) in *.
  assert (Hsim : exists t1,
            foldM (mesh_side K lib type_buffer row_size deck_size emit2 bake_occlusion
                     baked_occlusion_darkness voxel r.1.1 r.1.2 r.2 voxel_index pos)
                  t SIDES = Some t1 /\ R s1 t1).
  { eapply foldM_sim; [|exact HR|exact H1].
    intros ? ? ? ? _ ? ?. eapply mesh_side_sim; eauto. }
  destruct Hsim as (t1 & Ht1 & HR1).
  rewrite Ht1. cbn [mbind option_bind].
  eapply foldM_sim; [|exact HR1|exact H].
  intros ? ? ? ? _ ? ?. eapply mesh_inside_sim; eauto.
Qed.

End Voxel.

Lemma mesh_block_sim block_size s t s' :
  R s t ->
  mesh_block emit1 K type_buffer block_size lib bake_occlusion
    baked_occlusion_darkness s = Some s' ->
  exists t',
    mesh_block emit2 K type_buffer block_size lib bake_occlusion
      baked_occlusion_darkness t = Some t'
    /\ R s' t'.
Proof.
  intros HR H. unfold mesh_block in *.
  eapply foldM_sim; [|exact HR|exact H].
  clear s t s' HR H. intros s t z s' _ HR H.
  eapply foldM_sim; [|exact HR|exact H].
  clear s t s' HR H. intros s t x s' _ HR H.
  eapply foldM_sim; [|exact HR|exact H].
  clear s t s' HR H. intros s t y s' _ HR H.
  eapply mesh_voxel_sim; eassumption.
Qed.

Lemma seam_voxel_sim buffer jump z side s t x y s' :
  R s t ->
  seam_voxel emit1 K buffer jump z side lib s x y = Some s' ->
  exists t', seam_voxel emit2 K buffer jump z side lib t x y = Some t' /\ R s' t'.
Proof.
  intros HR H. unfold seam_voxel in *.
  apply bind_Some in H as (v & Hv & H). rewrite Hv. cbn [mbind option_bind].
  destruct (v =? 0); [injection H as <-; eauto|].
  apply bind_Some in H as (nv0 & H0 & H). rewrite H0. cbn [mbind option_bind].
  apply bind_Some in H as (nv1 & H1 & H). rewrite H1. cbn [mbind option_bind].
  apply bind_Some in H as (nv2 & H2 & H). rewrite H2. cbn [mbind option_bind].
  apply bind_Some in H as (nv3 & H3 & H). rewrite H3. cbn [mbind option_bind].
  destruct (_ && _); [injection H as <-; eauto|].
  apply bind_Some in H as (nv4 & H4 & H). rewrite H4. cbn [mbind option_bind].
  destruct (nv4 =? 0); [injection H as <-; eauto|].
  apply bind_Some in H as (voxel & Hvoxel & H). rewrite Hvoxel. cbn [mbind option_bind].
  eapply foldM_sim; [|exact HR|exact H].
  clear s t s' HR H. intros s t k s' _ HR H.
  apply bind_Some in H as (p & Hp & H). rewrite Hp. cbn [mbind option_bind].
  eapply emit_sim; [|exact HR|exact H].
  eapply seam_patch_ok; [|exact Hp]. eapply models_ok; eauto.
Qed.

Lemma append_side_seams_sim buffer jump z size_x size_y side s t s' :
  R s t ->
  append_side_seams emit1 K buffer jump z size_x size_y side lib s = Some s' ->
  exists t',
    append_side_seams emit2 K buffer jump z size_x size_y side lib t = Some t'
    /\ R s' t'.
Proof.
  intros HR H. unfold append_side_seams in *.
  eapply foldM_sim; [|exact HR|exact H].
  clear s t s' HR H. intros s t x s' _ HR H.
  eapply foldM_sim; [|exact HR|exact H].
  clear s t s' HR H. intros s t y s' _ HR H.
  eapply seam_voxel_sim; eassumption.
Qed.

Lemma seams_sim buffer size s t s' :
  R s t ->
  seams emit1 K buffer size lib s = Some s' ->
  exists t', seams emit2 K buffer size lib t = Some t' /\ R s' t'.
Proof.
  intros HR H. unfold seams in *. cbv zeta in *.
  apply bind_Some in H as (s1 & H1 & H).
  destruct (append_side_seams_sim _ _ _ _ _ _ _ _ _ HR H1) as (t1 & -> & HR1). cbn [mbind option_bind].
  apply bind_Some in H as (s2 & H2 & H).
  destruct (append_side_seams_sim _ _ _ _ _ _ _ _ _ HR1 H2) as (t2 & -> & HR2). cbn [mbind option_bind].
  apply bind_Some in H as (s3 & H3 & H).
  destruct (append_side_seams_sim _ _ _ _ _ _ _ _ _ HR2 H3) as (t3 & -> & HR3). cbn [mbind option_bind].
  apply bind_Some in H as (s4 & H4 & H).
  destruct (append_side_seams_sim _ _ _ _ _ _ _ _ _ HR3 H4) as (t4 & -> & HR4). cbn [mbind option_bind].
  apply bind_Some in H as (s5 & H5 & H).
  destruct (append_side_seams_sim _ _ _ _ _ _ _ _ _ HR4 H5) as (t5 & -> & HR5). cbn [mbind option_bind].
  cbn [mbind option_bind].
  eapply append_side_seams_sim; eassumption.
Qed.

End Simulation.

(** ** The emitted surfaces and what the arrays hold *)

Lemma render_app a off P1 P2 :
  render a off (P1 ++ P2) = render (render a off P1) (off + total_vertices P1) P2.
Proof.
  revert a off. induction P1 as [|p P1 IH]; intros a off; cbn [render app total_vertices].
  - f_equal. lia.
  - rewrite IH. f_equal. lia.
Qed.

Lemma render_positions a off P :
  Arrays.positions (render a off P) = Arrays.positions a ++ flat_map patch_positions P.
Proof.
  revert a off. induction P as [|p P IH]; intros a off; cbn [render flat_map].
  - now rewrite app_nil_r.
  - rewrite IH. cbn. now rewrite <- app_assoc.
Qed.

Lemma flat_map_positions_length P :
  Z.of_nat (length (flat_map patch_positions P)) = total_vertices P.
Proof.
  induction P as [|p P IH]; [reflexivity|].
  cbn [flat_map total_vertices]. rewrite length_app. unfold vertex_count. lia.
Qed.


(** What a run of [append_patch] over the patches [P] leaves in the state. *)
Lemma replay_append_patch (P : list Patch) : forall st st',
  foldM append_patch st P = Some st' ->
  length (ms_out_arrays_per_material st') = length (ms_out_arrays_per_material st)
  /\ (forall m a off,
        ms_out_arrays_per_material st !! m = Some a ->
        ms_index_offsets st !! m = Some off ->
        ms_out_arrays_per_material st' !! m = Some (render a off (of_material m P))
        /\ ms_index_offsets st' !! m = Some (off + total_vertices (of_material m P)))
  /\ ms_collision_surface st'
     = (fun dst => mirror dst (ms_collision_surface_index_offset st) (with_collision P))
       <$> ms_collision_surface st.
Proof.
  induction P as [|p P IH]; intros st st' H.
  - injection H as <-. split; [reflexivity|]. split.
    + intros m a off Ha Hoff. cbn. rewrite Z.add_0_r. now split.
    + now destruct (ms_collision_surface st).
  - cbn [foldM] in H. apply bind_Some in H as (st1 & H1 & H).
    destruct (IH st1 st' H) as (Hlen & Harr & Hcoll). clear IH.
    unfold append_patch in H1.
    apply bind_Some in H1 as (a0 & Ha0 & H1). apply bind_Some in H1 as (off0 & Hoff0 & H1).
    injection H1 as <-.
    cbn [ms_out_arrays_per_material ms_index_offsets ms_collision_surface
         ms_collision_surface_index_offset fst snd] in *.
    split; [now rewrite Hlen, length_insert|]. split.
    + intros m a off Ha Hoff.
      destruct (decide (patch_material p = m)) as [<-|Hne].
      * assert (a = a0) by congruence. assert (off = off0) by congruence. subst a off.
        unfold of_material. rewrite filter_cons_True by reflexivity.
        cbn [render total_vertices].
        destruct (Harr (patch_material p) (append_to_arrays a0 off0 p)
                    (off0 + Z.of_nat (length (patch_positions p)))) as [E1 E2].
        { apply list_lookup_insert_eq. eapply lookup_lt_Some; eauto. }
        { apply list_lookup_insert_eq. eapply lookup_lt_Some; eauto. }
        unfold of_material, vertex_count in *.
        split; [exact E1|]. rewrite E2. f_equal. lia.
      * unfold of_material. rewrite filter_cons_False by exact Hne.
        apply Harr; rewrite list_lookup_insert_ne by exact Hne; assumption.
    + rewrite Hcoll. unfold with_collision.
      destruct (ms_collision_surface st) as [dst|]; [|reflexivity].
      destruct (patch_collision p) eqn:Ec; cbn [fst snd fmap option_fmap option_map].
      * rewrite filter_cons_True by exact Ec. reflexivity.
      * rewrite filter_cons_False by congruence. reflexivity.
Qed.

(** What a run of [append_seam_patch] over the patches [P] leaves. *)
Lemma replay_append_seam_patch (P : list Patch) : forall arrays arrays',
  foldM append_seam_patch arrays P = Some arrays' ->
  length arrays' = length arrays
  /\ forall m a,
       arrays !! m = Some a ->
       arrays' !! m
       = Some (render a (Z.of_nat (length (Arrays.positions a))) (of_material m P)).
Proof.
  induction P as [|p P IH]; intros arrays arrays' H.
  - injection H as <-. split; [reflexivity|]. intros m a Ha. exact Ha.
  - cbn [foldM] in H. apply bind_Some in H as (arrays1 & H1 & H).
    destruct (IH arrays1 arrays' H) as (Hlen & Harr). clear IH.
    unfold append_seam_patch in H1.
    apply bind_Some in H1 as (a0 & Ha0 & H1). injection H1 as <-.
    split; [now rewrite Hlen, length_insert|].
    intros m a Ha.
    destruct (decide (patch_material p = m)) as [<-|Hne].
    + assert (a = a0) by congruence. subst a.
      unfold of_material. rewrite filter_cons_True by reflexivity. cbn [render].
      rewrite (Harr (patch_material p)
                 (append_to_arrays a0 (Z.of_nat (length (Arrays.positions a0))) p)).
      * unfold of_material, vertex_count. f_equal. f_equal.
        cbn [append_to_arrays Arrays.positions]. rewrite length_app. lia.
      * apply list_lookup_insert_eq. eapply lookup_lt_Some; eauto.
    + unfold of_material. rewrite filter_cons_False by exact Hne.
      apply Harr. now rewrite list_lookup_insert_ne by exact Hne.
Qed.

Lemma trivially_ok (voxel : BakedData.t) : model_ok (fun _ => True) (fun _ => True) voxel.
Proof. repeat split; intros; apply Forall_true; trivial. Qed.

(** The main pass appends the surfaces it emits, in order. *)
Lemma main_pass_trace K type_buffer block_size lib bake d st st' :
  mesh_block append_patch K type_buffer block_size lib bake d st = Some st' ->
  exists P,
    mesh_block snoc K type_buffer block_size lib bake d [] = Some P
    /\ foldM append_patch st P = Some st'.
Proof.
  intros H.
  eapply (mesh_block_sim append_patch snoc
            (fun s l => foldM append_patch st l = Some s)
            (fun _ => True) (fun _ => True) (fun _ => True));
    [ | | | | | |exact H].
  - intros s t p s' _ HR Hp. eexists. split; [reflexivity|].
    rewrite foldM_app, HR. cbn. now rewrite Hp.
  - trivial.
  - trivial.
  - intros. apply trivially_ok.
  - intros. split; [|intros ?]; apply Forall_true; trivial.
  - reflexivity.
Qed.

Lemma seam_pass_trace K buffer size lib arrays arrays' :
  seams append_seam_patch K buffer size lib arrays = Some arrays' ->
  exists P,
    seams snoc K buffer size lib [] = Some P
    /\ foldM append_seam_patch arrays P = Some arrays'.
Proof.
  intros H.
  eapply (seams_sim append_seam_patch snoc
            (fun s l => foldM append_seam_patch arrays l = Some s)
            (fun _ => True) (fun _ => True) (fun _ => True));
    [ | | | |exact H].
  - intros s t p s' _ HR Hp. eexists. split; [reflexivity|].
    rewrite foldM_app, HR. cbn. now rewrite Hp.
  - trivial.
  - intros. apply trivially_ok.
  - reflexivity.
Qed.

Lemma build_meshes K p cache output input lib ids :
  Parameters.library p = Some lib ->
  model_ids (Input.voxels input) = Some ids ->
  build K p cache output input
  = build_mesh K p lib
      (grow (map (fun _ => Arrays.clear) cache) (Library.indexed_materials_count lib))
      output input ids.
Proof.
  intros Hlib Hids. unfold build, model_ids in *. rewrite Hlib.
  destruct (VoxelBuffer.get_channel_compression _); try discriminate.
  destruct (VoxelBuffer.get_channel_as_bytes_read_only _); try discriminate.
  destruct (VoxelBuffer.get_channel_depth _); try discriminate;
    injection Hids as <-; reflexivity.
Qed.

Lemma build_returns_early K p cache output input :
  Parameters.library p = None \/ model_ids (Input.voxels input) = None ->
  exists cache' errors,
    build K p cache output input = Some (output, cache', errors)
    /\ forall lod_index,
         build K p cache output
           (Input.mk (Input.voxels input) lod_index (Input.collision_hint input))
         = Some (output, cache', errors).
Proof.
  intros H. unfold build, model_ids in *. cbn [Input.voxels].
  destruct (Parameters.library p) as [lib|]; [|eauto].
  destruct H as [H|H]; [discriminate|].
  destruct (VoxelBuffer.get_channel_compression _); [|eauto|eauto].
  destruct (VoxelBuffer.get_channel_as_bytes_read_only _); [|eauto].
  destruct (VoxelBuffer.get_channel_depth _); try discriminate; eauto.
Qed.

Lemma generate_blocky_mesh_spec K arrays coll type_buffer block_size lib bake d
    arrays' coll' errors :
  generate_blocky_mesh K arrays coll type_buffer block_size lib bake d
    = Some (arrays', coll', errors) ->
  exists P,
    emitted_patches K type_buffer block_size lib bake d = Some P
    /\ length arrays' = length arrays
    /\ (forall m a, arrays !! m = Some a ->
          arrays' !! m = Some (render a 0 (of_material m P)))
    /\ coll' = (fun dst => mirror dst 0 (with_collision P)) <$> coll.
Proof.
  intros H. unfold generate_blocky_mesh, emitted_patches in *.
  destruct (block_too_small block_size).
  - injection H as <- <- <-. exists []. repeat split; [eauto | now destruct coll].
  - apply bind_Some in H as (st' & Hrun & H). injection H as <- <- <-.
    apply main_pass_trace in Hrun as (P & HP & Hreplay).
    exists P. split; [exact HP|].
    apply replay_append_patch in Hreplay as (Hlen & Harr & Hcoll).
    cbn [ms_out_arrays_per_material ms_index_offsets ms_collision_surface
         ms_collision_surface_index_offset] in *.
    split; [exact Hlen|]. split; [|exact Hcoll].
    intros m a Ha. apply (Harr m a 0 Ha).
    apply lookup_replicate_2. eapply lookup_lt_Some; eauto.
Qed.

Lemma append_seams_spec K buffer size arrays lib arrays' :
  append_seams K buffer size arrays lib = Some arrays' ->
  exists P,
    emitted_seam_patches K buffer size lib = Some P
    /\ length arrays' = length arrays
    /\ (forall m a, arrays !! m = Some a ->
          arrays' !! m
          = Some (render a (Z.of_nat (length (Arrays.positions a))) (of_material m P))).
Proof.
  intros H. unfold append_seams, emitted_seam_patches in *.
  apply seam_pass_trace in H as (P & HP & Hreplay).
  exists P. split; [exact HP|].
  now apply replay_append_seam_patch in Hreplay.
Qed.

Lemma package_is_Some arrays n surfaces :
  is_Some (package arrays n surfaces) <-> (n <= length arrays)%nat.
Proof.
  unfold package.
  assert (Hgen : forall l surfaces,
            is_Some (foldM (fun surfaces material_index =>
                       a ← arrays !! material_index;
                       Some (if bool_decide (Arrays.positions a = []) then surfaces
                             else surfaces ++ [OutputSurface.mk (mesh_arrays_of a) material_index]))
                     surfaces l)
            <-> Forall (fun m => (m < length arrays)%nat) l).
  { induction l as [|m l IH]; intros s; cbn [foldM].
    - split; [constructor | eauto].
    - destruct (arrays !! m) as [a|] eqn:Ea; cbn [mbind option_bind].
      + rewrite IH. split.
        * intros Hl. constructor; [eapply lookup_lt_Some; eauto | exact Hl].
        * intros Hl. now inversion Hl.
      + split; [intros [? ?]; discriminate|].
        intros Hl. inversion Hl as [|? ? Hm _]; subst.
        apply lookup_lt_is_Some in Hm. rewrite Ea in Hm. now destruct Hm. }
  rewrite Hgen. rewrite Forall_forall. split.
  - intros H. destruct n as [|n]; [lia|].
    specialize (H n). rewrite elem_of_seq in H. lia.
  - intros H m Hm. apply elem_of_seq in Hm. lia.
Qed.

Lemma lookup_grow_clear (cache : list Arrays.t) (n m : nat) (a : Arrays.t) :
  grow (map (fun _ => Arrays.clear) cache) n !! m = Some a -> a = Arrays.clear.
Proof.
  unfold grow. intros H.
  assert (Hc : forall l : list Arrays.t, map (fun _ => Arrays.clear) l !! m = Some a -> a = Arrays.clear).
  { intros l Hl. rewrite list_lookup_fmap in Hl.
    destruct (l !! m); cbn in Hl; congruence. }
  destruct (_ <? _)%nat; [|eauto].
  apply lookup_app_Some in H as [H|[_ H]]; [eauto|].
  apply lookup_replicate in H as [-> _]. reflexivity.
Qed.

Lemma length_grow (arrays : list Arrays.t) (n : nat) :
  length (grow arrays n) = Nat.max (length arrays) n.
Proof.
  unfold grow. destruct (Nat.ltb_spec (length arrays) n).
  - rewrite length_app, length_replicate. lia.
  - lia.
Qed.

(** What a build that gets to meshing leaves in the arrays of each material
    and in the collision surface. *)
Lemma build_mesh_spec K p lib arrays output input ids output' arrays' errors :
  build_mesh K p lib arrays output input ids = Some (output', arrays', errors) ->
  let lod_index := Input.lod_index input in
  let block_size := VoxelBuffer.get_size (Input.voxels input) in
  exists P Pseam,
    emitted_patches K ids block_size lib (Parameters.bake_occlusion p)
      (build_occlusion_darkness p) = Some P
    /\ (if 0 <? lod_index
        then emitted_seam_patches K ids block_size lib = Some Pseam
             /\ is_Some (lod_scale lod_index)
        else Pseam = [])
    /\ length arrays' = length arrays
    /\ (Library.indexed_materials_count lib <= length arrays)%nat
    /\ (forall m a, arrays !! m = Some a ->
          let main := render a 0 (of_material m P) in
          arrays' !! m
          = Some (lod_scaled_arrays lod_index
                    (render main (Z.of_nat (length (Arrays.positions main)))
                       (of_material m Pseam))))
    /\ Output.collision_surface output'
       = (if Input.collision_hint input
          then lod_scaled_collision lod_index
                 (mirror (Output.collision_surface output) 0 (with_collision P))
          else Output.collision_surface output).
Proof.
  intros H lod_index block_size. unfold build_mesh in H.
  fold lod_index block_size in H.
  apply bind_Some in H as ([[arrays1 coll1] errors1] & Hmain & H).
  apply bind_Some in H as (arrays2 & Hseams & H).
  apply bind_Some in H as ([arrays3 coll3] & Hscale & H).
  apply bind_Some in H as (surfaces & Hpack & H).
  injection H as <- <- <-.
  apply generate_blocky_mesh_spec in Hmain as (P & HP & Hlen1 & Harr1 & Hcoll1).
  exists P.
  assert (Hpack' : (Library.indexed_materials_count lib <= length arrays3)%nat)
    by (apply (proj1 (package_is_Some _ _ (Output.surfaces output))); eauto).
  unfold lod_scaled_arrays, lod_scaled_collision.
  destruct (0 <? lod_index) eqn:Elod.
  - apply append_seams_spec in Hseams as (Pseam & HPseam & Hlen2 & Harr2).
    apply bind_Some in Hscale as (s & Hs & Hscale). injection Hscale as <- <-.
    exists Pseam. rewrite Hs. cbn [fmap option_fmap option_map default].
    rewrite length_map in *.
    split; [exact HP|]. split; [split; [exact HPseam | eexists; reflexivity]|].
    split; [congruence|]. split; [lia|]. split.
    + intros m a Ha. rewrite list_lookup_fmap.
      rewrite (Harr2 m _ (Harr1 m a Ha)). reflexivity.
    + cbn [Output.collision_surface]. subst coll1.
      destruct (Input.collision_hint input); reflexivity.
  - injection Hseams as <-. injection Hscale as <- <-. exists [].
    split; [exact HP|]. split; [reflexivity|]. split; [congruence|]. split; [lia|]. split.
    + intros m a Ha. unfold of_material. cbn. apply Harr1. exact Ha.
    + cbn [Output.collision_surface]. subst coll1.
      destruct (Input.collision_hint input); reflexivity.
Qed.

Lemma of_material_app m P1 P2 :
  of_material m (P1 ++ P2) = of_material m P1 ++ of_material m P2.
Proof. unfold of_material. apply filter_app. Qed.

Lemma render_continue a P1 P2 :
  Arrays.positions a = [] ->
  render (render a 0 P1) (Z.of_nat (length (Arrays.positions (render a 0 P1)))) P2
  = render a 0 (P1 ++ P2).
Proof.
  intros Ha. rewrite render_app. f_equal.
  rewrite render_positions, Ha. cbn [app]. rewrite flat_map_positions_length. lia.
Qed.

(** What a build that gets to meshing leaves, in terms of the surfaces it
    emits. *)
Lemma build_spec K p cache output input lib ids output' arrays' errors :
  Parameters.library p = Some lib ->
  model_ids (Input.voxels input) = Some ids ->
  build K p cache output input = Some (output', arrays', errors) ->
  let lod_index := Input.lod_index input in
  let block_size := VoxelBuffer.get_size (Input.voxels input) in
  exists P Pseam,
    emitted_patches K ids block_size lib (Parameters.bake_occlusion p)
      (build_occlusion_darkness p) = Some P
    /\ build_patches K p lib ids block_size lod_index = Some (P ++ Pseam)
    /\ (if 0 <? lod_index
        then emitted_seam_patches K ids block_size lib = Some Pseam
             /\ is_Some (lod_scale lod_index)
        else Pseam = [])
    /\ length arrays' = Nat.max (length cache) (Library.indexed_materials_count lib)
    /\ (forall m, (m < length arrays')%nat ->
          arrays' !! m
          = Some (lod_scaled_arrays lod_index
                    (render Arrays.clear 0 (of_material m (P ++ Pseam)))))
    /\ Output.collision_surface output'
       = (if Input.collision_hint input
          then lod_scaled_collision lod_index
                 (mirror (Output.collision_surface output) 0 (with_collision P))
          else Output.collision_surface output).
Proof.
  intros Hlib Hids H lod_index block_size.
  rewrite (build_meshes K p cache output input lib ids Hlib Hids) in H.
  apply build_mesh_spec in H as (P & Pseam & HP & Hseam & Hlen & _ & Harr & Hcoll).
  fold lod_index block_size in HP, Hseam, Harr, Hcoll.
  exists P, Pseam.
  split; [exact HP|]. split.
  { unfold build_patches. rewrite HP. cbn [mbind option_bind].
    destruct (0 <? lod_index).
    - destruct Hseam as [-> _]. reflexivity.
    - subst Pseam. now rewrite app_nil_r. }
  split; [exact Hseam|].
  split; [now rewrite Hlen, length_grow, length_map|].
  split; [|exact Hcoll].
  intros m Hm. rewrite Hlen in Hm.
  destruct (lookup_lt_is_Some_2 _ _ Hm) as [a Ha].
  rewrite (Harr m a Ha).
  assert (a = Arrays.clear) by (eapply lookup_grow_clear; eauto). subst a.
  rewrite render_continue by reflexivity. now rewrite of_material_app.
Qed.




(** ** LOD scaling *)

Lemma lod_scale_power (k : Z) :
  0 <= k < 31 -> lod_scale k = Some (inject_Z (2 ^ k)).
Proof.
  intros Hk. unfold lod_scale, wrap_int32.
  destruct (Z.ltb_spec k 32); [|lia].
  rewrite Z.shiftl_1_l.
  assert (0 < 2 ^ k < 2 ^ 31) by (split; [apply Z.pow_pos_nonneg | apply Z.pow_lt_mono_r]; lia).
  rewrite Z.mod_small by lia. do 2 f_equal. lia.
Qed.

(** The main pass does not look at the LOD index: a build that succeeds at
    some level succeeds at level 0. *)
Lemma build_mesh_at_lod_0 K p lib arrays output voxels hint k ids output_k arrays_k errors :
  build_mesh K p lib arrays output (Input.mk voxels k hint) ids
    = Some (output_k, arrays_k, errors) ->
  exists output_0 arrays_0,
    build_mesh K p lib arrays output (Input.mk voxels 0 hint) ids
      = Some (output_0, arrays_0, errors).
Proof.
  intros H.
  destruct (build_mesh_spec _ _ _ _ _ _ _ _ _ _ H) as (_ & _ & _ & _ & _ & Hcount & _ & _).
  unfold build_mesh in *. cbn [Input.voxels Input.lod_index Input.collision_hint] in *.
  apply bind_Some in H as ([[arrays1 coll1] errors1] & Hmain & H).
  rewrite Hmain. cbn [mbind option_bind].
  apply bind_Some in H as (arrays2 & _ & H).
  apply bind_Some in H as ([arrays3 coll3] & _ & H).
  apply bind_Some in H as (surfaces & _ & H). injection H as _ _ <-.
  destruct (generate_blocky_mesh_spec _ _ _ _ _ _ _ _ _ _ _ Hmain) as (_ & _ & Hlen & _).
  destruct (proj2 (package_is_Some arrays1 (Library.indexed_materials_count lib)
                     (Output.surfaces output))) as [surfaces0 Hpack0]; [lia|].
  cbn -[package]. rewrite Hpack0. cbn [mbind option_bind]. eauto.
Qed.

(** A build at level 0 that returns, and whose seams can be appended, returns
    at any level whose scale is defined. *)
Lemma build_mesh_at_lod_k K p lib arrays output voxels hint k ids output_0 arrays_0
    errors seamed :
  0 < k < 32 ->
  build_mesh K p lib arrays output (Input.mk voxels 0 hint) ids
    = Some (output_0, arrays_0, errors) ->
  append_seams K ids (VoxelBuffer.get_size voxels) arrays_0 lib = Some seamed ->
  exists output_k s,
    lod_scale k = Some s
    /\ build_mesh K p lib arrays output (Input.mk voxels k hint) ids
       = Some (output_k, map (scale_arrays s) seamed, errors).
Proof.
  intros Hk H Hseams.
  destruct (build_mesh_spec _ _ _ _ _ _ _ _ _ _ H) as (_ & _ & _ & _ & Hlen0 & Hcount & _ & _).
  unfold build_mesh in *. cbn [Input.voxels Input.lod_index Input.collision_hint] in *.
  apply bind_Some in H as ([[arrays1 coll1] errors1] & Hmain & H).
  rewrite Hmain. cbn [mbind option_bind].
  change (0 <? 0) with false in H. cbn [mbind option_bind] in H.
  apply bind_Some in H as (surfaces & _ & H). injection H as _ <- <-.
  destruct (Z.ltb_spec 0 k); [|lia].
  rewrite Hseams. cbn [mbind option_bind].
  unfold lod_scale. destruct (Z.ltb_spec k 32); [|lia]. cbn [mbind option_bind].
  destruct (append_seams_spec _ _ _ _ _ _ Hseams) as (_ & _ & Hlen & _).
  destruct (proj2 (package_is_Some
                     (map (scale_arrays (inject_Z (wrap_int32 (Z.shiftl 1 k)))) seamed)
                     (Library.indexed_materials_count lib) (Output.surfaces output)))
    as [surfaces_k Hpack]; [rewrite length_map; lia|].
  rewrite Hpack. cbn [mbind option_bind]. eauto.
Qed.

(** X17. A build at [lod_index = k], [0 < k < 31] (where [1 << k] is 2^k in
    an [int]), that returns: the build of the same input at level 0 returns
    too; the arrays of each material at level 0 hold the surfaces of the main
    pass only; each position of level 0 appears at level k with its three
    coordinates multiplied by 2^k, at the same place, followed by the
    positions of the seam surfaces of that material, multiplied likewise, and
    by nothing else; the collision surface is the one of level 0 with the
    coordinates of every position multiplied by 2^k (left as it was when
    there is no collision hint).  When the build does not get to meshing,
    both levels leave the output untouched. *)
Theorem lod_scaling (K : Constants) (p : Parameters.t) (cache : list Arrays.t)
    (output : Output.t) (voxels : VoxelBuffer.t) (hint : bool) (k : Z)
    (output_k : Output.t) (arrays_k : list Arrays.t) (errors : list string) :
  0 < k < 31 ->
  build K p cache output (Input.mk voxels k hint) = Some (output_k, arrays_k, errors) ->
  exists output_0 arrays_0,
    build K p cache output (Input.mk voxels 0 hint) = Some (output_0, arrays_0, errors)
    /\ ((output_k = output /\ output_0 = output /\ arrays_k = arrays_0)
        \/ exists lib ids P Pseam,
             Parameters.library p = Some lib
             /\ model_ids voxels = Some ids
             /\ emitted_patches K ids (VoxelBuffer.get_size voxels) lib
                  (Parameters.bake_occlusion p) (build_occlusion_darkness p) = Some P
             /\ emitted_seam_patches K ids (VoxelBuffer.get_size voxels) lib = Some Pseam
             /\ length arrays_k = length arrays_0
             /\ (forall m a0, arrays_0 !! m = Some a0 ->
                   Arrays.positions a0 = flat_map patch_positions (of_material m P)
                   /\ exists ak,
                        arrays_k !! m = Some ak
                        /\ Arrays.positions ak
                           = map (fun q => mkVector3f (v3x q * inject_Z (2 ^ k))
                                             (v3y q * inject_Z (2 ^ k))
                                             (v3z q * inject_Z (2 ^ k)))
                               (Arrays.positions a0
                                ++ flat_map patch_positions (of_material m Pseam)))
             /\ (if hint
                 then CollisionSurface.positions (Output.collision_surface output_k)
                      = map (fun q => mkVector3f (v3x q * inject_Z (2 ^ k))
                                        (v3y q * inject_Z (2 ^ k))
                                        (v3z q * inject_Z (2 ^ k)))
                          (CollisionSurface.positions (Output.collision_surface output_0))
                 else Output.collision_surface output_k = Output.collision_surface output_0)).
Proof.
  intros Hk H.
  destruct (Parameters.library p) as [lib|] eqn:Hlib;
    [destruct (model_ids voxels) as [ids|] eqn:Hids|].
  - (* the build meshes *)
    pose proof H as Hbuild.
    rewrite (build_meshes K p cache output (Input.mk voxels k hint) lib ids Hlib Hids) in H.
    destruct (build_mesh_at_lod_0 _ _ _ _ _ _ _ _ _ _ _ _ H) as (output_0 & arrays_0 & H0).
    rewrite <- (build_meshes K p cache output (Input.mk voxels 0 hint) lib ids Hlib Hids) in H0.
    exists output_0, arrays_0. split; [exact H0|]. right.
    destruct (build_spec K p cache output (Input.mk voxels k hint) lib ids _ _ _
                Hlib Hids Hbuild) as (P & Pseam & HP & _ & Hseam & Hlenk & Harrk & Hcollk).
    destruct (build_spec K p cache output (Input.mk voxels 0 hint) lib ids _ _ _
                Hlib Hids H0) as (P0 & Pseam0 & HP0 & _ & Hseam0 & Hlen0 & Harr0 & Hcoll0).
    cbn [Input.lod_index Input.voxels Input.collision_hint] in *.
    assert (P0 = P) by congruence. subst P0.
    change (0 <? 0) with false in Hseam0. cbv iota in Hseam0.
    subst Pseam0. rewrite app_nil_r in Harr0.
    destruct (Z.ltb_spec 0 k) as [_|]; [|lia]. destruct Hseam as [HPseam _].
    unfold lod_scaled_arrays, lod_scaled_collision in *.
    change (0 <? 0) with false in *. cbv iota in Harr0, Hcoll0.
    destruct (Z.ltb_spec 0 k) as [_|]; [|lia].
    rewrite lod_scale_power in Harrk, Hcollk by lia.
    cbn [fmap option_fmap option_map default] in *.
    exists lib, ids, P, Pseam.
    split; [reflexivity|]. split; [reflexivity|]. split; [exact HP|].
    split; [exact HPseam|]. split; [congruence|]. split.
    + intros m a0 Ha0.
      assert (Hm : (m < length arrays_0)%nat) by (eapply lookup_lt_Some; eauto).
      rewrite (Harr0 m Hm) in Ha0. injection Ha0 as <-.
      rewrite render_positions. cbn [Arrays.positions Arrays.clear app].
      split; [reflexivity|].
      eexists. split; [apply Harrk; lia|].
      cbn [scale_arrays Arrays.positions id]. unfold id.
      rewrite render_positions. cbn [Arrays.positions Arrays.clear app].
      now rewrite of_material_app, flat_map_app.
    + rewrite Hcollk, Hcoll0. destruct hint; reflexivity.
  - (* the channel is not meshed *)
    destruct (build_returns_early K p cache output (Input.mk voxels k hint))
      as (cache' & errors' & Hk' & Hany); [right; exact Hids|].
    cbn [Input.voxels Input.collision_hint] in Hany.
    rewrite H in Hk'. injection Hk' as -> -> ->.
    exists output, cache'. split; [apply Hany|]. left. auto.
  - destruct (build_returns_early K p cache output (Input.mk voxels k hint))
      as (cache' & errors' & Hk' & Hany); [left; exact Hlib|].
    cbn [Input.voxels Input.collision_hint] in Hany.
    rewrite H in Hk'. injection Hk' as -> -> ->.
    exists output, cache'. split; [apply Hany|]. left. auto.
Qed.

Lemma lod_scaling_witness :
  exists (output_k output_0 : Output.t) (ak a0 : Arrays.t),
    build cube_constants cube_parameters [] Output.empty (Input.mk seam_buffer 2 true)
      = Some (output_k, [ak], [])
    /\ build cube_constants cube_parameters [] Output.empty (Input.mk seam_buffer 0 true)
       = Some (output_0, [a0], [])
    /\ length (Arrays.positions a0) = 16%nat
    /\ length (Arrays.positions ak) = 20%nat
    /\ take 16 (Arrays.positions ak)
       = map (fun q => mkVector3f (v3x q * 4) (v3y q * 4) (v3z q * 4)) (Arrays.positions a0)
    /\ take 3 (Arrays.positions a0)
       = [mkVector3f 1 0 0; mkVector3f 0 0 0; mkVector3f 0 0 1]
    /\ take 3 (Arrays.positions ak)
       = [mkVector3f 4 0 0; mkVector3f 0 0 0; mkVector3f 0 0 4]
    /\ take 3 (CollisionSurface.positions (Output.collision_surface output_k))
       = [mkVector3f 4 0 0; mkVector3f 0 0 0; mkVector3f 0 0 4].
Proof.
  destruct (build cube_constants cube_parameters [] Output.empty (Input.mk seam_buffer 2 true))
    as [[[output_k arrays_k] errors]|] eqn:E; [|vm_compute in E; discriminate E].
  assert (errors = []) as -> by (vm_compute in E; congruence).
  assert (Hk : 0 < 2 < 31) by lia.
  destruct (lod_scaling cube_constants cube_parameters [] Output.empty seam_buffer true 2
              output_k arrays_k [] Hk E) as (output_0 & arrays_0 & H0 & _).
  vm_compute in E, H0. injection E as <- <-. injection H0 as <- <-.
  eexists _, _, _, _. repeat split; reflexivity.
Defined.

(** C5, on the failing input. At [lod_index = 31] the shift [1 << 31] does not fit the [int] it is
    computed in: the scale is -2^31, and from 32 on the shift is undefined.
    A build at level 31 of a block with a cube and a cube on each side of it
    in the padding has every position of the level-0 build, in the arrays
    and in the collision surface, multiplied by -2^31 and not by 2^31; the
    first vertex, at (1, 0, 0), comes out at (-2147483648, 0, 0).  A build at
    level 32 is undefined. *)
Theorem lod_scale_overflows_at_level_31 :
  lod_scale 30 = Some (inject_Z (2 ^ 30))
  /\ lod_scale 31 = Some (inject_Z (- 2 ^ 31))
  /\ lod_scale 32 = None
  /\ build cube_constants cube_parameters [] Output.empty (Input.mk seam_buffer 32 true)
     = None
  /\ exists (output_0 output_31 : Output.t) (a0 a31 : Arrays.t),
       build cube_constants cube_parameters [] Output.empty (Input.mk seam_buffer 0 true)
       = Some (output_0, [a0], [])
       /\ build cube_constants cube_parameters [] Output.empty (Input.mk seam_buffer 31 true)
          = Some (output_31, [a31], [])
       /\ take (length (Arrays.positions a0)) (Arrays.positions a31)
          = map (fun q => mkVector3f (v3x q * inject_Z (- 2 ^ 31))
                            (v3y q * inject_Z (- 2 ^ 31))
                            (v3z q * inject_Z (- 2 ^ 31)))
                (Arrays.positions a0)
       /\ CollisionSurface.positions (Output.collision_surface output_31)
          = map (fun q => mkVector3f (v3x q * inject_Z (- 2 ^ 31))
                            (v3y q * inject_Z (- 2 ^ 31))
                            (v3z q * inject_Z (- 2 ^ 31)))
                (CollisionSurface.positions (Output.collision_surface output_0))
       /\ Arrays.positions a0 !! 0%nat = Some (mkVector3f 1 0 0)
       /\ Arrays.positions a31 !! 0%nat = Some (mkVector3f (-2147483648) 0 0)
       /\ CollisionSurface.positions (Output.collision_surface output_31) !! 0%nat
          = Some (mkVector3f (-2147483648) 0 0)
       /\ ~ (-2147483648 == 1 * inject_Z (2 ^ 31))%Q.
Proof.
  split; [reflexivity|]. split; [reflexivity|]. split; [reflexivity|].
  split; [vm_compute; reflexivity|].
  destruct (build cube_constants cube_parameters [] Output.empty (Input.mk seam_buffer 0 true))
    as [[[output_0 arrays_0] errors_0]|] eqn:E0; [|vm_compute in E0; discriminate E0].
  destruct (build cube_constants cube_parameters [] Output.empty (Input.mk seam_buffer 31 true))
    as [[[output_31 arrays_31] errors_31]|] eqn:E31; [|vm_compute in E31; discriminate E31].
  vm_compute in E0, E31. injection E0 as <- <- <-. injection E31 as <- <- <-.
  eexists _, _, _, _. split; [reflexivity|]. split; [reflexivity|].
  split; [vm_compute; reflexivity|]. split; [vm_compute; reflexivity|].
  split; [reflexivity|]. split; [reflexivity|]. split; [reflexivity|].
  intros H. vm_compute in H. discriminate H.
Qed.

(** ** Tangent arity *)

Lemma tangent_arity_app b t1 p1 t2 p2 :
  tangent_arity b t1 p1 -> tangent_arity b t2 p2 -> tangent_arity b (t1 + t2) (p1 + p2).
Proof. unfold tangent_arity. destruct b; lia. Qed.

Lemma copy_tangents_arity b vertex_count tangents copied :
  tangent_arity b (length tangents) vertex_count ->
  copy_tangents vertex_count tangents = Some copied ->
  tangent_arity b (length copied) vertex_count.
Proof.
  unfold copy_tangents, memcpy, tangent_arity. intros Ha H.
  destruct (Nat.ltb_spec 0 (length tangents)).
  - destruct (Nat.leb_spec (vertex_count * 4) (length tangents)); [|discriminate].
    injection H as <-. rewrite length_take. destruct b; lia.
  - injection H as <-. cbn. destruct b; lia.
Qed.

Lemma side_patch_arity K b bake d voxel side sc pos surface side_surface p :
  side_surface_arity b side_surface ->
  side_patch K bake d voxel side sc pos surface side_surface = Some p ->
  patch_arity b p.
Proof.
  intros Ha H. unfold side_patch in H.
  apply bind_Some in H as (uvs & _ & H). apply bind_Some in H as (tg & Htg & H).
  injection H as <-. unfold patch_arity. cbn [patch_tangents patch_positions].
  rewrite length_map. eapply copy_tangents_arity; eauto.
Qed.

Lemma inside_patch_arity b voxel pos surface p :
  surface_arity b surface ->
  inside_patch voxel pos surface = Some p ->
  patch_arity b p.
Proof.
  intros Ha H. unfold inside_patch in H.
  apply bind_Some in H as (tg & Htg & H). apply bind_Some in H as (nm & _ & H).
  apply bind_Some in H as (uvs & _ & H).
  injection H as <-. unfold patch_arity. cbn [patch_tangents patch_positions].
  rewrite length_map. eapply copy_tangents_arity; eauto.
Qed.

Lemma seam_patch_arity K b side pos voxel k p :
  model_ok (surface_arity b) (side_surface_arity b) voxel ->
  seam_patch K side pos voxel k = Some p ->
  patch_arity b p.
Proof.
  intros (_ & Hsides & _) H. unfold seam_patch in H.
  apply bind_Some in H as (surface & _ & H).
  apply bind_Some in H as (side_surface & Hss & H).
  apply bind_Some in H as (uvs & _ & H). apply bind_Some in H as (tg & Htg & H).
  injection H as <-. unfold patch_arity. cbn [patch_tangents patch_positions].
  rewrite length_map. eapply copy_tangents_arity; [|exact Htg].
  eapply (Forall_lookup_1 _ _ _ _ (Hsides side) Hss).
Qed.

Lemma set_position_y_length positions i y positions' :
  set_position_y positions i y = Some positions' -> length positions' = length positions.
Proof.
  unfold set_position_y. intros H. apply bind_Some in H as (q & _ & H).
  injection H as <-. apply length_insert.
Qed.

Lemma raise_top_vertices_arity b s h2 h3 s' :
  side_surface_arity b s -> raise_top_vertices s h2 h3 = Some s' -> side_surface_arity b s'.
Proof.
  unfold raise_top_vertices, side_surface_arity. intros Ha H.
  apply bind_Some in H as (p1 & H1 & H). apply bind_Some in H as (p2 & H2 & H).
  injection H as <-. cbn [SideSurface.tangents SideSurface.positions].
  apply set_position_y_length in H1, H2. now rewrite H2, H1.
Qed.

Lemma clear_arity b : side_surface_arity b SideSurface.clear.
Proof. destruct b; reflexivity. Qed.

Lemma copy_arity b src uv : fluid_surface_arity b src -> side_surface_arity b (copy src uv).
Proof. intros H. exact H. Qed.

Lemma generate_fluid_model_arity K b lib voxel tb idx yj xj zj r :
  uniform_tangents b lib ->
  model_ok (surface_arity b) (side_surface_arity b) voxel ->
  generate_fluid_model K voxel tb idx yj xj zj lib = Some r ->
  Forall (surface_arity b) r.1.1 /\ forall s, Forall (side_surface_arity b) (r.1.2 s).
Proof.
  intros [_ Hfluids] (Hsurf & _ & _) H. unfold generate_fluid_model in H.
  apply bind_Some in H as (top_id & _ & H).
  apply bind_Some in H as (covered & _ & H).
  apply bind_Some in H as (fluid & Hfluid & H).
  assert (Hf : forall side, fluid_surface_arity b (Fluid.side_surfaces fluid side))
    by (eapply (Forall_lookup_1 _ _ _ _ Hfluids Hfluid)).
  destruct covered.
  - injection H as <-. cbn [fst snd]. split; [exact Hsurf|].
    intros s. repeat constructor; try apply clear_arity.
    destruct s; try apply copy_arity, Hf. apply clear_arity.
  - apply bind_Some in H as (sampled & _ & H).
    apply bind_Some in H as (neg_x & Hnx & H).
    apply bind_Some in H as (pos_x & Hpx & H).
    apply bind_Some in H as (neg_z & Hnz & H).
    apply bind_Some in H as (pos_z & Hpz & H).
    apply bind_Some in H as (p0 & Hp0 & H).
    apply bind_Some in H as (p1 & Hp1 & H).
    apply bind_Some in H as (p2 & Hp2 & H).
    apply bind_Some in H as (p3 & Hp3 & H).
    apply bind_Some in H as (top_indices & _ & H).
    injection H as <-. cbn [fst snd]. split.
    + repeat constructor. unfold surface_arity.
      cbn [Surface.tangents Surface.positions].
      apply set_position_y_length in Hp0, Hp1, Hp2, Hp3.
      rewrite Hp3, Hp2, Hp1, Hp0. apply Hf.
    + intros s. repeat constructor; try apply clear_arity.
      destruct s; try apply clear_arity;
        try (eapply raise_top_vertices_arity; [|eassumption]; apply copy_arity, Hf).
      apply copy_arity, Hf.
Qed.

Lemma uniform_model_ok b lib id voxel :
  uniform_tangents b lib -> get_model lib id = Some voxel ->
  model_ok (surface_arity b) (side_surface_arity b) voxel.
Proof.
  intros [Hmodels _] H. unfold get_model in H.
  destruct (id <? 0); [discriminate|].
  eapply (Forall_lookup_1 _ _ _ _ Hmodels H).
Qed.

Lemma snoc_keeps (Good : Patch -> Prop) (l : list Patch) (u : unit) p l' :
  Good p -> Forall Good l -> snoc l p = Some l' ->
  exists u', discard u p = Some u' /\ Forall Good l'.
Proof.
  intros Hp Hl H. injection H as <-. exists tt. split; [reflexivity|].
  apply Forall_app. split; [exact Hl | repeat constructor; exact Hp].
Qed.

(** Every surface the main pass emits has the tangent arity of the library. *)
Lemma emitted_patches_arity K b type_buffer block_size lib bake d P :
  uniform_tangents b lib ->
  emitted_patches K type_buffer block_size lib bake d = Some P ->
  Forall (patch_arity b) P.
Proof.
  intros Hu H. unfold emitted_patches in H.
  destruct (block_too_small block_size); [injection H as <-; constructor|].
  destruct (mesh_block_sim snoc discard (fun l _ => Forall (patch_arity b) l)
              (patch_arity b) (surface_arity b) (side_surface_arity b) K lib) 
    with (type_buffer := type_buffer) (bake_occlusion := bake)
         (baked_occlusion_darkness := d) (block_size := block_size)
         (s := @nil Patch) (t := tt) (s' := P) as (_ & _ & HP); try assumption.
  - intros; eapply snoc_keeps; eauto.
  - intros; eapply side_patch_arity; eauto.
  - intros; eapply inside_patch_arity; eauto.
  - intros; eapply uniform_model_ok; eauto.
  - intros; eapply generate_fluid_model_arity; eauto.
  - constructor.
Qed.

Lemma emitted_seam_patches_arity K b buffer size lib P :
  uniform_tangents b lib ->
  emitted_seam_patches K buffer size lib = Some P ->
  Forall (patch_arity b) P.
Proof.
  intros Hu H. unfold emitted_seam_patches in H.
  destruct (seams_sim snoc discard (fun l _ => Forall (patch_arity b) l)
              (patch_arity b) (surface_arity b) (side_surface_arity b) K lib)
    with (buffer := buffer) (size := size)
         (s := @nil Patch) (t := tt) (s' := P) as (_ & _ & HP); try assumption.
  - intros; eapply snoc_keeps; eauto.
  - intros; eapply seam_patch_arity; eauto.
  - intros; eapply uniform_model_ok; eauto.
  - constructor.
Qed.

Lemma render_arity b a off P :
  arrays_arity b a -> Forall (patch_arity b) P -> arrays_arity b (render a off P).
Proof.
  revert a off. induction P as [|p P IH]; intros a off Ha HP; [exact Ha|].
  inversion HP as [|? ? Hp HP']; subst. cbn [render]. apply IH; [|exact HP'].
  unfold arrays_arity, append_to_arrays. cbn [Arrays.tangents Arrays.positions].
  rewrite !length_app. now apply tangent_arity_app.
Qed.

Lemma lod_scaled_arrays_arity b lod a :
  arrays_arity b a -> arrays_arity b (lod_scaled_arrays lod a).
Proof.
  unfold lod_scaled_arrays, arrays_arity. intros Ha.
  destruct (0 <? lod); [|exact Ha].
  destruct (lod_scale lod); [|exact Ha].
  cbn. now rewrite length_map.
Qed.

Lemma cleared_arity b (l : list Arrays.t) n :
  Forall (arrays_arity b) (grow (map (fun _ => Arrays.clear) l) n).
Proof.
  apply Forall_lookup. intros i a Ha. apply lookup_grow_clear in Ha. subst a.
  destruct b; reflexivity.
Qed.

(** C9, as amended. When every baked surface of the library (surfaces, side
    surfaces, cut-outs, fluid sides) carries four tangent floats per vertex,
    the tangents of each array per material after a build are four times its
    positions; when none carries tangents, they are empty. *)
Theorem tangent_arity_of_a_uniform_library (K : Constants) (p : Parameters.t)
    (cache : list Arrays.t) (output : Output.t) (input : Input.t) (lib : Library.t)
    (with_tangents : bool) (output' : Output.t) (arrays' : list Arrays.t)
    (errors : list string) :
  Parameters.library p = Some lib ->
  uniform_tangents with_tangents lib ->
  build K p cache output input = Some (output', arrays', errors) ->
  Forall (fun a => length (Arrays.tangents a)
                   = if with_tangents then (4 * length (Arrays.positions a))%nat else 0%nat)
         arrays'.
Proof.
  intros Hlib Hu H.
  assert (Hgoal : Forall (arrays_arity with_tangents) arrays').
  { destruct (model_ids (Input.voxels input)) as [ids|] eqn:Hids.
    - destruct (build_spec K p cache output input lib ids _ _ _ Hlib Hids H)
        as (P & Pseam & HP & _ & Hseam & _ & Harr & _).
      apply Forall_lookup. intros m a Ha.
      rewrite (Harr m) in Ha by (eapply lookup_lt_Some; eauto). injection Ha as <-.
      apply lod_scaled_arrays_arity, render_arity; [destruct with_tangents; reflexivity|].
      assert (Hall : Forall (patch_arity with_tangents) (P ++ Pseam)); [apply Forall_app; split|].
      3: { rewrite Forall_forall in Hall |- *. intros q Hq.
           apply list_elem_of_filter in Hq as [_ Hq]. now apply Hall. }
      + eapply emitted_patches_arity; eauto.
      + destruct (0 <? Input.lod_index input).
        * destruct Hseam as [Hseam _]. eapply emitted_seam_patches_arity; eauto.
        * subst Pseam. constructor.
    - unfold build, model_ids in *. rewrite Hlib in H.
      pose proof (cleared_arity with_tangents cache 0) as Hc0.
      pose proof (cleared_arity with_tangents cache (Library.indexed_materials_count lib)) as Hc.
      unfold grow in Hc0. cbn [Nat.ltb Nat.leb] in Hc0.
      destruct (VoxelBuffer.get_channel_compression _);
        [|injection H as _ <- _; exact Hc0|injection H as _ <- _; exact Hc0].
      destruct (VoxelBuffer.get_channel_as_bytes_read_only _);
        [|injection H as _ <- _; exact Hc0].
      destruct (VoxelBuffer.get_channel_depth _); try discriminate;
        injection H as _ <- _; exact Hc. }
  eapply Forall_impl; [exact Hgoal|].
  intros a Ha. unfold arrays_arity, tangent_arity in Ha.
  destruct with_tangents; exact Ha.
Qed.

Lemma tangent_arity_of_a_uniform_library_witness :
  exists (output' : Output.t) (arrays' : list Arrays.t),
    build cube_constants cube_parameters [] Output.empty (Input.mk seam_buffer 1 true)
      = Some (output', arrays', [])
    /\ map (fun a => length (Arrays.positions a)) arrays' = [20%nat]
    /\ Forall (fun a => length (Arrays.tangents a) = 0%nat) arrays'.
Proof.
  destruct (build cube_constants cube_parameters [] Output.empty (Input.mk seam_buffer 1 true))
    as [[[output' arrays'] errors]|] eqn:E; [|vm_compute in E; discriminate E].
  assert (errors = []) as -> by (vm_compute in E; congruence).
  exists output', arrays'. split; [reflexivity|]. split.
  - vm_compute in E. injection E as _ <-. reflexivity.
  - apply (tangent_arity_of_a_uniform_library cube_constants cube_parameters []
             Output.empty (Input.mk seam_buffer 1 true) cube_library false
             output' arrays' [] eq_refl); [|exact E].
    split; [|constructor].
    constructor; [|constructor; [|constructor]].
    + split; [repeat constructor|]. split.
      * intros side. repeat constructor.
      * intros side shape cut Hcut. discriminate Hcut.
    + split; [repeat constructor|]. split.
      * intros side. destruct side; repeat constructor.
      * intros side shape cut Hcut. discriminate Hcut.
Defined.

(** C9, as stated, fails: one cube whose -x side alone carries tangents gives
    24 positions and 16 tangent floats. *)
Lemma mixed_tangents_break_the_arity :
  ~ tangents_absent_or_complete cube_constants half_tangent_parameters [] Output.empty
      (Input.mk (voxel_buffer (mkVector3i 3 3 3) [(1, 1, 1, 1)]) 0 false).
Proof.
  intros Hclaim.
  destruct (build cube_constants half_tangent_parameters [] Output.empty
              (Input.mk (voxel_buffer (mkVector3i 3 3 3) [(1, 1, 1, 1)]) 0 false))
    as [[[output' arrays'] errors]|] eqn:E; [|vm_compute in E; discriminate E].
  specialize (Hclaim output' arrays' errors E).
  vm_compute in E. injection E as _ <- _.
  apply Forall_inv in Hclaim. cbn in Hclaim. destruct Hclaim; discriminate.
Qed.

(** ** Identifiers without a model *)

(** In the main pass a voxel without a model is skipped... *)
Lemma unknown_voxel_is_skipped {S : Type} (emit : S -> Patch -> option S) K lib
    type_buffer row_size deck_size bake d (st : S) x y z id :
  read type_buffer (y + x * row_size + z * deck_size) = Some id ->
  has_model lib id = false ->
  mesh_voxel K lib type_buffer row_size deck_size emit bake d st x y z = Some st.
Proof.
  intros Hread Hid. unfold mesh_voxel. rewrite Hread. cbn [mbind option_bind].
  rewrite Hid. now rewrite orb_true_r.
Qed.

(** ... and a neighbour without a model neither occludes nor cuts a side. *)
Lemma unknown_neighbor_never_occludes K lib type_buffer row_size deck_size voxel
    model_sides_surfaces voxel_index side id :
  read type_buffer (voxel_index + side_neighbor_lut row_size deck_size side) = Some id ->
  has_model lib id = false ->
  visible_side_surfaces K lib type_buffer row_size deck_size voxel model_sides_surfaces
    voxel_index side = Some (Some (model_sides_surfaces side)).
Proof.
  intros Hread Hid. unfold visible_side_surfaces. rewrite Hread.
  cbn [mbind option_bind]. now rewrite Hid.
Qed.

(** In the seam pass the inner voxel is looked up without that test. *)
Lemma seam_voxel_unknown_inner {S : Type} (emit : S -> Patch -> option S) K buffer jump
    z side lib (st : S) x y v nv0 nv1 nv2 nv3 nv4 :
  let buffer_index := x * ix jump + y * iy jump + z * iz jump in
  read buffer buffer_index = Some v -> v <> 0 ->
  read buffer (buffer_index - ix jump) = Some nv0 ->
  read buffer (buffer_index + ix jump) = Some nv1 ->
  read buffer (buffer_index - iy jump) = Some nv2 ->
  read buffer (buffer_index + iy jump) = Some nv3 ->
  nv0 = 0 \/ nv1 = 0 \/ nv2 = 0 \/ nv3 = 0 ->
  read buffer (buffer_index - get_side_sign side * iz jump) = Some nv4 ->
  0 < nv4 -> has_model lib nv4 = false ->
  seam_voxel emit K buffer jump z side lib st x y = None.
Proof.
  intros buffer_index Hv Hv0 H0 H1 H2 H3 Hair H4 Hnv4 Hid.
  unfold seam_voxel. fold buffer_index.
  rewrite Hv. cbn [mbind option_bind].
  destruct (Z.eqb_spec v 0); [contradiction|].
  rewrite H0, H1, H2, H3. cbn [mbind option_bind].
  assert (Hexposed : negb (nv0 =? 0) && negb (nv1 =? 0) && negb (nv2 =? 0)
                     && negb (nv3 =? 0) = false).
  { destruct Hair as [Ha|[Ha|[Ha|Ha]]]; rewrite Ha; cbn;
      rewrite ?andb_false_r; reflexivity. }
  rewrite Hexposed, H4. cbn [mbind option_bind].
  destruct (Z.eqb_spec nv4 0); [lia|].
  destruct (get_model lib nv4) eqn:E; [|reflexivity].
  assert (has_model lib nv4 = true) by (apply has_model_get_model; eauto). congruence.
Qed.

(** C1, on the failing input. 5 is not the identifier of a model.  At level 0
    the build of a block with 5 at the inner voxel (1,1,1) is the build of the
    block with air there, and so would the claim have it at level 1, where the
    block with air builds to an empty output; but the seam pass of level 1
    finds the cube in the padding at (0,1,1) exposed, takes 5 for a voxel that
    is not air and reads [library.models[5]], out of bounds.  With the
    identifier of a model at (1,1,1) the same build is defined. *)
Theorem seam_pass_looks_up_an_unknown_inner_voxel :
  has_model cube_library 5 = false
  /\ build cube_constants cube_parameters [] Output.empty (Input.mk (x_seam_buffer 5) 0 true)
     = build cube_constants cube_parameters [] Output.empty (Input.mk (x_seam_buffer 0) 0 true)
  /\ build cube_constants cube_parameters [] Output.empty (Input.mk (x_seam_buffer 0) 1 true)
     = Some (Output.empty, [Arrays.clear], [])
  /\ build cube_constants cube_parameters [] Output.empty (Input.mk (x_seam_buffer 1) 1 true)
     <> None
  /\ build cube_constants cube_parameters [] Output.empty (Input.mk (x_seam_buffer 5) 1 true)
     = None
  /\ seam_voxel append_seam_patch cube_constants
       (as_uint8 (default [] (VoxelBuffer.get_channel_as_bytes_read_only (x_seam_buffer 5))))
       (mkVector3i 9 1 3) 0 SIDE_NEGATIVE_X cube_library [Arrays.clear] 1 1
     = None.
Proof.
  split; [vm_compute; reflexivity|]. split; [vm_compute; reflexivity|].
  split; [vm_compute; reflexivity|]. split; [vm_compute; discriminate|].
  split; vm_compute; reflexivity.
Qed.

(** ** The side surface of a seam *)

(** The seam pass emits for an outer voxel exactly when it is not air, one of
    its four neighbours in the layer is air and the inner voxel behind it is
    not air; it then emits one surface per surface of the inner model. *)
Lemma seam_voxel_emits_when_exposed {S : Type} (emit : S -> Patch -> option S) K buffer
    jump z side lib (st : S) x y v nv0 nv1 nv2 nv3 nv4 :
  let buffer_index := x * ix jump + y * iy jump + z * iz jump in
  read buffer buffer_index = Some v ->
  read buffer (buffer_index - ix jump) = Some nv0 ->
  read buffer (buffer_index + ix jump) = Some nv1 ->
  read buffer (buffer_index - iy jump) = Some nv2 ->
  read buffer (buffer_index + iy jump) = Some nv3 ->
  read buffer (buffer_index - get_side_sign side * iz jump) = Some nv4 ->
  seam_voxel emit K buffer jump z side lib st x y
  = if negb (v =? 0)
       && ((nv0 =? 0) || (nv1 =? 0) || (nv2 =? 0) || (nv3 =? 0))
       && negb (nv4 =? 0)
    then
      voxel_baked_data ← get_model lib nv4;
      foldM (fun st surface_index =>
               p ← seam_patch K side
                     (side_to_block_coordinates
                        (mkVector3f (inject_Z (x - 1)) (inject_Z (y - 1))
                           (inject_Z (z - (get_side_sign side + 1)))) side)
                     voxel_baked_data surface_index;
               emit st p)
            st (seq 0 (Model.surface_count (BakedData.model voxel_baked_data)))
    else Some st.
Proof.
  intros buffer_index Hv H0 H1 H2 H3 H4. unfold seam_voxel. fold buffer_index.
  rewrite Hv. cbn [mbind option_bind].
  destruct (v =? 0); [reflexivity|].
  rewrite H0, H1, H2, H3. cbn [mbind option_bind].
  destruct (nv0 =? 0), (nv1 =? 0), (nv2 =? 0), (nv3 =? 0); cbn [negb andb orb];
    try (rewrite H4; cbn [mbind option_bind]; destruct (nv4 =? 0); reflexivity);
    reflexivity.
Qed.

(** The seam pass emits, for every surface of the inner model, the same side
    surface: the one in slot [side] of the side. *)
Lemma seam_patch_ignores_the_surface K side pos voxel k k' p p' :
  seam_patch K side pos voxel k = Some p ->
  seam_patch K side pos voxel k' = Some p' ->
  patch_positions p = patch_positions p' /\ patch_uvs p = patch_uvs p'
  /\ patch_indices p = patch_indices p' /\ patch_tangents p = patch_tangents p'.
Proof.
  unfold seam_patch. intros H H'.
  apply bind_Some in H as (sf & _ & H). apply bind_Some in H' as (sf' & _ & H').
  destruct (Model.sides_surfaces (BakedData.model voxel) side !! side_index side)
    as [ss|]; [|discriminate].
  cbn [mbind option_bind] in H, H'.
  destruct (memcpy _ _); [|discriminate]. destruct (copy_tangents _ _); [|discriminate].
  cbn [mbind option_bind] in H, H'.
  injection H as <-. injection H' as <-. cbn. auto.
Qed.

(** A side whose number is 2 or more has no such slot. *)
Lemma seam_patch_out_of_slots K side pos voxel k :
  length (Model.sides_surfaces (BakedData.model voxel) side) = MAX_SURFACES ->
  (MAX_SURFACES <= side_index side)%nat ->
  seam_patch K side pos voxel k = None.
Proof.
  intros Hlen Hside. unfold seam_patch.
  destruct (Model.surfaces (BakedData.model voxel) !! k); [|reflexivity].
  cbn [mbind option_bind]. rewrite lookup_ge_None_2 by lia. reflexivity.
Qed.

(** C3, on the failing input. A cube in the padding at (1,1,0), exposed in its
    layer, in front of the cube at (1,1,1): the seam pass is to emit the -z
    side surface of the inner cube, but reads slot 4 of the two-slot array of
    that side and the build at level 1 is undefined, while the one at level 0
    is not.  On the -x side, whose number is a valid slot, the two surfaces of
    a model get the same side surface although their own differ. *)
Theorem seam_pass_indexes_the_side_surfaces_by_side :
  seam_patch cube_constants SIDE_NEGATIVE_Z (mkVector3f 0 0 0) cube_model 0 = None
  /\ build cube_constants cube_parameters [] Output.empty (Input.mk (z_seam_buffer 1) 1 false)
     = None
  /\ build cube_constants cube_parameters [] Output.empty (Input.mk (z_seam_buffer 1) 0 false)
     <> None
  /\ (patch_uvs <$> seam_patch cube_constants SIDE_NEGATIVE_X (mkVector3f 0 0 0)
                      two_surface_model 0)
     = (patch_uvs <$> seam_patch cube_constants SIDE_NEGATIVE_X (mkVector3f 0 0 0)
                        two_surface_model 1)
  /\ SideSurface.uvs (quad SIDE_NEGATIVE_X) <> SideSurface.uvs (other_quad SIDE_NEGATIVE_X).
Proof.
  split; [vm_compute; reflexivity|]. split; [vm_compute; reflexivity|].
  split; [vm_compute; discriminate|]. split; [vm_compute; reflexivity|].
  vm_compute. discriminate.
Qed.

(** * More properties of the code *)

(** ** Invariants of the emitted surfaces *)

(** A property of the baked surfaces that every emitted surface inherits. *)
Section Emitted.
Variable Good : Patch -> Prop.
Variable SF : Surface.t -> Prop.
Variable SS : SideSurface.t -> Prop.
Variable K : Constants.
Variable lib : Library.t.

Hypothesis side_patch_ok : forall bake d voxel side sc pos surface side_surface p,
  SF surface -> SS side_surface ->
  side_patch K bake d voxel side sc pos surface side_surface = Some p -> Good p.
Hypothesis inside_patch_ok : forall voxel pos surface p,
  SF surface -> inside_patch voxel pos surface = Some p -> Good p.
Hypothesis seam_patch_ok : forall side pos voxel k p,
  model_ok SF SS voxel -> seam_patch K side pos voxel k = Some p -> Good p.
Hypothesis models_ok : forall id voxel,
  get_model lib id = Some voxel -> model_ok SF SS voxel.
Hypothesis fluid_ok : forall voxel tb idx yj xj zj r,
  model_ok SF SS voxel ->
  generate_fluid_model K voxel tb idx yj xj zj lib = Some r ->
  Forall SF r.1.1 /\ forall s, Forall SS (r.1.2 s).

Lemma emitted_patches_good type_buffer block_size bake d P :
  emitted_patches K type_buffer block_size lib bake d = Some P -> Forall Good P.
Proof.
  intros H. unfold emitted_patches in H.
  destruct (block_too_small block_size); [injection H as <-; constructor|].
  destruct (mesh_block_sim snoc discard (fun l _ => Forall Good l) Good SF SS K lib)
    with (type_buffer := type_buffer) (bake_occlusion := bake)
         (baked_occlusion_darkness := d) (block_size := block_size)
         (s := @nil Patch) (t := tt) (s' := P) as (_ & _ & HP); try assumption.
  - intros; eapply snoc_keeps; eauto.
  - constructor.
Qed.

Lemma emitted_seam_patches_good buffer size P :
  emitted_seam_patches K buffer size lib = Some P -> Forall Good P.
Proof.
  intros H. unfold emitted_seam_patches in H.
  destruct (seams_sim snoc discard (fun l _ => Forall Good l) Good SF SS K lib)
    with (buffer := buffer) (size := size)
         (s := @nil Patch) (t := tt) (s' := P) as (_ & _ & HP); try assumption.
  - intros; eapply snoc_keeps; eauto.
  - constructor.
Qed.

(** ... and a property of the arrays that appending such a surface keeps, as
    does the scaling. *)
Variable Inv : Arrays.t -> Prop.
Hypothesis Inv_clear : Inv Arrays.clear.
Hypothesis Inv_append : forall a p,
  Inv a -> Good p -> Inv (append_to_arrays a (Z.of_nat (length (Arrays.positions a))) p).
Hypothesis Inv_scale : forall s a, Inv a -> Inv (scale_arrays s a).

Lemma render_good a P :
  Inv a -> Forall Good P -> Inv (render a (Z.of_nat (length (Arrays.positions a))) P).
Proof.
  revert a. induction P as [|p P IH]; intros a Ha HP; [exact Ha|].
  inversion HP as [|? ? Hp HP']; subst. cbn [render].
  replace (Z.of_nat (length (Arrays.positions a)) + vertex_count p)
    with (Z.of_nat (length (Arrays.positions
            (append_to_arrays a (Z.of_nat (length (Arrays.positions a))) p)))).
  - apply IH; [apply Inv_append; assumption | exact HP'].
  - cbn [append_to_arrays Arrays.positions]. rewrite length_app. unfold vertex_count. lia.
Qed.

Lemma build_arrays_good p cache output input output' arrays' errors :
  Parameters.library p = Some lib ->
  build K p cache output input = Some (output', arrays', errors) ->
  Forall Inv arrays'.
Proof.
  intros Hlib H.
  destruct (model_ids (Input.voxels input)) as [ids|] eqn:Hids.
  - destruct (build_spec K p cache output input lib ids _ _ _ Hlib Hids H)
      as (P & Pseam & HP & _ & Hseam & _ & Harr & _).
    apply Forall_lookup. intros m a Ha.
    rewrite (Harr m) in Ha by (eapply lookup_lt_Some; eauto). injection Ha as <-.
    assert (Hall : Forall Good (P ++ Pseam)).
    { apply Forall_app. split; [eapply emitted_patches_good; eauto|].
      destruct (0 <? Input.lod_index input).
      - destruct Hseam as [Hseam _]. eapply emitted_seam_patches_good; eauto.
      - subst Pseam. constructor. }
    assert (Hm : Forall Good (of_material m (P ++ Pseam))).
    { rewrite Forall_forall in Hall |- *. intros q Hq.
      apply list_elem_of_filter in Hq as [_ Hq]. now apply Hall. }
    pose proof (render_good Arrays.clear _ Inv_clear Hm) as Hr.
    cbn [Arrays.clear Arrays.positions length] in Hr.
    unfold lod_scaled_arrays.
    destruct (0 <? Input.lod_index input); [|exact Hr].
    destruct (lod_scale (Input.lod_index input)); cbn; [apply Inv_scale|]; exact Hr.
  - assert (Hc : forall n, Forall Inv (grow (map (fun _ => Arrays.clear) cache) n)).
    { intros n. apply Forall_lookup. intros i a Ha.
      apply lookup_grow_clear in Ha. subst a. exact Inv_clear. }
    pose proof (Hc 0%nat) as Hc0. unfold grow in Hc0. cbn [Nat.ltb Nat.leb] in Hc0.
    unfold build, model_ids in *. rewrite Hlib in H.
    destruct (VoxelBuffer.get_channel_compression _);
      [|injection H as _ <- _; exact Hc0|injection H as _ <- _; exact Hc0].
    destruct (VoxelBuffer.get_channel_as_bytes_read_only _);
      [|injection H as _ <- _; exact Hc0].
    destruct (VoxelBuffer.get_channel_depth _); try discriminate;
      injection H as _ <- _; apply Hc.
Qed.

End Emitted.

(** The output surfaces of a build that gets to meshing. *)
Lemma package_packaged arrays n surfaces surfaces' :
  package arrays n surfaces = Some surfaces' -> surfaces' = surfaces ++ packaged arrays n.
Proof.
  unfold package, packaged. generalize (seq 0 n). intros l. revert surfaces.
  induction l as [|m l IH]; intros surfaces H; cbn [foldM omap list_omap] in *.
  - injection H as <-. now rewrite app_nil_r.
  - apply bind_Some in H as (s1 & H1 & H).
    apply bind_Some in H1 as (a & Ha & H1). injection H1 as <-.
    rewrite Ha. cbn [mbind option_bind].
    apply IH in H. rewrite H.
    destruct (bool_decide (Arrays.positions a = [])); [reflexivity|].
    now rewrite <- app_assoc.
Qed.

Lemma build_mesh_surfaces K p lib arrays output input ids output' arrays' errors :
  build_mesh K p lib arrays output input ids = Some (output', arrays', errors) ->
  Output.surfaces output'
  = Output.surfaces output ++ packaged arrays' (Library.indexed_materials_count lib)
  /\ Output.primitive_type output' = PRIMITIVE_TRIANGLES.
Proof.
  intros H. unfold build_mesh in H.
  apply bind_Some in H as ([[arrays1 coll1] errors1] & Hmain & H).
  apply bind_Some in H as (arrays2 & Hseams & H).
  apply bind_Some in H as ([arrays3 coll3] & Hscale & H).
  apply bind_Some in H as (surfaces & Hpack & H).
  injection H as <- <- <-. cbn [Output.surfaces Output.primitive_type].
  split; [|reflexivity]. now apply package_packaged.
Qed.

Lemma build_new_surfaces K p cache output input lib output' arrays' errors :
  Parameters.library p = Some lib ->
  build K p cache output input = Some (output', arrays', errors) ->
  exists new,
    Output.surfaces output' = Output.surfaces output ++ new
    /\ (new = [] \/ new = packaged arrays' (Library.indexed_materials_count lib)).
Proof.
  intros Hlib H.
  destruct (model_ids (Input.voxels input)) as [ids|] eqn:Hids.
  - rewrite (build_meshes K p cache output input lib ids Hlib Hids) in H.
    apply build_mesh_surfaces in H as [H _]. eauto.
  - destruct (build_returns_early K p cache output input) as (c & e & He & _);
      [right; exact Hids|].
    rewrite H in He. injection He as -> _ _.
    exists []. split; [now rewrite app_nil_r | now left].
Qed.

Lemma elem_of_packaged arrays n s :
  s ∈ packaged arrays n ->
  exists a, arrays !! OutputSurface.material_index s = Some a
            /\ Arrays.positions a <> []
            /\ OutputSurface.arrays s = mesh_arrays_of a
            /\ (OutputSurface.material_index s < n)%nat.
Proof.
  unfold packaged. intros H. apply list_elem_of_omap in H as (m & Hm & H).
  apply bind_Some in H as (a & Ha & H).
  destruct (bool_decide_reflect (Arrays.positions a = [])) as [|Hne]; [discriminate|].
  injection H as <-. cbn. exists a. repeat split; try assumption.
  apply elem_of_seq in Hm. lia.
Qed.

(** *** One normal, UV and colour per vertex *)

Lemma length_memcpy {A : Type} n (l l' : list A) : memcpy n l = Some l' -> length l' = n.
Proof.
  unfold memcpy. intros Hm.
  destruct (Nat.leb_spec n (length l)); [|discriminate].
  injection Hm as <-. rewrite length_take. lia.
Qed.

Lemma length_side_colors K bake d side sc color positions :
  length (side_colors K bake d side sc color positions) = length positions.
Proof.
  unfold side_colors. destruct bake; [apply length_map | apply length_replicate].
Qed.

Lemma side_patch_aligned K bake d voxel side sc pos surface side_surface p :
  side_patch K bake d voxel side sc pos surface side_surface = Some p -> patch_aligned p.
Proof.
  unfold side_patch. intros H.
  apply bind_Some in H as (uvs & Huvs & H). apply bind_Some in H as (tg & _ & H).
  injection H as <-. unfold patch_aligned.
  cbn [patch_normals patch_uvs patch_colors patch_positions].
  rewrite length_map, length_replicate, length_side_colors.
  apply length_memcpy in Huvs. auto.
Qed.

Lemma inside_patch_aligned voxel pos surface p :
  inside_patch voxel pos surface = Some p -> patch_aligned p.
Proof.
  unfold inside_patch. intros H.
  apply bind_Some in H as (tg & _ & H). apply bind_Some in H as (nm & Hnm & H).
  apply bind_Some in H as (uvs & Huvs & H).
  injection H as <-. unfold patch_aligned.
  cbn [patch_normals patch_uvs patch_colors patch_positions].
  rewrite length_map, length_replicate.
  apply length_memcpy in Huvs, Hnm. auto.
Qed.

Lemma seam_patch_aligned K side pos voxel k p :
  seam_patch K side pos voxel k = Some p -> patch_aligned p.
Proof.
  unfold seam_patch. intros H.
  apply bind_Some in H as (surface & _ & H).
  apply bind_Some in H as (side_surface & _ & H).
  apply bind_Some in H as (uvs & Huvs & H). apply bind_Some in H as (tg & _ & H).
  injection H as <-. unfold patch_aligned.
  cbn [patch_normals patch_uvs patch_colors patch_positions].
  rewrite length_map, !length_replicate.
  apply length_memcpy in Huvs. auto.
Qed.

Lemma append_aligned a off p :
  arrays_aligned a -> patch_aligned p -> arrays_aligned (append_to_arrays a off p).
Proof.
  unfold arrays_aligned, patch_aligned, append_to_arrays.
  cbn [Arrays.normals Arrays.uvs Arrays.colors Arrays.positions].
  rewrite !length_app. lia.
Qed.

Lemma scale_aligned s a : arrays_aligned a -> arrays_aligned (scale_arrays s a).
Proof.
  unfold arrays_aligned, scale_arrays.
  cbn [Arrays.normals Arrays.uvs Arrays.colors Arrays.positions].
  now rewrite length_map.
Qed.

(** X1. Whatever the library and the buffer, a build leaves in the arrays of
    each material, and in each surface it adds to the output, exactly one
    normal, one UV and one colour per vertex. *)
Theorem every_vertex_has_its_attributes (K : Constants) (p : Parameters.t)
    (cache : list Arrays.t) (output : Output.t) (input : Input.t) (lib : Library.t)
    (output' : Output.t) (arrays' : list Arrays.t) (errors : list string) :
  Parameters.library p = Some lib ->
  build K p cache output input = Some (output', arrays', errors) ->
  Forall arrays_aligned arrays'
  /\ exists new,
       Output.surfaces output' = Output.surfaces output ++ new
       /\ Forall (fun s => mesh_arrays_aligned (OutputSurface.arrays s)) new.
Proof.
  intros Hlib H.
  assert (Harr : Forall arrays_aligned arrays').
  { eapply (build_arrays_good patch_aligned (fun _ => True) (fun _ => True) K lib)
      with (Inv := arrays_aligned); try eassumption.
    - intros; eapply side_patch_aligned; eauto.
    - intros; eapply inside_patch_aligned; eauto.
    - intros; eapply seam_patch_aligned; eauto.
    - intros; apply trivially_ok.
    - intros. split; [|intros ?]; apply Forall_true; trivial.
    - repeat split.
    - intros; now apply append_aligned.
    - intros; now apply scale_aligned. }
  split; [exact Harr|].
  destruct (build_new_surfaces K p cache output input lib _ _ _ Hlib H)
    as (new & Hnew & Hcase).
  exists new. split; [exact Hnew|].
  destruct Hcase as [->| ->]; [constructor|].
  apply Forall_forall. intros s Hs.
  apply elem_of_packaged in Hs as (a & Ha & _ & -> & _).
  apply (Forall_lookup_1 _ _ _ _ Harr Ha).
Qed.

Lemma every_vertex_has_its_attributes_witness :
  exists (output' : Output.t) (arrays' : list Arrays.t),
    build cube_constants cube_parameters [] Output.empty (Input.mk seam_buffer 1 true)
      = Some (output', arrays', [])
    /\ Forall arrays_aligned arrays'
    /\ map (fun s => length (MeshArrays.vertex (OutputSurface.arrays s)))
           (Output.surfaces output') = [20%nat].
Proof.
  destruct (build cube_constants cube_parameters [] Output.empty (Input.mk seam_buffer 1 true))
    as [[[output' arrays'] errors]|] eqn:E; [|vm_compute in E; discriminate E].
  assert (errors = []) as -> by (vm_compute in E; congruence).
  exists output', arrays'. split; [reflexivity|]. split.
  - apply (every_vertex_has_its_attributes cube_constants cube_parameters []
             Output.empty (Input.mk seam_buffer 1 true) cube_library
             output' arrays' [] eq_refl E).
  - vm_compute in E. injection E as <- _. reflexivity.
Defined.

(** *** Triangle lists *)

Lemma triangles_within_app i1 n1 i2 n2 :
  triangles_within i1 n1 -> triangles_within i2 n2 ->
  triangles_within (i1 ++ map (Z.add (Z.of_nat n1)) i2) (n1 + n2).
Proof.
  intros [H1 L1] [H2 L2]. split.
  - apply Forall_app. split.
    + eapply Forall_impl; [exact H1|]. cbn. intros; lia.
    + apply Forall_fmap. eapply Forall_impl; [exact H2|]. cbn. intros; lia.
  - rewrite length_app, length_map.
    rewrite Nat.Div0.add_mod, L1, L2. reflexivity.
Qed.

Lemma transpose_quad_triangles_keeps (Q : Z -> Prop) indices indices' :
  transpose_quad_triangles indices = Some indices' ->
  length indices' = length indices /\ (Forall Q indices -> Forall Q indices').
Proof.
  unfold transpose_quad_triangles. intros H.
  apply bind_Some in H as (i4 & H4 & H). apply bind_Some in H as (i2 & H2 & H).
  injection H as <-. split; [now rewrite !length_insert|].
  intros HQ.
  assert (HQ1 : Forall Q (<[1%nat := i4]> indices)).
  { apply Forall_insert; [exact HQ|]. eapply Forall_lookup_1; eauto. }
  apply Forall_insert; [exact HQ1|]. eapply Forall_lookup_1; eauto.
Qed.

Lemma side_patch_triangles K bake d voxel side sc pos surface side_surface p :
  side_surface_triangles side_surface ->
  side_patch K bake d voxel side sc pos surface side_surface = Some p ->
  patch_triangles p.
Proof.
  unfold side_patch. intros Hs H.
  apply bind_Some in H as (uvs & _ & H). apply bind_Some in H as (tg & _ & H).
  injection H as <-. unfold patch_triangles. cbn [patch_indices patch_positions].
  now rewrite length_map.
Qed.

Lemma inside_patch_triangles voxel pos surface p :
  surface_triangles surface -> inside_patch voxel pos surface = Some p -> patch_triangles p.
Proof.
  unfold inside_patch. intros Hs H.
  apply bind_Some in H as (tg & _ & H). apply bind_Some in H as (nm & _ & H).
  apply bind_Some in H as (uvs & _ & H).
  injection H as <-. unfold patch_triangles. cbn [patch_indices patch_positions].
  now rewrite length_map.
Qed.

Lemma seam_patch_triangles K side pos voxel k p :
  model_ok surface_triangles side_surface_triangles voxel ->
  seam_patch K side pos voxel k = Some p -> patch_triangles p.
Proof.
  intros (_ & Hsides & _) H. unfold seam_patch in H.
  apply bind_Some in H as (surface & _ & H).
  apply bind_Some in H as (side_surface & Hss & H).
  apply bind_Some in H as (uvs & _ & H). apply bind_Some in H as (tg & _ & H).
  injection H as <-. unfold patch_triangles. cbn [patch_indices patch_positions].
  rewrite length_map. apply (Forall_lookup_1 _ _ _ _ (Hsides side) Hss).
Qed.

Lemma raise_top_vertices_triangles s h2 h3 s' :
  side_surface_triangles s -> raise_top_vertices s h2 h3 = Some s' ->
  side_surface_triangles s'.
Proof.
  unfold raise_top_vertices, side_surface_triangles. intros Ha H.
  apply bind_Some in H as (p1 & H1 & H). apply bind_Some in H as (p2 & H2 & H).
  injection H as <-. cbn [SideSurface.indices SideSurface.positions].
  apply set_position_y_length in H1, H2. now rewrite H2, H1.
Qed.

Lemma clear_triangles : side_surface_triangles SideSurface.clear.
Proof. split; [constructor | reflexivity]. Qed.

Lemma generate_fluid_model_triangles K lib voxel tb idx yj xj zj r :
  triangle_library lib ->
  model_ok surface_triangles side_surface_triangles voxel ->
  generate_fluid_model K voxel tb idx yj xj zj lib = Some r ->
  Forall surface_triangles r.1.1 /\ forall s, Forall side_surface_triangles (r.1.2 s).
Proof.
  intros [_ Hfluids] (Hsurf & _ & _) H. unfold generate_fluid_model in H.
  apply bind_Some in H as (top_id & _ & H).
  apply bind_Some in H as (covered & _ & H).
  apply bind_Some in H as (fluid & Hfluid & H).
  assert (Hf : forall side, fluid_surface_triangles (Fluid.side_surfaces fluid side))
    by (eapply (Forall_lookup_1 _ _ _ _ Hfluids Hfluid)).
  assert (Hc : forall side uv, side_surface_triangles (copy (Fluid.side_surfaces fluid side) uv))
    by (intros; apply Hf).
  destruct covered.
  - injection H as <-. cbn [fst snd]. split; [exact Hsurf|].
    intros s. constructor; [|constructor; [apply clear_triangles | constructor]].
    destruct s; try apply Hc. apply clear_triangles.
  - apply bind_Some in H as (sampled & _ & H).
    apply bind_Some in H as (neg_x & Hnx & H).
    apply bind_Some in H as (pos_x & Hpx & H).
    apply bind_Some in H as (neg_z & Hnz & H).
    apply bind_Some in H as (pos_z & Hpz & H).
    apply bind_Some in H as (p0 & Hp0 & H).
    apply bind_Some in H as (p1 & Hp1 & H).
    apply bind_Some in H as (p2 & Hp2 & H).
    apply bind_Some in H as (p3 & Hp3 & H).
    apply bind_Some in H as (top_indices & Htop & H).
    injection H as <-. cbn [fst snd]. split.
    + constructor; [|constructor].
      unfold surface_triangles. cbn [Surface.indices Surface.positions].
      apply set_position_y_length in Hp0, Hp1, Hp2, Hp3.
      rewrite Hp3, Hp2, Hp1, Hp0.
      destruct (Hf SIDE_POSITIVE_Y) as [Hin Hlen].
      destruct (_ || _); [|injection Htop as <-; now split].
      eapply (transpose_quad_triangles_keeps
                (fun i => 0 <= i < Z.of_nat (length (FluidSurface.positions
                                                (Fluid.side_surfaces fluid SIDE_POSITIVE_Y)))))
        in Htop as [Hl Hk].
      split; [now apply Hk | now rewrite Hl].
    + intros s. constructor; [|constructor; [apply clear_triangles | constructor]].
      destruct s; try apply clear_triangles;
        try (eapply raise_top_vertices_triangles; [|eassumption]; apply Hc).
      apply Hc.
Qed.

Lemma triangle_model_ok lib id voxel :
  triangle_library lib -> get_model lib id = Some voxel ->
  model_ok surface_triangles side_surface_triangles voxel.
Proof.
  intros [Hmodels _] H. unfold get_model in H.
  destruct (id <? 0); [discriminate|].
  eapply (Forall_lookup_1 _ _ _ _ Hmodels H).
Qed.

Lemma append_triangles a p :
  arrays_triangles a -> patch_triangles p ->
  arrays_triangles (append_to_arrays a (Z.of_nat (length (Arrays.positions a))) p).
Proof.
  unfold arrays_triangles, patch_triangles, append_to_arrays.
  cbn [Arrays.indices Arrays.positions]. rewrite length_app.
  apply triangles_within_app.
Qed.

Lemma mirror_triangles dst P :
  triangles_within (CollisionSurface.indices dst) (length (CollisionSurface.positions dst)) ->
  Forall patch_triangles P ->
  let dst' := mirror dst (Z.of_nat (length (CollisionSurface.positions dst))) P in
  triangles_within (CollisionSurface.indices dst') (length (CollisionSurface.positions dst')).
Proof.
  revert dst. induction P as [|p P IH]; intros dst Hd HP; [exact Hd|].
  inversion HP as [|? ? Hp HP']; subst. cbn [mirror].
  replace (Z.of_nat (length (CollisionSurface.positions dst)) + vertex_count p)
    with (Z.of_nat (length (CollisionSurface.positions
            (append_to_collision dst (Z.of_nat (length (CollisionSurface.positions dst))) p)))).
  - apply IH; [|exact HP'].
    unfold append_to_collision. cbn [CollisionSurface.indices CollisionSurface.positions].
    rewrite length_app. now apply triangles_within_app.
  - cbn [append_to_collision CollisionSurface.positions]. rewrite length_app.
    unfold vertex_count. lia.
Qed.

(** X2. Over a library whose baked surfaces are triangle lists over their own
    vertices, a build into an output without collision geometry leaves
    triangle lists: in the arrays of each material, in each surface it adds to
    the output and in the collision surface, the indices come by three and
    each is the number of a vertex of the same arrays. *)
Theorem output_is_a_triangle_list (K : Constants) (p : Parameters.t)
    (cache : list Arrays.t) (output : Output.t) (input : Input.t) (lib : Library.t)
    (output' : Output.t) (arrays' : list Arrays.t) (errors : list string) :
  Parameters.library p = Some lib ->
  triangle_library lib ->
  CollisionSurface.positions (Output.collision_surface output) = [] ->
  CollisionSurface.indices (Output.collision_surface output) = [] ->
  build K p cache output input = Some (output', arrays', errors) ->
  Forall arrays_triangles arrays'
  /\ (exists new,
        Output.surfaces output' = Output.surfaces output ++ new
        /\ Forall (fun s => triangles_within (MeshArrays.index (OutputSurface.arrays s))
                              (length (MeshArrays.vertex (OutputSurface.arrays s)))) new)
  /\ triangles_within (CollisionSurface.indices (Output.collision_surface output'))
       (length (CollisionSurface.positions (Output.collision_surface output'))).
Proof.
  intros Hlib Htri Hpos Hind H.
  assert (Harr : Forall arrays_triangles arrays').
  { eapply (build_arrays_good patch_triangles surface_triangles side_surface_triangles K lib)
      with (Inv := arrays_triangles); try eassumption.
    - intros; eapply side_patch_triangles; eauto.
    - intros; eapply inside_patch_triangles; eauto.
    - intros; eapply seam_patch_triangles; eauto.
    - intros; eapply triangle_model_ok; eauto.
    - intros; eapply generate_fluid_model_triangles; eauto.
    - split; [constructor | reflexivity].
    - intros; now apply append_triangles.
    - intros s a Ha. unfold arrays_triangles, scale_arrays.
      cbn [Arrays.indices Arrays.positions]. now rewrite length_map. }
  split; [exact Harr|]. split.
  - destruct (build_new_surfaces K p cache output input lib _ _ _ Hlib H)
      as (new & Hnew & Hcase).
    exists new. split; [exact Hnew|].
    destruct Hcase as [->| ->]; [constructor|].
    apply Forall_forall. intros s Hs.
    apply elem_of_packaged in Hs as (a & Ha & _ & -> & _).
    apply (Forall_lookup_1 _ _ _ _ Harr Ha).
  - assert (Hempty : triangles_within
                       (CollisionSurface.indices (Output.collision_surface output))
                       (length (CollisionSurface.positions (Output.collision_surface output)))).
    { rewrite Hpos, Hind. split; [constructor | reflexivity]. }
    destruct (model_ids (Input.voxels input)) as [ids|] eqn:Hids.
    + destruct (build_spec K p cache output input lib ids _ _ _ Hlib Hids H)
        as (P & Pseam & HP & _ & _ & _ & _ & Hcoll).
      rewrite Hcoll. destruct (Input.collision_hint input); [|exact Hempty].
      assert (HPt : Forall patch_triangles (with_collision P)).
      { assert (HPa : Forall patch_triangles P).
        { eapply (emitted_patches_good patch_triangles surface_triangles
                    side_surface_triangles K lib); try eassumption.
          - intros; eapply side_patch_triangles; eauto.
          - intros; eapply inside_patch_triangles; eauto.
          - intros; eapply triangle_model_ok; eauto.
          - intros; eapply generate_fluid_model_triangles; eauto. }
        rewrite Forall_forall in HPa |- *. intros q Hq.
        apply list_elem_of_filter in Hq as [_ Hq]. now apply HPa. }
      pose proof (mirror_triangles _ _ Hempty HPt) as Hm. cbv zeta in Hm.
      replace (Z.of_nat (length (CollisionSurface.positions (Output.collision_surface output))))
        with 0 in Hm by (now rewrite Hpos).
      unfold lod_scaled_collision.
      destruct (0 <? Input.lod_index input); [|exact Hm].
      destruct (lod_scale (Input.lod_index input)); cbn; [|exact Hm].
      now rewrite length_map.
    + destruct (build_returns_early K p cache output input) as (c & e & He & _);
        [right; exact Hids|].
      rewrite H in He. injection He as -> _ _. exact Hempty.
Qed.

Ltac each_element tac :=
  repeat (apply List.Forall_cons; [tac|]); apply List.Forall_nil.

Ltac solve_triangles :=
  split; [each_element ltac:(cbn; lia) | reflexivity].

Lemma quad_triangles (s : Side) : side_surface_triangles (quad s).
Proof. destruct s; solve_triangles. Qed.

Lemma no_surface_triangles m c : surface_triangles (no_surface m c).
Proof. solve_triangles. Qed.

Lemma water_library_triangles : triangle_library water_library.
Proof.
  split.
  - each_element ltac:(
      split; [each_element ltac:(apply no_surface_triangles)|];
      split; [|intros side shape cut Hcut; discriminate Hcut];
      intros side;
      each_element ltac:(first [apply clear_triangles | apply quad_triangles])).
  - each_element ltac:(intros side; destruct side; solve_triangles).
Qed.

Lemma output_is_a_triangle_list_witness :
  exists (output' : Output.t) (arrays' : list Arrays.t),
    build cube_constants water_parameters [] Output.empty (Input.mk pond_buffer 0 true)
      = Some (output', arrays', [])
    /\ map (fun a => (length (Arrays.positions a), length (Arrays.indices a))) arrays'
       = [(48%nat, 72%nat)]
    /\ Forall arrays_triangles arrays'
    /\ triangles_within (CollisionSurface.indices (Output.collision_surface output'))
         (length (CollisionSurface.positions (Output.collision_surface output'))).
Proof.
  destruct (build cube_constants water_parameters [] Output.empty (Input.mk pond_buffer 0 true))
    as [[[output' arrays'] errors]|] eqn:E; [|vm_compute in E; discriminate E].
  assert (errors = []) as -> by (vm_compute in E; congruence).
  exists output', arrays'. split; [reflexivity|].
  destruct (output_is_a_triangle_list cube_constants water_parameters []
              Output.empty (Input.mk pond_buffer 0 true) water_library
              output' arrays' [] eq_refl water_library_triangles eq_refl eq_refl E)
    as (Harr & _ & Hcoll).
  split; [|split; assumption].
  vm_compute in E. injection E as _ <-. reflexivity.
Defined.

(** *** The surfaces of the output *)

Lemma packaged_material_indices arrays n :
  map OutputSurface.material_index (packaged arrays n)
  = filter (fun m => has_vertices arrays m) (seq 0 n).
Proof.
  unfold packaged. generalize (seq 0 n). intros l.
  induction l as [|m l IH]; [reflexivity|].
  cbn [omap list_omap]. unfold has_vertices at 1.
  destruct (arrays !! m) as [a|] eqn:Ea; cbn [mbind option_bind].
  - destruct (bool_decide (Arrays.positions a = [])) eqn:Eb.
    + rewrite filter_cons_False; [exact IH|].
      unfold has_vertices. rewrite Ea, Eb. cbn. auto.
    + rewrite filter_cons_True; [cbn; now rewrite IH|].
      unfold has_vertices. rewrite Ea, Eb. cbn. auto.
  - rewrite filter_cons_False; [exact IH|].
    unfold has_vertices. rewrite Ea. cbn. auto.
Qed.

Lemma packaged_nil arrays n :
  (forall m a, arrays !! m = Some a -> a = Arrays.clear) -> packaged arrays n = [].
Proof.
  intros Hclear. unfold packaged. generalize (seq 0 n). intros l.
  induction l as [|m l IH]; [reflexivity|].
  cbn [omap list_omap]. destruct (arrays !! m) as [a|] eqn:Ea; cbn [mbind option_bind].
  - rewrite (Hclear m a Ea). cbn. exact IH.
  - exact IH.
Qed.

Lemma build_surfaces K p cache output input lib output' arrays' errors :
  Parameters.library p = Some lib ->
  build K p cache output input = Some (output', arrays', errors) ->
  Output.surfaces output'
  = Output.surfaces output ++ packaged arrays' (Library.indexed_materials_count lib).
Proof.
  intros Hlib H.
  destruct (model_ids (Input.voxels input)) as [ids|] eqn:Hids.
  - rewrite (build_meshes K p cache output input lib ids Hlib Hids) in H.
    now apply build_mesh_surfaces in H as [H _].
  - assert (Hnil : packaged arrays' (Library.indexed_materials_count lib) = []).
    { apply packaged_nil.
      assert (Hc0 : forall m a, map (fun _ => Arrays.clear) cache !! m = Some a
                                -> a = Arrays.clear).
      { intros m a Ha. apply (lookup_grow_clear cache 0 m a).
        unfold grow. cbn [Nat.ltb Nat.leb]. exact Ha. }
      unfold build, model_ids in *. rewrite Hlib in H.
      destruct (VoxelBuffer.get_channel_compression _);
        [|injection H as _ <- _; exact Hc0|injection H as _ <- _; exact Hc0].
      destruct (VoxelBuffer.get_channel_as_bytes_read_only _);
        [|injection H as _ <- _; exact Hc0].
      destruct (VoxelBuffer.get_channel_depth _); try discriminate;
        injection H as _ <- _; intros m a; apply lookup_grow_clear. }
    rewrite Hnil, app_nil_r.
    destruct (build_returns_early K p cache output input) as (c & e & He & _);
      [right; exact Hids|].
    rewrite H in He. now injection He as -> _ _.
Qed.

(** X3. A build adds to the output, after the surfaces it already holds, one
    surface for each material that has vertices, in increasing order of the
    material index and for no other material: a surface never is without
    vertices, its arrays are those of its material, and its tangent slot is
    left out rather than empty.  A build that gets to meshing sets the
    primitive type to triangles. *)
Theorem one_surface_per_material_with_vertices (K : Constants) (p : Parameters.t)
    (cache : list Arrays.t) (output : Output.t) (input : Input.t) (lib : Library.t)
    (output' : Output.t) (arrays' : list Arrays.t) (errors : list string) :
  Parameters.library p = Some lib ->
  build K p cache output input = Some (output', arrays', errors) ->
  exists new,
    Output.surfaces output' = Output.surfaces output ++ new
    /\ map OutputSurface.material_index new
       = filter (fun m => has_vertices arrays' m)
                (seq 0 (Library.indexed_materials_count lib))
    /\ Forall (fun s => exists a,
                 arrays' !! OutputSurface.material_index s = Some a
                 /\ OutputSurface.arrays s = mesh_arrays_of a
                 /\ MeshArrays.vertex (OutputSurface.arrays s) <> []
                 /\ MeshArrays.tangent (OutputSurface.arrays s) <> Some []) new
    /\ (is_Some (model_ids (Input.voxels input)) ->
        Output.primitive_type output' = PRIMITIVE_TRIANGLES).
Proof.
  intros Hlib H.
  exists (packaged arrays' (Library.indexed_materials_count lib)).
  split; [eapply build_surfaces; eauto|].
  split; [apply packaged_material_indices|]. split.
  - apply Forall_forall. intros s Hs.
    apply elem_of_packaged in Hs as (a & Ha & Hne & Hs & _).
    exists a. rewrite Hs. split; [exact Ha|]. split; [reflexivity|].
    split; [exact Hne|].
    unfold mesh_arrays_of. cbn [MeshArrays.tangent].
    destruct (Arrays.tangents a); cbn; discriminate.
  - intros [ids Hids].
    rewrite (build_meshes K p cache output input lib ids Hlib Hids) in H.
    now apply build_mesh_surfaces in H as [_ H].
Qed.

Lemma one_surface_per_material_with_vertices_witness :
  exists (output' : Output.t) (arrays' : list Arrays.t),
    build cube_constants
      (Parameters.mk (Some (Library.mk [air_model; two_surface_model] [] 3
                              (fun pa pb => (pa =? 1) && (pb =? 1)))) false 0)
      [] Output.empty
      (Input.mk (voxel_buffer (mkVector3i 3 3 3) [(1, 1, 1, 1)]) 0 false)
    = Some (output', arrays', [])
    /\ map OutputSurface.material_index (Output.surfaces output') = [0%nat; 1%nat]
    /\ map (fun a => length (Arrays.positions a)) arrays' = [24%nat; 24%nat; 0%nat].
Proof.
  set (params := Parameters.mk (Some (Library.mk [air_model; two_surface_model] [] 3
                                        (fun pa pb => (pa =? 1) && (pb =? 1)))) false 0).
  set (input := Input.mk (voxel_buffer (mkVector3i 3 3 3) [(1, 1, 1, 1)]) 0 false).
  destruct (build cube_constants params [] Output.empty input)
    as [[[output' arrays'] errors]|] eqn:E; [|vm_compute in E; discriminate E].
  assert (errors = []) as -> by (vm_compute in E; congruence).
  exists output', arrays'. split; [reflexivity|].
  destruct (one_surface_per_material_with_vertices cube_constants params [] Output.empty
              input _ output' arrays' [] eq_refl E) as (new & Hnew & Hidx & _).
  assert (Harr : map (fun a => length (Arrays.positions a)) arrays' = [24%nat; 24%nat; 0%nat])
    by (vm_compute in E; injection E as _ <-; reflexivity).
  split; [|exact Harr].
  rewrite Hnew. cbn [Output.surfaces Output.empty app]. rewrite Hidx.
  vm_compute in E. injection E as _ <-. reflexivity.
Defined.

(** *** What the passes leave alone *)

Lemma render_extend a off P : arrays_extend a (render a off P).
Proof.
  revert a off. induction P as [|p P IH]; intros a off; cbn [render].
  - repeat split; reflexivity.
  - specialize (IH (append_to_arrays a off p) (off + vertex_count p)).
    destruct IH as (H1 & H2 & H3 & H4 & H5 & H6).
    cbn [append_to_arrays Arrays.positions Arrays.normals Arrays.uvs Arrays.colors
         Arrays.indices Arrays.tangents] in *.
    repeat split; (etrans; [apply prefix_app_r; reflexivity|eassumption]).
Qed.

Lemma mirror_extend dst off P : collision_extends dst (mirror dst off P).
Proof.
  revert dst off. induction P as [|p P IH]; intros dst off; cbn [mirror].
  - split; reflexivity.
  - specialize (IH (append_to_collision dst off p) (off + vertex_count p)).
    destruct IH as (H1 & H2).
    cbn [append_to_collision CollisionSurface.positions CollisionSurface.indices] in *.
    split; (etrans; [apply prefix_app_r; reflexivity|eassumption]).
Qed.

(** X4. The main pass and the seam pass only append: what the arrays of each
    material, and the collision surface, hold before a pass is still there
    after it, at the same place; no array per material is added or removed,
    and the main pass makes no collision surface where it is given none. *)
Theorem meshing_passes_only_append (K : Constants) (arrays : list Arrays.t)
    (collision_surface : option CollisionSurface.t) (type_buffer : list Z)
    (block_size : Vector3i) (lib : Library.t) (bake_occlusion : bool)
    (baked_occlusion_darkness : Q) :
  (forall arrays' collision_surface' errors,
     generate_blocky_mesh K arrays collision_surface type_buffer block_size lib
       bake_occlusion baked_occlusion_darkness = Some (arrays', collision_surface', errors) ->
     Forall2 arrays_extend arrays arrays'
     /\ option_Forall2 collision_extends collision_surface collision_surface')
  /\ (forall arrays',
        append_seams K type_buffer block_size arrays lib = Some arrays' ->
        Forall2 arrays_extend arrays arrays').
Proof.
  split.
  - intros arrays' coll' errors H.
    apply generate_blocky_mesh_spec in H as (P & _ & Hlen & Harr & ->). split.
    + apply Forall2_same_length_lookup. split; [now rewrite Hlen|].
      intros m a a' Ha Ha'. rewrite (Harr m a Ha) in Ha'. injection Ha' as <-.
      apply render_extend.
    + destruct collision_surface as [dst|]; constructor. apply mirror_extend.
  - intros arrays' H.
    apply append_seams_spec in H as (P & _ & Hlen & Harr).
    apply Forall2_same_length_lookup. split; [now rewrite Hlen|].
    intros m a a' Ha Ha'. rewrite (Harr m a Ha) in Ha'. injection Ha' as <-.
    apply render_extend.
Qed.

Lemma meshing_passes_only_append_witness :
  let ids := as_uint8 (default [] (VoxelBuffer.get_channel_as_bytes_read_only seam_buffer)) in
  exists (arrays' arrays'' : list Arrays.t) (collision_surface' : option CollisionSurface.t),
    generate_blocky_mesh cube_constants [Arrays.clear] (Some (CollisionSurface.mk [] []))
      ids (mkVector3i 3 3 3) cube_library false 0
    = Some (arrays', collision_surface', [])
    /\ append_seams cube_constants ids (mkVector3i 3 3 3) arrays' cube_library = Some arrays''
    /\ map (fun a => length (Arrays.positions a)) arrays' = [16%nat]
    /\ map (fun a => length (Arrays.positions a)) arrays'' = [20%nat]
    /\ Forall2 arrays_extend [Arrays.clear] arrays'
    /\ Forall2 arrays_extend arrays' arrays''.
Proof.
  intros ids.
  destruct (generate_blocky_mesh cube_constants [Arrays.clear] (Some (CollisionSurface.mk [] []))
              ids (mkVector3i 3 3 3) cube_library false 0)
    as [[[arrays' coll'] errors]|] eqn:E; [|vm_compute in E; discriminate E].
  assert (errors = []) as -> by (vm_compute in E; congruence).
  destruct (append_seams cube_constants ids (mkVector3i 3 3 3) arrays' cube_library)
    as [arrays''|] eqn:E2;
    [|vm_compute in E; injection E as <- _; vm_compute in E2; discriminate E2].
  exists arrays', arrays'', coll'. split; [reflexivity|]. split; [exact E2|].
  split; [vm_compute in E; injection E as <- _; reflexivity|].
  split; [vm_compute in E; injection E as <- _; vm_compute in E2; injection E2 as <-;
          reflexivity|].
  split.
  - apply (proj1 (meshing_passes_only_append cube_constants [Arrays.clear]
                    (Some (CollisionSurface.mk [] [])) ids (mkVector3i 3 3 3) cube_library
                    false 0) arrays' coll' [] E).
  - apply (proj2 (meshing_passes_only_append cube_constants arrays'
                    None ids (mkVector3i 3 3 3) cube_library false 0) arrays'' E2).
Defined.

(** X5. Without the collision hint a build leaves the collision surface of
    the output as it found it. *)
Theorem collision_surface_needs_the_hint (K : Constants) (p : Parameters.t)
    (cache : list Arrays.t) (output : Output.t) (voxels : VoxelBuffer.t) (lod_index : Z)
    (output' : Output.t) (arrays' : list Arrays.t) (errors : list string) :
  build K p cache output (Input.mk voxels lod_index false) = Some (output', arrays', errors) ->
  Output.collision_surface output' = Output.collision_surface output.
Proof.
  intros H.
  destruct (Parameters.library p) as [lib|] eqn:Hlib;
    [destruct (model_ids voxels) as [ids|] eqn:Hids|].
  - destruct (build_spec K p cache output (Input.mk voxels lod_index false) lib ids
                _ _ _ Hlib Hids H) as (P & Pseam & _ & _ & _ & _ & _ & Hcoll).
    exact Hcoll.
  - destruct (build_returns_early K p cache output (Input.mk voxels lod_index false))
      as (c & e & He & _); [right; exact Hids|].
    rewrite H in He. now injection He as -> _ _.
  - destruct (build_returns_early K p cache output (Input.mk voxels lod_index false))
      as (c & e & He & _); [left; exact Hlib|].
    rewrite H in He. now injection He as -> _ _.
Qed.

Lemma collision_surface_needs_the_hint_witness :
  exists (output' : Output.t) (arrays' : list Arrays.t),
    build cube_constants cube_parameters [] Output.empty (Input.mk seam_buffer 1 false)
      = Some (output', arrays', [])
    /\ map (fun a => length (Arrays.positions a)) arrays' = [20%nat]
    /\ Output.collision_surface output' = CollisionSurface.mk [] [].
Proof.
  destruct (build cube_constants cube_parameters [] Output.empty (Input.mk seam_buffer 1 false))
    as [[[output' arrays'] errors]|] eqn:E; [|vm_compute in E; discriminate E].
  assert (errors = []) as -> by (vm_compute in E; congruence).
  exists output', arrays'. split; [reflexivity|]. split.
  - vm_compute in E. injection E as _ <-. reflexivity.
  - apply (collision_surface_needs_the_hint cube_constants cube_parameters []
             Output.empty seam_buffer 1 output' arrays' [] E).
Defined.

(** *** Blocks without geometry *)

Lemma foldM_unchanged {S A : Type} (f : S -> A -> option S) (s : S) (l : list A) :
  (forall x, x ∈ l -> f s x = Some s) -> foldM f s l = Some s.
Proof.
  induction l as [|x l IH]; intros H; [reflexivity|].
  cbn [foldM]. rewrite H by left. cbn [mbind option_bind].
  apply IH. intros y Hy. apply H. now right.
Qed.

Lemma elem_of_range lo hi i : i ∈ range lo hi <-> lo <= i < hi.
Proof.
  unfold range. rewrite list_elem_of_fmap. split.
  - intros (k & -> & Hk). apply elem_of_seq in Hk. lia.
  - intros Hi. exists (Z.to_nat (i - lo)). split; [lia|]. apply elem_of_seq. lia.
Qed.

(** The address of a voxel of the block is an address of its buffer. *)
Lemma address_in_block sx sy sz x y z :
  0 <= x < sx -> 0 <= y < sy -> 0 <= z < sz ->
  0 <= y + x * sy + z * (sx * sy) < sx * sy * sz.
Proof.
  intros Hx Hy Hz.
  assert (0 <= x * sy) by nia.
  assert (x * sy <= (sx - 1) * sy) by nia.
  assert (0 < sx * sy) by nia.
  assert (0 <= z * (sx * sy)) by nia.
  assert (z * (sx * sy) <= (sz - 1) * (sx * sy)) by nia.
  nia.
Qed.

Section Air.
Context {S : Type}.
Variable emit : S -> Patch -> option S.
Variable K : Constants.
Variable lib : Library.t.
Variable ids : list Z.
Variable size : Vector3i.
Hypothesis positive : 0 < ix size /\ 0 < iy size /\ 0 < iz size.
Hypothesis air : forall i, 0 <= i < ix size * iy size * iz size -> read ids i = Some AIR_ID.

Lemma mesh_block_air bake d (st : S) :
  mesh_block emit K ids size lib bake d st = Some st.
Proof.
  unfold mesh_block, PADDING. cbn [ix iy iz].
  apply foldM_unchanged. intros z Hz. apply elem_of_range in Hz.
  apply foldM_unchanged. intros x Hx. apply elem_of_range in Hx.
  apply foldM_unchanged. intros y Hy. apply elem_of_range in Hy.
  unfold mesh_voxel. rewrite air; [reflexivity|].
  apply address_in_block; lia.
Qed.

Lemma append_side_seams_air jump z size_x size_y side (st : S) :
  (forall x y, 1 <= x < size_x - 1 -> 1 <= y < size_y - 1 ->
               0 <= x * ix jump + y * iy jump + z * iz jump < ix size * iy size * iz size) ->
  append_side_seams emit K ids jump z size_x size_y side lib st = Some st.
Proof.
  intros Hin. unfold append_side_seams.
  apply foldM_unchanged. intros x Hx. apply elem_of_range in Hx.
  apply foldM_unchanged. intros y Hy. apply elem_of_range in Hy.
  unfold seam_voxel.
  rewrite (air (x * ix jump + y * iy jump + z * iz jump)) by (apply Hin; lia).
  reflexivity.
Qed.

Lemma seams_air (st : S) : seams emit K ids size lib st = Some st.
Proof.
  destruct positive as (Px & Py & Pz).
  unfold seams. cbv zeta.
  rewrite append_side_seams_air; cbn [mbind option_bind ix iy iz jump_zyx jump_zxy].
  2:{ intros x y Hx Hy.
      pose proof (address_in_block (ix size) (iy size) (iz size) x y 0) as Ha. lia. }
  rewrite append_side_seams_air; cbn [mbind option_bind ix iy iz jump_zyx jump_zxy].
  2:{ intros x y Hx Hy.
      pose proof (address_in_block (ix size) (iy size) (iz size) x y (iz size - 1)) as Ha.
      lia. }
  rewrite append_side_seams_air; cbn [mbind option_bind ix iy iz jump_zyx jump_zxy].
  2:{ intros x y Hx Hy.
      pose proof (address_in_block (ix size) (iy size) (iz size) 0 y x) as Ha. lia. }
  rewrite append_side_seams_air; cbn [mbind option_bind ix iy iz jump_zyx jump_zxy].
  2:{ intros x y Hx Hy.
      pose proof (address_in_block (ix size) (iy size) (iz size) (ix size - 1) y x) as Ha.
      lia. }
  rewrite append_side_seams_air; cbn [mbind option_bind ix iy iz jump_zyx jump_zxy].
  2:{ intros x y Hx Hy.
      pose proof (address_in_block (ix size) (iy size) (iz size) y 0 x) as Ha. lia. }
  apply append_side_seams_air; cbn [ix iy iz jump_zyx jump_zxy].
  intros x y Hx Hy.
  pose proof (address_in_block (ix size) (iy size) (iz size) y (iy size - 1) x) as Ha. lia.
Qed.

End Air.

Lemma cleared_is_replicate (cache : list Arrays.t) (n : nat) :
  grow (map (fun _ => Arrays.clear) cache) n
  = replicate (Nat.max (length cache) n) Arrays.clear.
Proof.
  assert (Hmap : map (fun _ => Arrays.clear) cache = replicate (length cache) Arrays.clear).
  { induction cache as [|a c IH]; [reflexivity|]. cbn. now rewrite IH. }
  unfold grow. rewrite length_map, Hmap.
  destruct (Nat.ltb_spec (length cache) n).
  - rewrite <- replicate_add. f_equal. lia.
  - f_equal. lia.
Qed.

Lemma scale_replicate_clear s n :
  map (scale_arrays s) (replicate n Arrays.clear) = replicate n Arrays.clear.
Proof. induction n as [|n IH]; [reflexivity|]. cbn. now rewrite IH. Qed.

Lemma package_replicate_clear n count surfaces :
  (count <= n)%nat -> package (replicate n Arrays.clear) count surfaces = Some surfaces.
Proof.
  intros Hle.
  destruct (proj2 (package_is_Some (replicate n Arrays.clear) count surfaces)) as [s Hs];
    [now rewrite length_replicate|].
  rewrite Hs. apply package_packaged in Hs. rewrite Hs, packaged_nil, app_nil_r; [reflexivity|].
  intros m a Ha. now apply lookup_replicate in Ha as [-> _].
Qed.

(** X6. A block of air, in a buffer of the size of the block, builds to
    nothing at any level of detail below 32: no surface is added, no vertex is
    left in the arrays of any material, and the collision surface gets no
    geometry (with the hint, at a level above 0, the positions it already held
    are scaled like any other).  The only error possible is the one of a block
    that is too small. *)
Theorem air_builds_to_nothing (K : Constants) (p : Parameters.t) (cache : list Arrays.t)
    (output : Output.t) (input : Input.t) (lib : Library.t) (ids : list Z) :
  let size := VoxelBuffer.get_size (Input.voxels input) in
  Parameters.library p = Some lib ->
  model_ids (Input.voxels input) = Some ids ->
  0 < ix size -> 0 < iy size -> 0 < iz size ->
  length ids = Z.to_nat (ix size * iy size * iz size) ->
  Forall (fun id => id = AIR_ID) ids ->
  Input.lod_index input < 32 ->
  exists errors,
    build K p cache output input
    = Some (Output.mk (Output.surfaces output)
              (if Input.collision_hint input
               then lod_scaled_collision (Input.lod_index input)
                      (Output.collision_surface output)
               else Output.collision_surface output)
              PRIMITIVE_TRIANGLES,
            replicate (Nat.max (length cache) (Library.indexed_materials_count lib))
              Arrays.clear,
            errors)
    /\ (block_too_small size = false -> errors = []).
Proof.
  intros size Hlib Hids Px Py Pz Hlen Hair Hlod.
  assert (Hread : forall i, 0 <= i < ix size * iy size * iz size -> read ids i = Some AIR_ID).
  { intros i Hi. unfold read. destruct (Z.ltb_spec i 0); [lia|].
    destruct (ids !! Z.to_nat i) as [id|] eqn:E.
    - f_equal. apply (Forall_lookup_1 _ _ _ _ Hair E).
    - apply lookup_ge_None in E. lia. }
  rewrite (build_meshes K p cache output input lib ids Hlib Hids).
  rewrite cleared_is_replicate.
  set (n := Nat.max (length cache) (Library.indexed_materials_count lib)).
  unfold build_mesh. fold size.
  set (coll := if Input.collision_hint input then Some (Output.collision_surface output)
               else None).
  assert (Hmain : exists errors,
            generate_blocky_mesh K (replicate n Arrays.clear) coll ids size lib
              (Parameters.bake_occlusion p) (build_occlusion_darkness p)
            = Some (replicate n Arrays.clear, coll, errors)
            /\ (block_too_small size = false -> errors = [])).
  { unfold generate_blocky_mesh. destruct (block_too_small size).
    - eexists. split; [reflexivity | discriminate].
    - rewrite (mesh_block_air append_patch K lib ids size) by auto.
      cbn. eexists. split; [reflexivity | reflexivity]. }
  destruct Hmain as (errors & -> & Herr). cbn [mbind option_bind].
  exists errors. split; [|exact Herr].
  assert (Hseams : (if 0 <? Input.lod_index input
                    then append_seams K ids size (replicate n Arrays.clear) lib
                    else Some (replicate n Arrays.clear))
                   = Some (replicate n Arrays.clear)).
  { destruct (0 <? Input.lod_index input); [|reflexivity].
    unfold append_seams. apply (seams_air append_seam_patch K lib ids size); auto. }
  rewrite Hseams. cbn [mbind option_bind].
  unfold lod_scaled_collision, lod_scale.
  destruct (Z.ltb_spec (Input.lod_index input) 32) as [_|]; [|lia].
  destruct (0 <? Input.lod_index input); cbn [mbind option_bind fmap option_fmap option_map default].
  - rewrite scale_replicate_clear, package_replicate_clear by (unfold n; lia).
    cbn [mbind option_bind]. unfold coll.
    destruct (Input.collision_hint input); reflexivity.
  - rewrite package_replicate_clear by (unfold n; lia).
    cbn [mbind option_bind]. unfold coll.
    destruct (Input.collision_hint input); reflexivity.
Qed.

Lemma air_builds_to_nothing_witness :
  build cube_constants cube_parameters [] Output.empty
    (Input.mk (voxel_buffer (mkVector3i 3 3 3) []) 2 true)
  = Some (Output.empty, [Arrays.clear], []).
Proof.
  assert (Hsize : 0 < 3) by lia.
  assert (Hlod : 2 < 32) by lia.
  assert (Hair : Forall (fun id => id = AIR_ID) (replicate 27 0))
    by (apply Forall_replicate; reflexivity).
  destruct (air_builds_to_nothing cube_constants cube_parameters [] Output.empty
              (Input.mk (voxel_buffer (mkVector3i 3 3 3) []) 2 true) cube_library
              (replicate 27 0) eq_refl eq_refl Hsize Hsize Hsize eq_refl Hair Hlod)
    as (errors & H & Herr).
  rewrite (Herr eq_refl) in H. exact H.
Defined.

(** X7. A block that is less than two voxels wide in some direction builds,
    at level 0, to nothing and one error, whatever its buffer holds: the main
    pass returns before it reads a voxel. *)
Theorem thin_block_builds_to_nothing (K : Constants) (p : Parameters.t)
    (cache : list Arrays.t) (output : Output.t) (input : Input.t) (lib : Library.t)
    (ids : list Z) :
  Parameters.library p = Some lib ->
  model_ids (Input.voxels input) = Some ids ->
  block_too_small (VoxelBuffer.get_size (Input.voxels input)) = true ->
  Input.lod_index input <= 0 ->
  exists error,
    build K p cache output input
    = Some (Output.mk (Output.surfaces output) (Output.collision_surface output)
              PRIMITIVE_TRIANGLES,
            replicate (Nat.max (length cache) (Library.indexed_materials_count lib))
              Arrays.clear,
            [error]).
Proof.
  intros Hlib Hids Hsmall Hlod.
  rewrite (build_meshes K p cache output input lib ids Hlib Hids).
  rewrite cleared_is_replicate.
  unfold build_mesh, generate_blocky_mesh. rewrite Hsmall.
  cbn [mbind option_bind].
  destruct (Z.ltb_spec 0 (Input.lod_index input)) as [|_]; [lia|].
  cbn [mbind option_bind].
  rewrite package_replicate_clear by lia. cbn [mbind option_bind].
  eexists. destruct (Input.collision_hint input); reflexivity.
Qed.

Lemma thin_block_builds_to_nothing_witness :
  exists error,
    build cube_constants cube_parameters [] Output.empty
      (Input.mk (voxel_buffer (mkVector3i 3 1 3) [(1, 0, 1, 1)]) 0 true)
    = Some (Output.empty, [Arrays.clear], [error]).
Proof.
  assert (Hlod : 0 <= 0) by lia.
  apply (thin_block_builds_to_nothing cube_constants cube_parameters [] Output.empty
           (Input.mk (voxel_buffer (mkVector3i 3 1 3) [(1, 0, 1, 1)]) 0 true) cube_library
           (as_uint8 (default [] (VoxelBuffer.get_channel_as_bytes_read_only
                                    (voxel_buffer (mkVector3i 3 1 3) [(1, 0, 1, 1)]))))
           eq_refl eq_refl eq_refl Hlod).
Defined.

(** *** The arrays kept from one build to the next *)

Section LongerCache.
Variable extra : nat.

Lemma append_patch_longer s t p s' :
  longer extra s t -> append_patch s p = Some s' ->
  exists t', append_patch t p = Some t' /\ longer extra s' t'.
Proof.
  intros (Ha & Ho & Hc & Hi) H. unfold append_patch in *.
  apply bind_Some in H as (a & Hma & H). apply bind_Some in H as (off & Hmo & H).
  injection H as <-.
  rewrite Ha, Ho, Hc, Hi.
  rewrite (lookup_app_l_Some _ _ _ _ Hma), (lookup_app_l_Some _ _ _ _ Hmo).
  cbn [mbind option_bind]. eexists. split; [reflexivity|].
  unfold longer. cbn [ms_out_arrays_per_material ms_index_offsets ms_collision_surface
                      ms_collision_surface_index_offset].
  rewrite !insert_app_l by (eapply lookup_lt_Some; eauto). auto.
Qed.

Lemma append_seam_patch_longer (s t : list Arrays.t) p s' :
  t = s ++ replicate extra Arrays.clear -> append_seam_patch s p = Some s' ->
  exists t', append_seam_patch t p = Some t' /\ t' = s' ++ replicate extra Arrays.clear.
Proof.
  intros -> H. unfold append_seam_patch in *.
  apply bind_Some in H as (a & Hma & H). injection H as <-.
  rewrite (lookup_app_l_Some _ _ _ _ Hma). cbn [mbind option_bind].
  eexists. split; [reflexivity|].
  now rewrite insert_app_l by (eapply lookup_lt_Some; eauto).
Qed.

Lemma package_longer arrays count surfaces :
  (count <= length arrays)%nat ->
  package (arrays ++ replicate extra Arrays.clear) count surfaces
  = package arrays count surfaces.
Proof.
  intros Hle. unfold package.
  assert (Hgen : forall l, Forall (fun m => (m < length arrays)%nat) l ->
            forall surfaces,
            foldM (fun surfaces material_index =>
                     a ← (arrays ++ replicate extra Arrays.clear) !! material_index;
                     Some (if bool_decide (Arrays.positions a = []) then surfaces
                           else surfaces ++ [OutputSurface.mk (mesh_arrays_of a) material_index]))
                  surfaces l
            = foldM (fun surfaces material_index =>
                     a ← arrays !! material_index;
                     Some (if bool_decide (Arrays.positions a = []) then surfaces
                           else surfaces ++ [OutputSurface.mk (mesh_arrays_of a) material_index]))
                  surfaces l).
  { induction l as [|m l IH]; intros Hl s; [reflexivity|].
    inversion Hl as [|? ? Hm Hl']; subst. cbn [foldM].
    rewrite lookup_app_l by exact Hm.
    destruct (arrays !! m); cbn [mbind option_bind]; [apply IH; exact Hl' | reflexivity]. }
  apply Hgen. apply Forall_forall. intros m Hm. apply elem_of_seq in Hm. lia.
Qed.

End LongerCache.

Lemma build_mesh_longer K p lib arrays output input ids extra output' arrays' errors :
  build_mesh K p lib arrays output input ids = Some (output', arrays', errors) ->
  build_mesh K p lib (arrays ++ replicate extra Arrays.clear) output input ids
  = Some (output', arrays' ++ replicate extra Arrays.clear, errors).
Proof.
  intros H.
  unfold build_mesh in *.
  apply bind_Some in H as ([[arrays1 coll1] errors1] & Hmain & H).
  apply bind_Some in H as (arrays2 & Hseams & H).
  apply bind_Some in H as ([arrays3 coll3] & Hscale & H).
  apply bind_Some in H as (surfaces & Hpack & H).
  injection H as <- <- <-.
  assert (Hcount : (Library.indexed_materials_count lib <= length arrays3)%nat)
    by (apply (proj1 (package_is_Some _ _ (Output.surfaces output))); eauto).
  assert (Hmain' : generate_blocky_mesh K (arrays ++ replicate extra Arrays.clear)
                     (if Input.collision_hint input
                      then Some (Output.collision_surface output) else None)
                     ids (VoxelBuffer.get_size (Input.voxels input)) lib
                     (Parameters.bake_occlusion p) (build_occlusion_darkness p)
                   = Some (arrays1 ++ replicate extra Arrays.clear, coll1, errors1)).
  { unfold generate_blocky_mesh in *.
    destruct (block_too_small _); [now injection Hmain as <- <- <-|].
    apply bind_Some in Hmain as (st' & Hrun & Hmain). injection Hmain as <- <- <-.
    destruct (mesh_block_sim append_patch append_patch (longer extra)
                (fun _ => True) (fun _ => True) (fun _ => True) K lib)
      with (type_buffer := ids) (bake_occlusion := Parameters.bake_occlusion p)
           (baked_occlusion_darkness := build_occlusion_darkness p)
           (block_size := VoxelBuffer.get_size (Input.voxels input))
           (s := mkMeshState arrays (replicate (length arrays) 0)
                   (if Input.collision_hint input
                    then Some (Output.collision_surface output) else None) 0)
           (t := mkMeshState (arrays ++ replicate extra Arrays.clear)
                   (replicate (length (arrays ++ replicate extra Arrays.clear)) 0)
                   (if Input.collision_hint input
                    then Some (Output.collision_surface output) else None) 0)
           (s' := st')
      as (t' & Ht' & (Ha & _ & Hc & _)); try trivial.
    - intros s t q s' _. apply append_patch_longer.
    - intros. apply trivially_ok.
    - intros. split; [|intros ?]; apply Forall_true; trivial.
    - unfold longer. cbn. rewrite length_app, length_replicate, replicate_add. auto.
    - rewrite Ht'. cbn [mbind option_bind]. now rewrite Ha, Hc. }
  rewrite Hmain'. cbn [mbind option_bind].
  assert (Hseams' : (if 0 <? Input.lod_index input
                     then append_seams K ids (VoxelBuffer.get_size (Input.voxels input))
                            (arrays1 ++ replicate extra Arrays.clear) lib
                     else Some (arrays1 ++ replicate extra Arrays.clear))
                    = Some (arrays2 ++ replicate extra Arrays.clear)).
  { destruct (0 <? Input.lod_index input); [|now injection Hseams as <-].
    unfold append_seams in *.
    destruct (seams_sim append_seam_patch append_seam_patch
                (fun s t => t = s ++ replicate extra Arrays.clear)
                (fun _ => True) (fun _ => True) (fun _ => True) K lib)
      with (buffer := ids) (size := VoxelBuffer.get_size (Input.voxels input))
           (s := arrays1) (t := arrays1 ++ replicate extra Arrays.clear) (s' := arrays2)
      as (t' & Ht' & ->); try trivial.
    - intros s t q s' _. apply append_seam_patch_longer.
    - intros. apply trivially_ok. }
  rewrite Hseams'. cbn [mbind option_bind].
  destruct (0 <? Input.lod_index input).
  - apply bind_Some in Hscale as (s & Hs & Hscale). injection Hscale as <- <-.
    rewrite Hs. cbn [mbind option_bind].
    rewrite map_app, scale_replicate_clear.
    rewrite package_longer, Hpack by exact Hcount.
    reflexivity.
  - injection Hscale as <- <-. cbn [mbind option_bind].
    rewrite package_longer, Hpack by exact Hcount. reflexivity.
Qed.

(** X8. The arrays kept from earlier builds are emptied before a build uses
    them, so nothing of an earlier mesh gets into the output; and a build that
    is defined with the arrays it has is defined with more of them, with the
    same output and the same errors, the added arrays staying empty. *)
Theorem earlier_builds_leave_no_trace (K : Constants) (p : Parameters.t)
    (cache cache' : list Arrays.t) (output : Output.t) (input : Input.t) (lib : Library.t)
    (output' : Output.t) (arrays' : list Arrays.t) (errors : list string) :
  Parameters.library p = Some lib ->
  is_Some (model_ids (Input.voxels input)) ->
  (length cache <= length cache')%nat ->
  build K p cache output input = Some (output', arrays', errors) ->
  exists extra,
    build K p cache' output input
    = Some (output', arrays' ++ replicate extra Arrays.clear, errors)
    /\ (length cache = length cache' -> extra = 0%nat).
Proof.
  intros Hlib [ids Hids] Hlen H.
  rewrite (build_meshes K p cache output input lib ids Hlib Hids) in H.
  rewrite (build_meshes K p cache' output input lib ids Hlib Hids).
  rewrite cleared_is_replicate in *.
  set (count := Library.indexed_materials_count lib) in *.
  exists (Nat.max (length cache') count - Nat.max (length cache) count)%nat.
  split; [|lia].
  replace (replicate (Nat.max (length cache') count) Arrays.clear)
    with (replicate (Nat.max (length cache) count) Arrays.clear
          ++ replicate (Nat.max (length cache') count - Nat.max (length cache) count)
               Arrays.clear)
    by (rewrite <- replicate_add; f_equal; lia).
  now apply build_mesh_longer.
Qed.

Lemma earlier_builds_leave_no_trace_witness :
  exists (output' : Output.t) (arrays' : list Arrays.t) (extra : nat),
    build cube_constants cube_parameters [] Output.empty (Input.mk seam_buffer 1 true)
    = Some (output', arrays', [])
    /\ build cube_constants cube_parameters
         (default [] (snd <$> (fst <$> build cube_constants half_tangent_parameters [] Output.empty
            (Input.mk (voxel_buffer (mkVector3i 3 3 3) [(1, 1, 1, 1)]) 0 false))) ++ [Arrays.clear])
         Output.empty (Input.mk seam_buffer 1 true)
       = Some (output', arrays' ++ replicate extra Arrays.clear, []).
Proof.
  destruct (build cube_constants cube_parameters [] Output.empty (Input.mk seam_buffer 1 true))
    as [[[output' arrays'] errors]|] eqn:E; [|vm_compute in E; discriminate E].
  assert (errors = []) as -> by (vm_compute in E; congruence).
  destruct (earlier_builds_leave_no_trace cube_constants cube_parameters []
              (default [] (snd <$> (fst <$> build cube_constants half_tangent_parameters []
                 Output.empty
                 (Input.mk (voxel_buffer (mkVector3i 3 3 3) [(1, 1, 1, 1)]) 0 false)))
               ++ [Arrays.clear])
              Output.empty (Input.mk seam_buffer 1 true) cube_library output' arrays' []
              eq_refl) as (extra & H & _).
  - eexists. reflexivity.
  - cbn. lia.
  - exact E.
  - exists output', arrays', extra. split; [reflexivity | exact H].
Defined.

(** ** More on fluids *)

Lemma flow_state_by_mask (c0 c1 c2 c3 : Z) :
  let m := min4 c0 c1 c2 c3 in
  get_fluid_flow_state_from_corner_levels [c0; c1; c2; c3]
  = g_min_corners_mask_to_flowstate
      !!! Z.to_nat (8 * bool_to_uint8 (c0 =? m) + 4 * bool_to_uint8 (c1 =? m)
                    + 2 * bool_to_uint8 (c2 =? m) + bool_to_uint8 (c3 =? m)).
Proof.
  intros m. unfold get_fluid_flow_state_from_corner_levels, min_corners_mask.
  cbn [lookup_total list_lookup_total]. fold m.
  destruct (c0 =? m), (c1 =? m), (c2 =? m), (c3 =? m); reflexivity.
Qed.

(** X9. The flow state only depends on which corners are the lowest: it is
    the same when all four levels are raised by the same amount, idle on a
    flat top, and reversed when the low corners and the high corners of a top
    with two levels are exchanged. *)
Theorem flow_state_symmetries (c0 c1 c2 c3 : Z) :
  (forall k, get_fluid_flow_state_from_corner_levels [c0 + k; c1 + k; c2 + k; c3 + k]
             = get_fluid_flow_state_from_corner_levels [c0; c1; c2; c3])
  /\ get_fluid_flow_state_from_corner_levels [c0; c0; c0; c0] = FLOW_IDLE
  /\ (forall (lo hi : Z) (b0 b1 b2 b3 : bool),
        lo < hi ->
        let level (low : bool) := if low then lo else hi in
        get_fluid_flow_state_from_corner_levels
          [level (negb b0); level (negb b1); level (negb b2); level (negb b3)]
        = opposite_flow
            (get_fluid_flow_state_from_corner_levels
               [level b0; level b1; level b2; level b3])).
Proof.
  split; [|split].
  - intros k. rewrite !flow_state_by_mask. cbv zeta.
    replace (min4 (c0 + k) (c1 + k) (c2 + k) (c3 + k)) with (min4 c0 c1 c2 c3 + k)
      by (unfold min4; lia).
    assert (E : forall c m, (c + k =? m + k) = (c =? m))
      by (intros c m; destruct (Z.eqb_spec c m), (Z.eqb_spec (c + k) (m + k)); lia || reflexivity).
    now rewrite !E.
  - rewrite flow_state_by_mask. cbv zeta.
    replace (min4 c0 c0 c0 c0) with c0 by (unfold min4; lia).
    rewrite Z.eqb_refl. reflexivity.
  - intros lo hi b0 b1 b2 b3 Hlt level.
    assert (Ehl : (hi =? lo) = false) by (apply Z.eqb_neq; lia).
    assert (Elh : (lo =? hi) = false) by (apply Z.eqb_neq; lia).
    rewrite !flow_state_by_mask. cbv zeta.
    destruct b0, b1, b2, b3; cbn [negb level];
      repeat match goal with
             | |- context [min4 ?a ?b ?c ?d] =>
                 first [ replace (min4 a b c d) with lo by (unfold min4; lia)
                       | replace (min4 a b c d) with hi by (unfold min4; lia) ]
             end;
      rewrite ?Z.eqb_refl, ?Ehl, ?Elh; reflexivity.
Qed.

(** *** Corner levels and heights *)

Lemma lerp_bounds (a b t : Q) :
  (a <= b)%Q -> (0 <= t <= 1)%Q -> (a <= lerp a b t <= b)%Q.
Proof. unfold lerp. intros Hab [H0 H1]. split; nra. Qed.

Lemma lerp_monotone (a b t t' : Q) :
  (a <= b)%Q -> (t <= t')%Q -> (lerp a b t <= lerp a b t')%Q.
Proof. unfold lerp. intros Hab Ht. nra. Qed.

Lemma level_fraction (M l l' : Z) :
  0 < M -> l <= l' ->
  (inject_Z l * (1 / inject_Z M) <= inject_Z l' * (1 / inject_Z M))%Q.
Proof.
  intros HM Hl. apply Qmult_le_compat_r.
  - now rewrite <- Zle_Qle.
  - apply Qle_shift_div_l; [now rewrite <- (Zlt_Qlt 0)|]. rewrite Qmult_0_l. discriminate.
Qed.

Lemma level_fraction_unit (M l : Z) :
  0 < M -> 0 <= l <= M -> (0 <= inject_Z l * (1 / inject_Z M) <= 1)%Q.
Proof.
  intros HM [H0 H1]. split.
  - pose proof (level_fraction M 0 l HM H0) as H. now rewrite Qmult_0_l in H.
  - pose proof (level_fraction M l M HM H1) as H.
    assert (E : (inject_Z M * (1 / inject_Z M) == 1)%Q).
    { field. intros E. apply (Qeq_bool_neq (inject_Z M) 0); [|exact E].
      unfold Qeq_bool, inject_Z. cbn. rewrite Z.mul_1_r.
      apply Z.eqb_neq. lia. }
    now rewrite E in H.
Qed.

(** X10. Each corner of the top of a fluid voxel is at one of the levels
    sampled around it, and not below the level sampled for the voxel itself;
    the height of a level grows with the level, and for levels between 0 and
    [max_level], with [max_level] positive and [BOTTOM_HEIGHT] not above
    [TOP_HEIGHT], the corner heights are between the two. *)
Theorem corner_levels_and_heights_are_bounded (K : Constants) (fluid : Fluid.t)
    (fl : list Z) :
  length fl = 9%nat ->
  0 < Fluid.max_level fluid ->
  (BOTTOM_HEIGHT K <= TOP_HEIGHT K)%Q ->
  let corner := get_corner_levels_from_fluid_levels fl in
  let max_level_inv := (1 / inject_Z (Fluid.max_level fluid))%Q in
  Forall (fun c => c ∈ fl /\ fl !!! 4%nat <= c) corner
  /\ (forall l l', l <= l' ->
        (level_to_height K max_level_inv l <= level_to_height K max_level_inv l')%Q)
  /\ (Forall (fun l => 0 <= l <= Fluid.max_level fluid) fl ->
      Forall (fun h => (BOTTOM_HEIGHT K <= h <= TOP_HEIGHT K)%Q)
             (get_corner_heights_from_corner_levels K corner fluid)).
Proof.
  intros Hlen HM HBT corner max_level_inv.
  destruct fl as [|f0 [|f1 [|f2 [|f3 [|f4 [|f5 [|f6 [|f7 [|f8 [|]]]]]]]]]]; try discriminate.
  unfold corner, get_corner_levels_from_fluid_levels, max4.
  cbn [lookup_total list_lookup_total].
  split; [|split].
  - assert (Hmax : forall a b c d : Z,
              let m := Z.max (Z.max a b) (Z.max c d) in
              m = a \/ m = b \/ m = c \/ m = d) by (intros; lia).
    repeat (apply List.Forall_cons; [|]); try apply List.Forall_nil;
      (split; [|lia]);
      match goal with
      | |- Z.max (Z.max ?a ?b) (Z.max ?c ?d) ∈ _ =>
          destruct (Hmax a b c d) as [E|[E|[E|E]]]; rewrite E;
          repeat first [apply list_elem_of_here | apply list_elem_of_further]
      end.
  - intros l l' Hl. unfold level_to_height. apply lerp_monotone; [exact HBT|].
    now apply level_fraction.
  - intros Hfl.
    assert (H0 : 0 <= f0 <= Fluid.max_level fluid) by (eapply (Forall_lookup_1 _ _ 0%nat) in Hfl; eauto).
    assert (H1 : 0 <= f1 <= Fluid.max_level fluid) by (eapply (Forall_lookup_1 _ _ 1%nat) in Hfl; eauto).
    assert (H2 : 0 <= f2 <= Fluid.max_level fluid) by (eapply (Forall_lookup_1 _ _ 2%nat) in Hfl; eauto).
    assert (H3 : 0 <= f3 <= Fluid.max_level fluid) by (eapply (Forall_lookup_1 _ _ 3%nat) in Hfl; eauto).
    assert (H4 : 0 <= f4 <= Fluid.max_level fluid) by (eapply (Forall_lookup_1 _ _ 4%nat) in Hfl; eauto).
    assert (H5 : 0 <= f5 <= Fluid.max_level fluid) by (eapply (Forall_lookup_1 _ _ 5%nat) in Hfl; eauto).
    assert (H6 : 0 <= f6 <= Fluid.max_level fluid) by (eapply (Forall_lookup_1 _ _ 6%nat) in Hfl; eauto).
    assert (H7 : 0 <= f7 <= Fluid.max_level fluid) by (eapply (Forall_lookup_1 _ _ 7%nat) in Hfl; eauto).
    assert (H8 : 0 <= f8 <= Fluid.max_level fluid) by (eapply (Forall_lookup_1 _ _ 8%nat) in Hfl; eauto).
    unfold get_corner_heights_from_corner_levels, level_to_height.
    cbn [lookup_total list_lookup_total].
    repeat (apply List.Forall_cons; [|]); try apply List.Forall_nil;
      (apply lerp_bounds; [exact HBT|]; apply level_fraction_unit; [exact HM | lia]).
Qed.

Lemma corner_levels_and_heights_are_bounded_witness :
  Forall (fun h => (1 # 16 <= h <= 15 # 16)%Q)
         (get_corner_heights_from_corner_levels cube_constants
            (get_corner_levels_from_fluid_levels [0; 0; 0; 3; 1; 0; 0; 0; 0]) water_fluid)
  /\ get_corner_levels_from_fluid_levels [0; 0; 0; 3; 1; 0; 0; 0; 0] = [1; 3; 3; 1].
Proof.
  split; [|reflexivity].
  assert (HM : 0 < 4) by lia.
  assert (HBT : (1 # 16 <= 15 # 16)%Q) by discriminate.
  apply (corner_levels_and_heights_are_bounded cube_constants water_fluid
           [0; 0; 0; 3; 1; 0; 0; 0; 0] eq_refl HM HBT).
  repeat (apply List.Forall_cons; [cbn; lia|]). apply List.Forall_nil.
Defined.

Lemma flow_state_symmetries_witness :
  get_fluid_flow_state_from_corner_levels [3; 3; 1; 1] = FLOW_STRAIGHT_POSITIVE_Z
  /\ get_fluid_flow_state_from_corner_levels [1; 1; 3; 3] = FLOW_STRAIGHT_NEGATIVE_Z.
Proof.
  assert (Hlt : 1 < 3) by lia.
  pose proof (proj2 (proj2 (flow_state_symmetries 0 0 0 0)) 1 3 true true false false Hlt) as H.
  cbn [negb] in H. split; [|reflexivity]. rewrite H. reflexivity.
Defined.

(** *** Sampling the neighbours of a fluid voxel *)

Lemma get_model_elem_of lib id m : get_model lib id = Some m -> m ∈ Library.models lib.
Proof.
  unfold get_model. destruct (id <? 0); [discriminate|]. apply list_elem_of_lookup_2.
Qed.

Lemma sample_fluid_neighbor_step lib voxel fluid tb idx yj xj zj i fl cov d i' fl' cov' :
  sample_fluid_neighbor lib voxel fluid tb idx yj xj zj (i, fl, cov) d = Some (i', fl', cov') ->
  i' = S i
  /\ length fl' = length fl
  /\ (Forall (sampled_level lib voxel) fl -> Forall (sampled_level lib voxel) fl')
  /\ (forall j, j <> i -> fl' !! j = fl !! j)
  /\ (cov' = cov \/ (i <> 4%nat /\ cov' = Z.lor cov (Z.shiftl 1 (Z.of_nat i)))).
Proof.
  unfold sample_fluid_neighbor. destruct d as [dz dx]. intros H.
  apply bind_Some in H as (nid & _ & H).
  apply bind_Some in H as ([fl1 cov1] & H1 & H). injection H as <- <- <-.
  split; [reflexivity|].
  assert (Hzero : forall l, length (<[i := 0]> l) = length l
                            /\ (Forall (sampled_level lib voxel) l ->
                                Forall (sampled_level lib voxel) (<[i := 0]> l))
                            /\ (forall j, j <> i -> <[i := 0]> l !! j = l !! j)).
  { intros l. split; [apply length_insert|]. split.
    - intros Hl. apply Forall_insert; [exact Hl | now left].
    - intros j Hj. now rewrite list_lookup_insert_ne by congruence. }
  destruct (has_model lib nid);
    [|injection H1 as <- <-; destruct (Hzero fl) as (? & ? & ?); auto].
  apply bind_Some in H1 as (nm & Hnm & H1).
  destruct (Z.eqb_spec (BakedData.fluid_index nm) (BakedData.fluid_index voxel)) as [Hsame|];
    [|injection H1 as <- <-; destruct (Hzero fl) as (? & ? & ?); auto].
  apply bind_Some in H1 as (cov2 & Hcov & H1).
  apply bind_Some in H1 as (fl2 & Hfl & H1). injection H1 as <- <-.
  assert (Hset : length (<[i := BakedData.fluid_level nm]> fl) = length fl
                 /\ (Forall (sampled_level lib voxel) fl ->
                     Forall (sampled_level lib voxel) (<[i := BakedData.fluid_level nm]> fl))
                 /\ (forall j, j <> i -> <[i := BakedData.fluid_level nm]> fl !! j = fl !! j)).
  { split; [apply length_insert|]. split.
    - intros Hl. apply Forall_insert; [exact Hl|]. right. exists nm.
      split; [eapply get_model_elem_of; eauto | auto].
    - intros j Hj. now rewrite list_lookup_insert_ne by congruence. }
  destruct Hset as (Hl1 & Hs1 & Ho1).
  assert (Hfl2 : fl2 = <[i := BakedData.fluid_level nm]> fl
                 \/ fl2 = <[i := 0]> (<[i := BakedData.fluid_level nm]> fl)).
  { destruct (Fluid.dip_when_flowing_down fluid); [|injection Hfl as <-; now left].
    destruct (_ && _); [|injection Hfl as <-; now left].
    apply bind_Some in Hfl as (bnid & _ & Hfl).
    destruct (bnid =? AIR_ID); [injection Hfl as <-; now right|].
    destruct (has_model lib bnid); [|injection Hfl as <-; now left].
    apply bind_Some in Hfl as (bnm & _ & Hfl). injection Hfl as <-.
    destruct (_ =? _); [now right | now left]. }
  assert (Hcov2 : cov2 = cov \/ (i <> 4%nat /\ cov2 = Z.lor cov (Z.shiftl 1 (Z.of_nat i)))).
  { destruct (Nat.eqb_spec i 4) as [|Hi]; cbn [negb] in Hcov;
      [injection Hcov as <-; now left|].
    apply bind_Some in Hcov as (anid & _ & Hcov).
    destruct (_ && _); [|injection Hcov as <-; now left].
    apply bind_Some in Hcov as (anm & _ & Hcov). injection Hcov as <-.
    destruct (BakedData.fluid_index anm =? BakedData.fluid_index voxel);
      [right; auto | now left]. }
  destruct (Hzero (<[i := BakedData.fluid_level nm]> fl)) as (Hl0 & Hs0 & Ho0).
  destruct Hfl2 as [-> | ->].
  - repeat split; auto.
  - repeat split; auto; [congruence|].
    intros j Hj. rewrite Ho0, Ho1 by exact Hj. reflexivity.
Qed.

Lemma sample_fluid_neighbors lib voxel fluid tb idx yj xj zj l :
  forall i fl cov i' fl' cov',
  foldM (sample_fluid_neighbor lib voxel fluid tb idx yj xj zj) (i, fl, cov) l
    = Some (i', fl', cov') ->
  i' = (i + length l)%nat
  /\ length fl' = length fl
  /\ (Forall (sampled_level lib voxel) fl -> Forall (sampled_level lib voxel) fl')
  /\ (forall n, Z.testbit cov' n = true ->
        Z.testbit cov n = true \/ (Z.of_nat i <= n < Z.of_nat i' /\ n <> 4)).
Proof.
  induction l as [|d l IH]; intros i fl cov i' fl' cov' H.
  - injection H as <- <- <-. split; [cbn; lia|]. auto.
  - cbn [foldM] in H. apply bind_Some in H as ([[i1 fl1] cov1] & H1 & H).
    apply sample_fluid_neighbor_step in H1 as (-> & Hl1 & Hs1 & _ & Hc1).
    apply IH in H as (-> & Hl & Hs & Hc).
    split; [cbn; lia|]. split; [congruence|]. split; [auto|].
    intros n Hn. apply Hc in Hn as [Hn|Hn]; [|right; lia].
    destruct Hc1 as [-> | [Hi ->]]; [now left|].
    rewrite Z.lor_spec in Hn. apply orb_true_iff in Hn as [Hn|Hn]; [now left|].
    right. rewrite Z.shiftl_1_l in Hn.
    destruct (Z.ltb_spec n 0) as [Hneg|Hpos]; [now rewrite Z.testbit_neg_r in Hn|].
    rewrite Z.pow2_bits_eqb in Hn by lia. apply Z.eqb_eq in Hn. lia.
Qed.

(** X11. The nine neighbours of a fluid voxel are sampled into nine levels,
    each 0 or the level of a model of the same fluid, and into a mask of
    covered neighbours that only has bits 0 to 8 and never bit 4, the one of
    the voxel itself. *)
Theorem fluid_neighbours_are_sampled_in_range (lib : Library.t) (voxel : BakedData.t)
    (fluid : Fluid.t) (type_buffer : list Z)
    (voxel_index y_jump_size x_jump_size z_jump_size : Z)
    (i : nat) (fluid_levels : list Z) (covered_neighbors : Z) :
  foldM (sample_fluid_neighbor lib voxel fluid type_buffer voxel_index
           y_jump_size x_jump_size z_jump_size)
        (0%nat, replicate 9 0, 0) fluid_neighborhood
    = Some (i, fluid_levels, covered_neighbors) ->
  i = 9%nat
  /\ length fluid_levels = 9%nat
  /\ Forall (sampled_level lib voxel) fluid_levels
  /\ (forall n, Z.testbit covered_neighbors n = true -> 0 <= n <= 8 /\ n <> 4).
Proof.
  intros H. apply sample_fluid_neighbors in H as (-> & Hl & Hs & Hc).
  split; [reflexivity|]. split; [exact Hl|]. split.
  - apply Hs. apply Forall_replicate. now left.
  - intros n Hn. apply Hc in Hn as [Hn|Hn].
    + now rewrite Z.bits_0 in Hn.
    + cbn in Hn. lia.
Qed.

Lemma fluid_neighbours_are_sampled_in_range_witness :
  foldM (sample_fluid_neighbor water_library (water_model 1) water_fluid water_buffer 13 1 3 9)
        (0%nat, replicate 9 0, 0) fluid_neighborhood
  = Some (9%nat, [0; 0; 0; 3; 1; 0; 0; 0; 0], 0)
  /\ Forall (sampled_level water_library (water_model 1)) [0; 0; 0; 3; 1; 0; 0; 0; 0].
Proof.
  assert (E : foldM (sample_fluid_neighbor water_library (water_model 1) water_fluid
                       water_buffer 13 1 3 9)
                    (0%nat, replicate 9 0, 0) fluid_neighborhood
              = Some (9%nat, [0; 0; 0; 3; 1; 0; 0; 0; 0], 0)) by (vm_compute; reflexivity).
  split; [exact E|].
  apply (fluid_neighbours_are_sampled_in_range water_library (water_model 1) water_fluid
           water_buffer 13 1 3 9 9 [0; 0; 0; 3; 1; 0; 0; 0; 0] 0 E).
Defined.

(** *** The model made for a fluid voxel *)

Lemma set_position_y_footprint positions i y positions' :
  set_position_y positions i y = Some positions' ->
  footprint positions' = footprint positions.
Proof.
  unfold set_position_y, footprint. intros H. apply bind_Some in H as (q & Hq & H).
  injection H as <-. rewrite list_fmap_insert. cbn [set_y v3x v3z].
  apply list_insert_id. rewrite list_lookup_fmap, Hq. reflexivity.
Qed.

Lemma set_position_y_other positions i y positions' j :
  set_position_y positions i y = Some positions' -> j <> i ->
  positions' !! j = positions !! j.
Proof. intros H Hj. apply set_position_y_lookup in H as [_ H]. now apply H. Qed.

Lemma raise_top_vertices_keeps s h2 h3 s' :
  raise_top_vertices s h2 h3 = Some s' ->
  footprint (SideSurface.positions s') = footprint (SideSurface.positions s)
  /\ SideSurface.uvs s' = SideSurface.uvs s
  /\ SideSurface.indices s' = SideSurface.indices s
  /\ SideSurface.tangents s' = SideSurface.tangents s
  /\ (forall j, j <> 2%nat -> j <> 3%nat ->
        SideSurface.positions s' !! j = SideSurface.positions s !! j).
Proof.
  unfold raise_top_vertices. intros H.
  apply bind_Some in H as (p1 & H1 & H). apply bind_Some in H as (p2 & H2 & H).
  injection H as <-.
  cbn [SideSurface.positions SideSurface.uvs SideSurface.indices SideSurface.tangents].
  split; [|repeat split].
  - rewrite (set_position_y_footprint _ _ _ _ H2). now apply set_position_y_footprint in H1.
  - intros j Hj2 Hj3.
    rewrite (set_position_y_other _ _ _ _ j H2 Hj3).
    now apply (set_position_y_other _ _ _ _ j H1).
Qed.

Lemma covered_by_spec lib voxel top_voxel_id (covered : bool) :
  (if has_model lib top_voxel_id
   then top_model ← get_model lib top_voxel_id;
        Some (BakedData.fluid_index top_model =? BakedData.fluid_index voxel)
   else Some false) = Some covered ->
  covered = covered_by lib voxel top_voxel_id.
Proof.
  unfold covered_by. destruct (has_model lib top_voxel_id) eqn:Eh.
  - intros H. apply bind_Some in H as (m & -> & H). now injection H as <-.
  - intros H. injection H as <-.
    destruct (get_model lib top_voxel_id) eqn:Eg; [|reflexivity].
    assert (has_model lib top_voxel_id = true) by (apply has_model_get_model; eauto).
    congruence.
Qed.

(** X12. The model made for a fluid voxel has one surface.  Each of its sides
    but the top one is the side of the fluid, with the same indices and
    tangents, the same x and z for every vertex, and the UV of the side for
    each vertex; only the heights of vertices 2 and 3 of a lateral side may
    differ, and the bottom side is unchanged.  The top is never a side: when
    the voxel above is not of the same fluid it is the only surface, without
    collision, of the material of the fluid, all normals up, over the same x
    and z as the top side of the fluid; when it is, the surfaces are those of
    the model itself and the lateral sides are left at their baked height. *)
Theorem fluid_voxel_keeps_the_shape_of_its_fluid (K : Constants) (voxel : BakedData.t)
    (type_buffer : list Z) (voxel_index y_jump_size x_jump_size z_jump_size : Z)
    (lib : Library.t) (r : list Surface.t * (Side -> list SideSurface.t) * nat) :
  generate_fluid_model K voxel type_buffer voxel_index y_jump_size x_jump_size
    z_jump_size lib = Some r ->
  exists fluid top_voxel_id,
    Library.fluids lib !! Z.to_nat (BakedData.fluid_index voxel) = Some fluid
    /\ read type_buffer (voxel_index + y_jump_size) = Some top_voxel_id
    /\ r.2 = 1%nat
    /\ r.1.2 SIDE_POSITIVE_Y = [SideSurface.clear; SideSurface.clear]
    /\ r.1.2 SIDE_NEGATIVE_Y
       = [copy (Fluid.side_surfaces fluid SIDE_NEGATIVE_Y) (fluid_side_uv K SIDE_NEGATIVE_Y);
          SideSurface.clear]
    /\ (forall side, side <> SIDE_POSITIVE_Y ->
          exists side_surface,
            let src := copy (Fluid.side_surfaces fluid side) (fluid_side_uv K side) in
            r.1.2 side = [side_surface; SideSurface.clear]
            /\ footprint (SideSurface.positions side_surface)
               = footprint (SideSurface.positions src)
            /\ SideSurface.uvs side_surface = SideSurface.uvs src
            /\ SideSurface.indices side_surface = SideSurface.indices src
            /\ SideSurface.tangents side_surface = SideSurface.tangents src
            /\ (forall j, j <> 2%nat -> j <> 3%nat ->
                  SideSurface.positions side_surface !! j = SideSurface.positions src !! j)
            /\ (covered_by lib voxel top_voxel_id = true -> side_surface = src))
    /\ (if covered_by lib voxel top_voxel_id
        then r.1.1 = Model.surfaces (BakedData.model voxel)
        else exists top,
               let src := Fluid.side_surfaces fluid SIDE_POSITIVE_Y in
               r.1.1 = [top]
               /\ Surface.collision_enabled top = false
               /\ Surface.material_id top = Fluid.material_id fluid
               /\ footprint (Surface.positions top) = footprint (FluidSurface.positions src)
               /\ Surface.normals top
                  = replicate (length (FluidSurface.positions src)) (mkVector3f 0 1 0)
               /\ length (Surface.uvs top) = 4%nat
               /\ length (Surface.indices top) = length (FluidSurface.indices src)
               /\ Surface.tangents top = FluidSurface.tangents src).
Proof.
  intros H. unfold generate_fluid_model in H.
  apply bind_Some in H as (top_id & Htop & H).
  apply bind_Some in H as (covered & Hcov & H).
  apply covered_by_spec in Hcov. subst covered.
  apply bind_Some in H as (fluid & Hfluid & H).
  exists fluid, top_id. split; [exact Hfluid|]. split; [exact Htop|].
  destruct (covered_by lib voxel top_id).
  - injection H as <-. cbn [fst snd].
    split; [reflexivity|]. split; [reflexivity|]. split; [reflexivity|].
    split; [|reflexivity].
    intros side Hside.
    destruct side; try congruence; eexists; cbv zeta; cbn [fluid_side_uv];
      repeat split; reflexivity.
  - apply bind_Some in H as (sampled & _ & H).
    apply bind_Some in H as (neg_x & Hnx & H).
    apply bind_Some in H as (pos_x & Hpx & H).
    apply bind_Some in H as (neg_z & Hnz & H).
    apply bind_Some in H as (pos_z & Hpz & H).
    apply bind_Some in H as (p0 & Hp0 & H).
    apply bind_Some in H as (p1 & Hp1 & H).
    apply bind_Some in H as (p2 & Hp2 & H).
    apply bind_Some in H as (p3 & Hp3 & H).
    apply bind_Some in H as (top_indices & Hti & H).
    injection H as <-. cbn [fst snd].
    split; [reflexivity|]. split; [reflexivity|]. split; [reflexivity|].
    split.
    + intros side Hside.
      apply raise_top_vertices_keeps in Hnx as (? & ? & ? & ? & ?).
      apply raise_top_vertices_keeps in Hpx as (? & ? & ? & ? & ?).
      apply raise_top_vertices_keeps in Hnz as (? & ? & ? & ? & ?).
      apply raise_top_vertices_keeps in Hpz as (? & ? & ? & ? & ?).
      destruct side; try congruence; eexists; cbv zeta; cbn [fluid_side_uv];
        (split; [reflexivity|]); repeat split; try assumption; try reflexivity;
        discriminate.
    + eexists. cbv zeta. split; [reflexivity|].
      cbn [Surface.collision_enabled Surface.material_id Surface.positions Surface.normals
           Surface.uvs Surface.indices Surface.tangents copy_positions_normals_tangents].
      split; [reflexivity|]. split; [reflexivity|]. split.
      { rewrite (set_position_y_footprint _ _ _ _ Hp3),
          (set_position_y_footprint _ _ _ _ Hp2),
          (set_position_y_footprint _ _ _ _ Hp1).
        now apply set_position_y_footprint in Hp0. }
      split; [reflexivity|]. split; [reflexivity|]. split; [|reflexivity].
      destruct (_ || _); [|now injection Hti as <-].
      now apply (transpose_quad_triangles_keeps (fun _ => True)) in Hti as [Hl _].
Qed.

Lemma fluid_voxel_keeps_the_shape_of_its_fluid_witness :
  exists r,
    generate_fluid_model cube_constants (water_model 1) water_buffer 13 1 3 9 water_library
    = Some r
    /\ r.2 = 1%nat
    /\ r.1.2 SIDE_POSITIVE_Y = [SideSurface.clear; SideSurface.clear]
    /\ r.1.2 SIDE_NEGATIVE_Y
       = [copy (Fluid.side_surfaces water_fluid SIDE_NEGATIVE_Y)
            (fluid_side_uv cube_constants SIDE_NEGATIVE_Y); SideSurface.clear].
Proof.
  destruct (generate_fluid_model cube_constants (water_model 1) water_buffer 13 1 3 9
              water_library) as [r|] eqn:E; [|vm_compute in E; discriminate E].
  exists r. split; [reflexivity|].
  destruct (fluid_voxel_keeps_the_shape_of_its_fluid cube_constants (water_model 1)
              water_buffer 13 1 3 9 water_library r E)
    as (fluid & top_id & Hfluid & _ & Hcount & Htop & Hbottom & _).
  injection Hfluid as <-. auto.
Defined.

(** *** The preview of a fluid *)

Lemma flat_top_is_idle (c : Z) :
  get_fluid_flow_state_from_corner_levels [c; c; c; c] = FLOW_IDLE.
Proof.
  rewrite flow_state_by_mask. cbv zeta.
  replace (min4 c c c c) with c by (unfold min4; lia).
  rewrite Z.eqb_refl. reflexivity.
Qed.

Section Preview.
Variable lib : Library.t.
Variable model : BakedData.t.
Variable fluid : Fluid.t.
Variable model_id : Z.
Hypothesis air_is_no_fluid : forall air,
  get_model lib AIR_ID = Some air ->
  BakedData.fluid_index air <> BakedData.fluid_index model.

Let id_buffer : list Z := <[13%nat := model_id]> (replicate 27 AIR_ID).

Lemma preview_samples_air i fl cov dz dx :
  read id_buffer (13 + dx * 3 + dz * 9) = Some AIR_ID ->
  sample_fluid_neighbor lib model fluid id_buffer 13 1 3 9 (i, fl, cov) (dz, dx)
  = Some (S i, <[i := 0]> fl, cov).
Proof.
  intros Hread. unfold sample_fluid_neighbor. rewrite Hread. cbn [mbind option_bind].
  destruct (has_model lib AIR_ID) eqn:Eh; [|reflexivity].
  apply has_model_get_model in Eh as [air Hair]. rewrite Hair. cbn [mbind option_bind].
  destruct (Z.eqb_spec (BakedData.fluid_index air) (BakedData.fluid_index model)) as [E|];
    [|reflexivity].
  now apply air_is_no_fluid in Hair.
Qed.

Lemma preview_sampling s :
  foldM (sample_fluid_neighbor lib model fluid id_buffer 13 1 3 9)
        (0%nat, replicate 9 0, 0) fluid_neighborhood = Some s ->
  exists level,
    s = (9%nat, [0; 0; 0; 0; level; 0; 0; 0; 0], 0)
    /\ sampled_level lib model level.
Proof.
  intros H. cbn [fluid_neighborhood mbind list_bind app foldM] in H.
  repeat (rewrite preview_samples_air in H by reflexivity; cbn [mbind option_bind] in H).
  apply bind_Some in H as ([[i fl] cov] & Hcentre & H).
  pose proof (sample_fluid_neighbor_step _ _ _ _ _ _ _ _ _ _ _ _ _ _ _ Hcentre)
    as (-> & Hlen & Hlevels & Hother & Hcov).
  destruct Hcov as [-> | [Hne _]]; [|congruence].
  cbn in Hlen, Hother.
  destruct fl as [|f0 [|f1 [|f2 [|f3 [|f4 [|f5 [|f6 [|f7 [|f8 [|]]]]]]]]]]; try discriminate.
  pose proof (Hother 0%nat) as E0. pose proof (Hother 1%nat) as E1.
  pose proof (Hother 2%nat) as E2. pose proof (Hother 3%nat) as E3.
  pose proof (Hother 5%nat) as E5. pose proof (Hother 6%nat) as E6.
  pose proof (Hother 7%nat) as E7. pose proof (Hother 8%nat) as E8.
  cbn in E0, E1, E2, E3, E5, E6, E7, E8.
  injection (E0 ltac:(lia)) as ->. injection (E1 ltac:(lia)) as ->.
  injection (E2 ltac:(lia)) as ->. injection (E3 ltac:(lia)) as ->.
  injection (E5 ltac:(lia)) as ->. injection (E6 ltac:(lia)) as ->.
  injection (E7 ltac:(lia)) as ->. injection (E8 ltac:(lia)) as ->.
  repeat (rewrite preview_samples_air in H by reflexivity; cbn [mbind option_bind] in H).
  injection H as <-. exists f4. split; [reflexivity|].
  assert (Hall : Forall (sampled_level lib model) [0; 0; 0; 0; f4; 0; 0; 0; 0]).
  { apply Hlevels. cbn. repeat (apply List.Forall_cons; [now left|]). apply List.Forall_nil. }
  apply (Forall_lookup_1 _ _ 4%nat f4 Hall). reflexivity.
Qed.

End Preview.

(** X13. The preview of a fluid, its model alone in a block of air, is flat
    and idle: the four vertices of the top are at the same height, the one of
    a level sampled for the voxel itself (0, or the level of a model of the
    fluid), every UV of the top carries the idle flow state, and the triangles
    of the top are the baked ones.  A model that is no fluid fails the
    assertion. *)
Theorem preview_of_a_fluid_is_flat_and_idle (K : Constants) (model : BakedData.t)
    (model_id : Z) (lib : Library.t) :
  (BakedData.fluid_index model = NULL_FLUID_INDEX ->
   generate_preview_fluid_model K model model_id lib = None)
  /\ (forall fluid r,
        Library.fluids lib !! Z.to_nat (BakedData.fluid_index model) = Some fluid ->
        (forall air, get_model lib AIR_ID = Some air ->
                     BakedData.fluid_index air <> BakedData.fluid_index model) ->
        generate_preview_fluid_model K model model_id lib = Some r ->
        exists top level,
          r.1 = [top]
          /\ sampled_level lib model level
          /\ Surface.uvs top = replicate 4 (uv_of K AXIS_Y FLOW_IDLE)
          /\ Surface.indices top
             = FluidSurface.indices (Fluid.side_surfaces fluid SIDE_POSITIVE_Y)
          /\ forall k, (k < 4)%nat ->
               (v3y <$> Surface.positions top !! k)
               = Some (level_to_height K (1 / inject_Z (Fluid.max_level fluid))
                         (Z.max 0 level))).
Proof.
  split.
  - intros Hnull. unfold generate_preview_fluid_model. rewrite Hnull. reflexivity.
  - intros fluid r Hfluid Hair H. unfold generate_preview_fluid_model in H.
    destruct (BakedData.fluid_index model =? NULL_FLUID_INDEX); [discriminate|].
    cbv zeta in H. apply bind_Some in H as (r0 & H & Hr). injection Hr as <-.
    cbn [fst snd]. unfold generate_fluid_model in H.
    apply bind_Some in H as (top_id & Htop & H).
    vm_compute in Htop. injection Htop as <-.
    apply bind_Some in H as (covered & Hcov & H).
    apply covered_by_spec in Hcov.
    assert (covered = false) as ->.
    { subst covered. unfold covered_by.
      destruct (get_model lib 0) as [air|] eqn:E; [|reflexivity].
      apply Z.eqb_neq. now apply Hair. }
    apply bind_Some in H as (fluid' & Hfluid' & H).
    assert (fluid' = fluid) as -> by congruence.
    apply bind_Some in H as (sampled & Hs & H).
    apply (preview_sampling lib model fluid model_id Hair) in Hs as (level & -> & Hlevel).
    cbn [fst snd] in H.
    unfold get_corner_levels_from_fluid_levels in H.
    cbn [lookup_total list_lookup_total] in H.
    replace (max4 0 0 level 0) with (Z.max 0 level) in H by (unfold max4; lia).
    replace (max4 0 0 0 level) with (Z.max 0 level) in H by (unfold max4; lia).
    replace (max4 0 level 0 0) with (Z.max 0 level) in H by (unfold max4; lia).
    replace (max4 level 0 0 0) with (Z.max 0 level) in H by (unfold max4; lia).
    rewrite flat_top_is_idle in H.
    cbn [Z.land Z.eqb negb bool_decide decide_rel orb] in H.
    apply bind_Some in H as (neg_x & _ & H).
    apply bind_Some in H as (pos_x & _ & H).
    apply bind_Some in H as (neg_z & _ & H).
    apply bind_Some in H as (pos_z & _ & H).
    apply bind_Some in H as (p0 & Hp0 & H).
    apply bind_Some in H as (p1 & Hp1 & H).
    apply bind_Some in H as (p2 & Hp2 & H).
    apply bind_Some in H as (p3 & Hp3 & H).
    apply bind_Some in H as (top_indices & Hti & H).
    injection H as <-. cbn [fst snd].
    eexists _, level. split; [reflexivity|]. split; [exact Hlevel|].
    cbn [Surface.uvs Surface.indices Surface.positions].
    split; [reflexivity|]. split.
    + vm_compute in Hti. now injection Hti as <-.
    + intros k Hk.
      apply set_position_y_lookup in Hp0 as [E0 O0], Hp1 as [E1 O1],
        Hp2 as [E2 O2], Hp3 as [E3 O3].
      unfold get_corner_heights_from_corner_levels in *.
      cbn [lookup_total list_lookup_total lookup list_lookup default] in *.
      destruct k as [|[|[|[|k]]]]; [| | | |lia].
      * rewrite O3, O2, O1 by lia. exact E0.
      * rewrite O3, O2 by lia. exact E1.
      * rewrite O3 by lia. exact E2.
      * exact E3.
Qed.

Lemma preview_of_a_fluid_is_flat_and_idle_witness :
  generate_preview_fluid_model cube_constants cube_model 1 water_library = None
  /\ exists r top level,
       generate_preview_fluid_model cube_constants (water_model 1) 2 water_library = Some r
       /\ r.1 = [top]
       /\ Surface.uvs top = replicate 4 (uv_of cube_constants AXIS_Y FLOW_IDLE)
       /\ forall k, (k < 4)%nat ->
            (v3y <$> Surface.positions top !! k)
            = Some (level_to_height cube_constants (1 / inject_Z 4) (Z.max 0 level)).
Proof.
  split.
  - apply (proj1 (preview_of_a_fluid_is_flat_and_idle cube_constants cube_model 1
                    water_library)). reflexivity.
  - destruct (generate_preview_fluid_model cube_constants (water_model 1) 2 water_library)
      as [r|] eqn:E; [|vm_compute in E; discriminate E].
    destruct (proj2 (preview_of_a_fluid_is_flat_and_idle cube_constants (water_model 1) 2
                       water_library) water_fluid r eq_refl)
      as (top & level & Hr & _ & Huvs & _ & Hheights); [|exact E|].
    + intros air Hair. vm_compute in Hair. injection Hair as <-. discriminate.
    + exists r, top, level. auto.
Defined.

(** ** Where the seams are placed *)

Lemma mesh_voxel_at {S : Type} (emit : S -> Patch -> option S) K lib type_buffer
    block_size bake d (st : S) x y z :
  mesh_voxel K lib type_buffer (iy block_size) (ix block_size * iy block_size) emit bake d
    st x y z
  = (voxel_id ← read type_buffer (voxel_address block_size (mkVector3i x y z));
     if (voxel_id =? AIR_ID) || negb (has_model lib voxel_id) then Some st
     else
       voxel ← get_model lib voxel_id;
       fluid_or_model ←
         (if negb (BakedData.fluid_index voxel =? NULL_FLUID_INDEX) then
            generate_fluid_model K voxel type_buffer
              (voxel_address block_size (mkVector3i x y z)) 1 (iy block_size)
              (ix block_size * iy block_size) lib
          else Some (Model.surfaces (BakedData.model voxel),
                     Model.sides_surfaces (BakedData.model voxel),
                     Model.surface_count (BakedData.model voxel)));
       st ← foldM (mesh_side K lib type_buffer (iy block_size)
                     (ix block_size * iy block_size) emit bake d voxel
                     fluid_or_model.1.1 fluid_or_model.1.2 fluid_or_model.2
                     (voxel_address block_size (mkVector3i x y z))
                     (voxel_position (mkVector3i x y z))) st SIDES;
       foldM (mesh_inside emit voxel fluid_or_model.1.1
                (voxel_position (mkVector3i x y z))) st (seq 0 fluid_or_model.2)).
Proof. reflexivity. Qed.

Lemma seams_by_layer {S : Type} (emit : S -> Patch -> option S) K buffer size lib (out : S) :
  seams emit K buffer size lib out
  = foldM (fun out '(side, jump, z, size_x, size_y) =>
             append_side_seams emit K buffer jump z size_x size_y side lib out)
          out (seam_layers size).
Proof.
  unfold seams, seam_layers. cbn [foldM].
  repeat (destruct (append_side_seams _ _ _ _ _ _ _ _ _ _); cbn [mbind option_bind];
          [|reflexivity]).
  reflexivity.
Qed.

Lemma seam_voxel_at {S : Type} (emit : S -> Patch -> option S) K buffer
    jump z side lib (st : S) x y v nv0 nv1 nv2 nv3 nv4 :
  let buffer_index := x * ix jump + y * iy jump + z * iz jump in
  read buffer buffer_index = Some v -> v <> 0 ->
  read buffer (buffer_index - ix jump) = Some nv0 ->
  read buffer (buffer_index + ix jump) = Some nv1 ->
  read buffer (buffer_index - iy jump) = Some nv2 ->
  read buffer (buffer_index + iy jump) = Some nv3 ->
  nv0 = 0 \/ nv1 = 0 \/ nv2 = 0 \/ nv3 = 0 ->
  read buffer (seam_inner_address jump z side x y) = Some nv4 -> nv4 <> 0 ->
  seam_voxel emit K buffer jump z side lib st x y
  = (voxel_baked_data ← get_model lib nv4;
     foldM (fun st surface_index =>
              p ← seam_patch K side (seam_position z side x y) voxel_baked_data surface_index;
              emit st p)
           st (seq 0 (Model.surface_count (BakedData.model voxel_baked_data)))).
Proof.
  intros buffer_index Hv Hv0 H0 H1 H2 H3 Hair H4 Hnv4.
  rewrite (seam_voxel_emits_when_exposed emit K buffer jump z side lib st x y
             v nv0 nv1 nv2 nv3 nv4 Hv H0 H1 H2 H3 H4).
  destruct (Z.eqb_spec v 0); [contradiction|].
  destruct (Z.eqb_spec nv4 0); [contradiction|].
  assert (E : (nv0 =? 0) || (nv1 =? 0) || (nv2 =? 0) || (nv3 =? 0) = true).
  { destruct Hair as [Ha|[Ha|[Ha|Ha]]]; rewrite Ha; cbn; rewrite ?orb_true_r; reflexivity. }
  rewrite E. reflexivity.
Qed.

Lemma inject_position a b c a' b' c' :
  a = a' -> b = b' -> c = c' ->
  mkVector3f (inject_Z a) (inject_Z b) (inject_Z c)
  = mkVector3f (inject_Z a') (inject_Z b') (inject_Z c').
Proof. now intros -> -> ->. Qed.

(** X14. On each of the six sides of the block, the inner voxel a seam is
    taken from is the voxel of the block next to the padding, behind the
    outer voxel, with the two coordinates of the layer: the address read for
    it is the address the main pass gives that voxel, and the seam is placed
    at the position the main pass gives it; in a block at least three voxels
    wide it is a voxel the main pass meshes. *)
Theorem seam_is_placed_on_the_inner_voxel (size : Vector3i) :
  Forall (fun '(side, jump, z, size_x, size_y) =>
            forall x y,
              exists v,
                seam_inner_address jump z side x y = voxel_address size v
                /\ seam_position z side x y = voxel_position v
                /\ (1 <= x < size_x - 1 -> 1 <= y < size_y - 1 ->
                    3 <= ix size -> 3 <= iy size -> 3 <= iz size ->
                    inner_voxel size v))
         (seam_layers size).
Proof.
  unfold seam_layers.
  repeat (apply List.Forall_cons; [|]); try apply List.Forall_nil; intros x y;
    [ exists (mkVector3i x y 1) | exists (mkVector3i x y (iz size - 2))
    | exists (mkVector3i 1 y x) | exists (mkVector3i (ix size - 2) y x)
    | exists (mkVector3i y 1 x) | exists (mkVector3i y (iy size - 2) x) ];
    unfold seam_inner_address, seam_position, voxel_address, voxel_position, inner_voxel,
      side_to_block_coordinates, zyx, yzx, get_side_sign, jump_zyx, jump_zxy;
    cbn [ix iy iz v3x v3y v3z];
    (split; [ring|]); (split; [apply inject_position; lia | lia]).
Qed.

Lemma seam_is_placed_on_the_inner_voxel_witness :
  exists v,
    seam_inner_address (mkVector3i 3 1 9) 0 SIDE_NEGATIVE_Z 1 1
    = voxel_address (mkVector3i 3 3 3) v
    /\ seam_position 0 SIDE_NEGATIVE_Z 1 1 = voxel_position v
    /\ inner_voxel (mkVector3i 3 3 3) v.
Proof.
  pose proof (seam_is_placed_on_the_inner_voxel (mkVector3i 3 3 3)) as H.
  apply List.Forall_inv in H. destruct (H 1 1) as (v & Ha & Hp & Hin).
  exists v. split; [exact Ha|]. split; [exact Hp|]. apply Hin; cbn; lia.
Defined.

(** ** How dark the baked occlusion gets *)

Lemma edge_sum_le_edge_ends K lib type_buffer row_size deck_size voxel_index side c js :
  edge_sum K lib type_buffer row_size deck_size voxel_index side c js
  <= edge_ends K side c js.
Proof.
  induction js as [|j js IH]; cbn [edge_sum edge_ends]; [lia|].
  unfold edge_contribution. cbv zeta.
  destruct (neighbor_contributes_to_ao _ _ _ _); [lia|].
  do 2 destruct (bool_decide _); cbn; lia.
Qed.

Lemma distance_squared_nonneg (a b : Vector3f) : (0 <= distance_squared a b)%Q.
Proof.
  assert (Hsq : forall t : Q, (0 <= t * t)%Q) by (intros; nra).
  unfold distance_squared.
  pose proof (Hsq (v3x a - v3x b)%Q). pose proof (Hsq (v3y a - v3y b)%Q).
  pose proof (Hsq (v3z a - v3z b)%Q). lra.
Qed.

Lemma spec_shade_term_bounds K side d sc v j n :
  (0 <= d)%Q -> 0 <= sc (g_side_corners K side j) <= n ->
  (0 <= spec_shade_term K side d sc v j <= d * inject_Z n)%Q.
Proof.
  intros Hd [H0 Hn]. unfold spec_shade_term.
  set (c := g_side_corners K side j) in *.
  pose proof (distance_squared_nonneg (g_corner_position K c) v) as Hdist.
  assert (Hk : (0 <= Qmax 0 (1 - distance_squared (g_corner_position K c) v) <= 1)%Q).
  { split; [apply Q.le_max_l|]. apply Q.max_lub; [discriminate | lra]. }
  assert (Hs0 : (0 <= inject_Z (sc c))%Q) by (change 0%Q with (inject_Z 0); now rewrite <- Zle_Qle).
  assert (Hsn : (inject_Z (sc c) <= inject_Z n)%Q) by (now rewrite <- Zle_Qle).
  revert Hk Hs0 Hsn. generalize (Qmax 0 (1 - distance_squared (g_corner_position K c) v)).
  generalize (inject_Z (sc c)). generalize (inject_Z n).
  intros qn qs qk Hk Hs0 Hsn.
  assert (A : (0 <= d * qs)%Q) by (apply Qmult_le_0_compat; assumption).
  assert (B : (0 <= d * qs * qk)%Q) by (apply Qmult_le_0_compat; [exact A | apply Hk]).
  assert (C : (0 <= d * qs * (1 - qk))%Q) by (apply Qmult_le_0_compat; [exact A | lra]).
  assert (D : (0 <= d * (qn - qs))%Q) by (apply Qmult_le_0_compat; [exact Hd | lra]).
  split; lra.
Qed.

(** X15. With the tables of a cube, where a corner of a side is the end of at
    most two of the edges of the side, the count baked for a corner of a
    visible side is between 0 and 3; the shade of a vertex is then between 0
    and the occlusion darkness of the mesher, which [build] divides by three,
    so that with a darkness between 0 and 1 the grey of a vertex stays
    between 0 and 1. *)
Theorem baked_shade_stays_within_the_darkness (K : Constants) (lib : Library.t)
    (type_buffer : list Z) (row_size deck_size voxel_index : Z) (side : Side)
    (p : Parameters.t) (shaded_corner : ShadedCorners) :
  Parameters.bake_occlusion p = true ->
  (0 <= Parameters.baked_occlusion_darkness p <= 1)%Q ->
  NoDup (map (g_side_corners K side) [0; 1; 2; 3]%nat) ->
  (forall j, j ∈ [0; 1; 2; 3]%nat ->
     edge_ends K side (g_side_corners K side j) [0; 1; 2; 3]%nat <= 2) ->
  bake_shaded_corner K lib type_buffer row_size deck_size true voxel_index side
    = Some shaded_corner ->
  (forall j, j ∈ [0; 1; 2; 3]%nat -> 0 <= shaded_corner (g_side_corners K side j) <= 3)
  /\ forall v,
       let shade := vertex_shade K (build_occlusion_darkness p) side shaded_corner v in
       (0 <= shade <= Parameters.baked_occlusion_darkness p)%Q
       /\ (0 <= 1 - shade <= 1)%Q.
Proof.
  intros Hbake [Hd0 Hd1] Hnd Hends H. unfold bake_shaded_corner in H.
  apply bind_Some in H as (sc1 & Hedges & Hcorners).
  assert (E1 : forall c, sc1 c
             = edge_sum K lib type_buffer row_size deck_size voxel_index side c [0; 1; 2; 3]%nat).
  { intros c.
    assert (B0 : forall c0 : Corner,
              0 <= (fun _ : Corner => 0) c0
              /\ (fun _ : Corner => 0) c0 + 2 * Z.of_nat (length [0; 1; 2; 3]%nat) <= 125)
      by (intros c0; cbn; lia).
    rewrite (shade_edges_spec _ _ _ _ _ _ _ _ _ _ B0 Hedges). lia. }
  assert (B1 : forall c, 0 <= sc1 c /\ sc1 c + Z.of_nat (length [0; 1; 2; 3]%nat) <= 125).
  { intros c. rewrite E1.
    pose proof (edge_sum_bounds K lib type_buffer row_size deck_size voxel_index side c
                  [0; 1; 2; 3]%nat) as Hb. cbn [length] in *. lia. }
  destruct (shade_corners_spec _ _ _ _ _ _ _ _ _ _ B1 Hnd Hcorners) as (Hat & _ & Hpos).
  assert (Hcount : forall j, j ∈ [0; 1; 2; 3]%nat ->
            0 <= shaded_corner (g_side_corners K side j) <= 3).
  { intros j Hj. split; [apply Hpos|]. rewrite (Hat j Hj), E1.
    pose proof (edge_sum_le_edge_ends K lib type_buffer row_size deck_size voxel_index side
                  (g_side_corners K side j) [0; 1; 2; 3]%nat) as Hle.
    pose proof (edge_sum_bounds K lib type_buffer row_size deck_size voxel_index side
                  (g_side_corners K side j) [0; 1; 2; 3]%nat) as [Hb _].
    specialize (Hends j Hj).
    unfold spec_corner_shade.
    destruct (Z.eqb_spec (edge_sum K lib type_buffer row_size deck_size voxel_index side
                            (g_side_corners K side j) [0; 1; 2; 3]%nat) 2); [lia|].
    destruct (neighbor_contributes_to_ao _ _ _ _); cbn [bool_to_uint8]; lia. }
  split; [exact Hcount|].
  intros v shade. unfold shade, build_occlusion_darkness. rewrite Hbake.
  set (d := (Parameters.baked_occlusion_darkness p / 3)%Q).
  assert (Hd : (0 <= d)%Q).
  { unfold d. apply Qle_shift_div_l; [reflexivity|]. now rewrite Qmult_0_l. }
  assert (Hd3 : (d * 3 == Parameters.baked_occlusion_darkness p)%Q) by (unfold d; field).
  rewrite (vertex_shade_spec K side d shaded_corner v Hd (fun j => Hpos _)).
  unfold spec_vertex_shade.
  assert (Hterm : forall j, j ∈ [0; 1; 2; 3]%nat ->
            (0 <= spec_shade_term K side d shaded_corner v j
             <= Parameters.baked_occlusion_darkness p)%Q).
  { intros j Hj.
    destruct (spec_shade_term_bounds K side d shaded_corner v j 3 Hd (Hcount j Hj)) as [T0 T1].
    split; [exact T0|]. change (inject_Z 3) with 3%Q in T1. now rewrite Hd3 in T1. }
  destruct (Hterm 0%nat) as [A0 B0]; [repeat first [apply list_elem_of_here | apply list_elem_of_further]|].
  destruct (Hterm 1%nat) as [A1 B1']; [repeat first [apply list_elem_of_here | apply list_elem_of_further]|].
  destruct (Hterm 2%nat) as [A2 B2]; [repeat first [apply list_elem_of_here | apply list_elem_of_further]|].
  destruct (Hterm 3%nat) as [A3 B3]; [repeat first [apply list_elem_of_here | apply list_elem_of_further]|].
  assert (Hshade : (0 <= Qmax (spec_shade_term K side d shaded_corner v 0)
                          (Qmax (spec_shade_term K side d shaded_corner v 1)
                             (Qmax (spec_shade_term K side d shaded_corner v 2)
                                (spec_shade_term K side d shaded_corner v 3)))
                    <= Parameters.baked_occlusion_darkness p)%Q).
  { split.
    - apply Qle_trans with (spec_shade_term K side d shaded_corner v 0);
        [exact A0 | apply Q.le_max_l].
    - repeat apply Q.max_lub; assumption. }
  split; [exact Hshade|]. destruct Hshade as [S0 S1]. split; lra.
Qed.

Lemma baked_shade_stays_within_the_darkness_witness :
  (0 <= vertex_shade cube_constants (build_occlusion_darkness (Parameters.mk None true (4 # 5)))
          SIDE_POSITIVE_Z ao_shaded_corner (mkVector3f 1 1 1) <= 4 # 5)%Q
  /\ map (fun j => ao_shaded_corner (cube_side_corners SIDE_POSITIVE_Z j)) [0; 1; 2; 3]%nat
     = [1; 0; 1; 3].
Proof.
  assert (Hsc : bake_shaded_corner cube_constants cube_library ao_buffer 4 16 true 21
                  SIDE_POSITIVE_Z = Some ao_shaded_corner).
  { unfold ao_shaded_corner.
    destruct (bake_shaded_corner cube_constants cube_library ao_buffer 4 16 true 21
                SIDE_POSITIVE_Z) eqn:E; [reflexivity | vm_compute in E; discriminate E]. }
  assert (Hd : (0 <= 4 # 5 <= 1)%Q) by (split; discriminate).
  assert (Hnd : NoDup (map (g_side_corners cube_constants SIDE_POSITIVE_Z) [0; 1; 2; 3]%nat))
    by (apply (bool_decide_unpack _); vm_compute; exact I).
  assert (Hends : forall j, j ∈ [0; 1; 2; 3]%nat ->
            edge_ends cube_constants SIDE_POSITIVE_Z
              (g_side_corners cube_constants SIDE_POSITIVE_Z j) [0; 1; 2; 3]%nat <= 2).
  { intros j Hj. apply list_elem_of_In in Hj. cbn in Hj.
    destruct Hj as [<-|[<-|[<-|[<-|[]]]]]; vm_compute; discriminate. }
  destruct (baked_shade_stays_within_the_darkness cube_constants cube_library ao_buffer
              4 16 21 SIDE_POSITIVE_Z (Parameters.mk None true (4 # 5)) ao_shaded_corner
              eq_refl Hd Hnd Hends Hsc) as (_ & Hshade).
  split; [apply Hshade | vm_compute; reflexivity].
Defined.

(** *** The main pass stays within its buffers *)

Lemma foldM_defined {S A : Type} (I : S -> Prop) (f : S -> A -> option S)
    (l : list A) (s : S) :
  I s ->
  (forall s a, a ∈ l -> I s -> exists s', f s a = Some s' /\ I s') ->
  exists s', foldM f s l = Some s' /\ I s'.
Proof.
  revert s. induction l as [|a l IH]; intros s Hs Hf; cbn [foldM]; [eauto|].
  destruct (Hf s a) as (s1 & E1 & H1); [left | exact Hs |].
  rewrite E1. cbn [mbind option_bind].
  apply IH; [exact H1|]. intros s2 b Hb. apply Hf. now right.
Qed.

Lemma memcpy_defined {A : Type} (n : nat) (l : list A) :
  (n <= length l)%nat -> memcpy n l = Some (take n l).
Proof. intros H. unfold memcpy. now destruct (Nat.leb_spec n (length l)); [|lia]. Qed.

Lemma copy_tangents_defined (n : nat) (tangents : list Q) :
  tangents_fit tangents n -> is_Some (copy_tangents n tangents).
Proof.
  intros [-> | H]; unfold copy_tangents; [cbn; eauto|].
  destruct (0 <? length tangents)%nat; [|eauto].
  rewrite memcpy_defined by exact H. eauto.
Qed.

Lemma set_position_y_defined positions i y :
  (i < length positions)%nat ->
  exists positions', set_position_y positions i y = Some positions'
                     /\ length positions' = length positions.
Proof.
  intros H. unfold set_position_y.
  destruct (lookup_lt_is_Some_2 positions i H) as [p Ep]. rewrite Ep.
  cbn [mbind option_bind]. eexists. split; [reflexivity|]. apply length_insert.
Qed.

Lemma raise_top_vertices_defined s h2 h3 :
  (4 <= length (SideSurface.positions s))%nat ->
  exists s', raise_top_vertices s h2 h3 = Some s'
             /\ length (SideSurface.positions s') = length (SideSurface.positions s)
             /\ SideSurface.uvs s' = SideSurface.uvs s
             /\ SideSurface.tangents s' = SideSurface.tangents s.
Proof.
  intros H. unfold raise_top_vertices.
  destruct (set_position_y_defined (SideSurface.positions s) 2 h2) as (p1 & E1 & L1); [lia|].
  rewrite E1. cbn [mbind option_bind].
  destruct (set_position_y_defined p1 3 h3) as (p2 & E2 & L2); [lia|].
  rewrite E2. cbn [mbind option_bind].
  eexists. split; [reflexivity|]. cbn. split; [lia|]. split; reflexivity.
Qed.

Lemma transpose_quad_triangles_defined indices :
  (5 <= length indices)%nat -> is_Some (transpose_quad_triangles indices).
Proof.
  intros H. unfold transpose_quad_triangles.
  destruct (lookup_lt_is_Some_2 indices 4 ltac:(lia)) as [i4 E4]. rewrite E4.
  cbn [mbind option_bind].
  destruct (lookup_lt_is_Some_2 (<[1%nat := i4]> indices) 2
              ltac:(rewrite length_insert; lia)) as [i2 E2].
  rewrite E2. cbn [mbind option_bind]. eauto.
Qed.

Lemma append_patch_defined (count : nat) (st : MeshState) (p : Patch) :
  (count <= length (ms_out_arrays_per_material st))%nat ->
  (count <= length (ms_index_offsets st))%nat ->
  (patch_material p < count)%nat ->
  exists st', append_patch st p = Some st'
              /\ (count <= length (ms_out_arrays_per_material st'))%nat
              /\ (count <= length (ms_index_offsets st'))%nat.
Proof.
  intros Ha Ho Hm. unfold append_patch.
  destruct (lookup_lt_is_Some_2 (ms_out_arrays_per_material st) (patch_material p)
              ltac:(lia)) as [a Ea].
  destruct (lookup_lt_is_Some_2 (ms_index_offsets st) (patch_material p)
              ltac:(lia)) as [o Eo].
  rewrite Ea, Eo. cbn [mbind option_bind].
  eexists. split; [reflexivity|]. cbn [ms_out_arrays_per_material ms_index_offsets].
  rewrite !length_insert. split; assumption.
Qed.

Lemma copy_fits (src : FluidSurface.t) (uv : Vector2f) :
  tangents_fit (FluidSurface.tangents src) (length (FluidSurface.positions src)) ->
  side_surface_fits (copy src uv).
Proof.
  intros H. unfold side_surface_fits, copy. cbn. rewrite length_replicate. split; [lia|exact H].
Qed.

Lemma clear_fits : side_surface_fits SideSurface.clear.
Proof. split; [cbn; lia | now left]. Qed.

Lemma slots_first {A : Type} (P : A -> Prop) (a : A) (l : list A) :
  P a -> slots P 1 (a :: l).
Proof. intros H i Hi. exists a. destruct i; [now split | lia]. Qed.

Ltac offset_by dx dy dz := exists dx, dy, dz; repeat split; lia.

Ltac offset_in_row dx dy :=
  first [offset_by dx dy (-1)%Z | offset_by dx dy 0%Z | offset_by dx dy 1%Z].

Ltac offset_in_deck dx :=
  first [offset_in_row dx (-1)%Z | offset_in_row dx 0%Z | offset_in_row dx 1%Z].

Ltac pick_offset :=
  first [offset_in_deck (-1)%Z | offset_in_deck 0%Z | offset_in_deck 1%Z].

Section Defined.
Context {S : Type}.
Variable emit : S -> Patch -> option S.
Variable Inv : S -> Prop.
Variable K : Constants.
Variable lib : Library.t.
Variable type_buffer : list Z.
Variable size : Vector3i.
Variables (bake_occlusion : bool) (baked_occlusion_darkness : Q).
Hypothesis emit_defined :
  forall st p, Inv st -> (patch_material p < Library.indexed_materials_count lib)%nat ->
               exists st', emit st p = Some st' /\ Inv st'.
Hypothesis fits : library_fits lib.
Hypothesis buffer_fits : ix size * iy size * iz size <= Z.of_nat (length type_buffer).

Lemma read_neighbor x y z o :
  inner size x y z -> neighbor_offset size o ->
  is_Some (read type_buffer (y + x * iy size + z * (ix size * iy size) + o)).
Proof.
  intros (Hx & Hy & Hz) (dx & dy & dz & Hdx & Hdy & Hdz & ->).
  pose proof (address_in_block (ix size) (iy size) (iz size) (x + dx) (y + dy) (z + dz)
                ltac:(lia) ltac:(lia) ltac:(lia)) as Ha.
  replace (y + x * iy size + z * (ix size * iy size)
           + (dy + dx * iy size + dz * (ix size * iy size)))
    with (y + dy + (x + dx) * iy size + (z + dz) * (ix size * iy size)) by ring.
  unfold read.
  destruct (Z.ltb_spec (y + dy + (x + dx) * iy size + (z + dz) * (ix size * iy size)) 0);
    [lia|].
  apply lookup_lt_is_Some. lia.
Qed.

Lemma offset_of dx dy dz :
  -1 <= dx <= 1 -> -1 <= dy <= 1 -> -1 <= dz <= 1 ->
  neighbor_offset size (dy + dx * iy size + dz * (ix size * iy size)).
Proof. intros. exists dx, dy, dz. repeat split; lia. Qed.

Lemma side_neighbor_offset side :
  neighbor_offset size (side_neighbor_lut (iy size) (ix size * iy size) side).
Proof.
  unfold side_neighbor_lut, SIDE_LEFT, SIDE_RIGHT, SIDE_BACK, SIDE_FRONT, SIDE_BOTTOM.
  repeat case_decide; subst; try discriminate. all: pick_offset.
Qed.

Lemma edge_neighbor_offset edge :
  neighbor_offset size (edge_neighbor_lut (iy size) (ix size * iy size) edge).
Proof.
  destruct edge; unfold edge_neighbor_lut, side_neighbor_lut, SIDE_LEFT, SIDE_RIGHT,
    SIDE_BACK, SIDE_FRONT, SIDE_BOTTOM, SIDE_TOP;
    repeat (case_decide; try congruence); pick_offset.
Qed.

Lemma corner_neighbor_offset corner :
  neighbor_offset size (corner_neighbor_lut (iy size) (ix size * iy size) corner).
Proof.
  destruct corner; unfold corner_neighbor_lut, side_neighbor_lut, SIDE_LEFT, SIDE_RIGHT,
    SIDE_BACK, SIDE_FRONT, SIDE_BOTTOM, SIDE_TOP;
    repeat (case_decide; try congruence); pick_offset.
Qed.


Lemma read_around x y z dx dy dz a :
  inner size x y z -> -1 <= dx <= 1 -> -1 <= dy <= 1 -> -1 <= dz <= 1 ->
  a = y + x * iy size + z * (ix size * iy size)
      + (dy + dx * iy size + dz * (ix size * iy size)) ->
  is_Some (read type_buffer a).
Proof. intros Hin Hx Hy Hz ->. apply read_neighbor; [exact Hin | now apply offset_of]. Qed.

Lemma fluid_neighborhood_near d :
  d ∈ fluid_neighborhood -> -1 <= d.1 <= 1 /\ -1 <= d.2 <= 1.
Proof.
  intros H. apply list_elem_of_In in H. vm_compute in H.
  repeat (destruct H as [<- | H]; [cbn; lia|]). destruct H.
Qed.

Ltac model_known :=
  repeat match goal with
         | H : (_ && _) = true |- _ => apply andb_true_iff in H as [? ?]
         | H : has_model _ _ = true |- _ => apply has_model_get_model in H as [? H]
         end.

Ltac defined :=
  repeat (cbn [mbind option_bind];
          match goal with
          | |- is_Some (Some _) => solve [eauto]
          | H : get_model ?l ?id = Some _ |- context [get_model ?l ?id] => rewrite H
          | |- context [if ?b then _ else _] => destruct b eqn:?; model_known
          end).

Lemma sample_fluid_neighbor_defined voxel fluid x y z st d :
  inner size x y z -> d ∈ fluid_neighborhood ->
  is_Some (sample_fluid_neighbor lib voxel fluid type_buffer
             (y + x * iy size + z * (ix size * iy size)) 1 (iy size) (ix size * iy size)
             st d).
Proof.
  intros Hin Hd. apply fluid_neighborhood_near in Hd.
  destruct st as [[i fluid_levels] covered_neighbors], d as [dz dx]. cbn [fst snd] in Hd.
  unfold sample_fluid_neighbor. cbv zeta.
  destruct (read_around x y z dx 0 dz
              (y + x * iy size + z * (ix size * iy size) + dx * iy size
               + dz * (ix size * iy size))) as [nid R1]; [exact Hin|lia..|ring|].
  destruct (read_around x y z dx 1 dz
              (y + x * iy size + z * (ix size * iy size) + dx * iy size
               + dz * (ix size * iy size) + 1)) as [anid R2]; [exact Hin|lia..|ring|].
  destruct (read_around x y z dx (-1) dz
              (y + x * iy size + z * (ix size * iy size) + dx * iy size
               + dz * (ix size * iy size) - 1)) as [bnid R3]; [exact Hin|lia..|ring|].
  rewrite R1, ?R2, ?R3. defined; rewrite ?R2, ?R3; defined.
Qed.

Lemma generate_fluid_model_defined voxel x y z :
  inner size x y z -> model_fits lib voxel ->
  BakedData.fluid_index voxel <> NULL_FLUID_INDEX ->
  exists r,
    generate_fluid_model K voxel type_buffer (y + x * iy size + z * (ix size * iy size))
      1 (iy size) (ix size * iy size) lib = Some r
    /\ r.2 = 1%nat
    /\ slots (surface_fits (Library.indexed_materials_count lib)) 1 r.1.1
    /\ forall side, slots side_surface_fits 1 (r.1.2 side).
Proof.
  intros Hin (Hsurf & _ & _ & Hfluid) Hnull.
  destruct (Hfluid Hnull) as (fluid & Efluid & Hmat & Htan & Hlat & Htop & Hidx).
  assert (Hcount : meshed_surface_count voxel = 1%nat).
  { unfold meshed_surface_count.
    now destruct (Z.eqb_spec (BakedData.fluid_index voxel) NULL_FLUID_INDEX). }
  rewrite Hcount in Hsurf.
  unfold generate_fluid_model.
  destruct (read_around x y z 0 1 0 (y + x * iy size + z * (ix size * iy size) + 1))
    as [top_voxel_id R]; [exact Hin|lia..|ring|].
  rewrite R. cbn [mbind option_bind].
  assert (Hcovered : exists b,
            (if has_model lib top_voxel_id
             then top_model ← get_model lib top_voxel_id;
                  Some (BakedData.fluid_index top_model =? BakedData.fluid_index voxel)
             else Some false) = Some b).
  { destruct (has_model lib top_voxel_id) eqn:Hm; [|eauto].
    apply has_model_get_model in Hm as [top_model ->]. cbn. eauto. }
  destruct Hcovered as [covered ->]. cbn [mbind option_bind].
  rewrite Efluid. cbn [mbind option_bind]. cbv zeta.
  destruct covered.
  - eexists. split; [reflexivity|]. cbn [fst snd]. split; [reflexivity|].
    split; [exact Hsurf|].
    intros side. apply slots_first.
    destruct side; first [apply clear_fits | apply copy_fits, Htan].
  - destruct (foldM_defined (fun _ => True)
                (sample_fluid_neighbor lib voxel fluid type_buffer
                   (y + x * iy size + z * (ix size * iy size)) 1 (iy size)
                   (ix size * iy size))
                fluid_neighborhood (0%nat, replicate 9 0, 0) I) as (sampled & -> & _).
    { intros st d Hd _.
      destruct (sample_fluid_neighbor_defined voxel fluid x y z st d Hin Hd) as [st' ->].
      eauto. }
    cbn [mbind option_bind].
    repeat match goal with
           | |- context [raise_top_vertices (copy (Fluid.side_surfaces fluid ?s) ?uv) ?a ?b] =>
               let s' := fresh "raised" in
               let E := fresh "E" in
               destruct (raise_top_vertices_defined (copy (Fluid.side_surfaces fluid s) uv) a b)
                 as (s' & E & ? & ? & ?);
               [cbn; apply Hlat; discriminate
               | rewrite E; clear E; cbn [mbind option_bind]]
           end.
    repeat match goal with
           | |- context [set_position_y ?p ?i ?h] =>
               let p' := fresh "p" in
               let E := fresh "E" in
               destruct (set_position_y_defined p i h) as (p' & E & ?);
               [lia | rewrite E; clear E; cbn [mbind option_bind]]
           end.
    assert (Hindices : forall b : bool,
              is_Some (if b
                       then transpose_quad_triangles
                              (FluidSurface.indices (Fluid.side_surfaces fluid SIDE_POSITIVE_Y))
                       else Some (FluidSurface.indices
                                    (Fluid.side_surfaces fluid SIDE_POSITIVE_Y)))).
    { intros [|]; [now apply transpose_quad_triangles_defined | eauto]. }
    match goal with
    | |- context [if ?b then transpose_quad_triangles _ else _] =>
        destruct (Hindices b) as [top_indices ->]
    end.
    cbn [mbind option_bind].
    eexists. split; [reflexivity|]. cbn [fst snd]. split; [reflexivity|]. split.
    + apply slots_first. unfold surface_fits. cbn.
      rewrite !length_replicate. repeat split; try lia; try assumption.
      match goal with
      | |- tangents_fit _ (length ?q) =>
          replace (length q)
            with (length (FluidSurface.positions (Fluid.side_surfaces fluid SIDE_POSITIVE_Y)))
            by lia
      end.
      apply Htan.
    + intros side. apply slots_first.
      destruct side; try apply clear_fits; try (apply copy_fits, Htan);
        unfold side_surface_fits;
        match goal with
        | H1 : length (SideSurface.positions ?s) = _, H2 : SideSurface.uvs ?s = _,
          H3 : SideSurface.tangents ?s = _ |- context [SideSurface.positions ?s] =>
            rewrite H1, H2, H3; apply copy_fits, Htan
        end.
Qed.

Lemma visible_side_surfaces_defined voxel sides n x y z side :
  inner size x y z ->
  slots side_surface_fits n (sides side) ->
  (forall shape cut,
     Model.cutout_side_surfaces (BakedData.model voxel) side !! shape = Some cut ->
     slots side_surface_fits n cut) ->
  exists visible,
    visible_side_surfaces K lib type_buffer (iy size) (ix size * iy size) voxel sides
      (y + x * iy size + z * (ix size * iy size)) side = Some visible
    /\ forall side_surfaces, visible = Some side_surfaces ->
                             slots side_surface_fits n side_surfaces.
Proof.
  intros Hin Hsides Hcut. unfold visible_side_surfaces.
  destruct (read_neighbor x y z _ Hin (side_neighbor_offset side)) as [id ->].
  cbn [mbind option_bind].
  destruct (has_model lib id) eqn:Hm.
  2:{ eexists. split; [reflexivity|]. now intros ? [= <-]. }
  apply has_model_get_model in Hm as [other_vt ->]. cbn [mbind option_bind].
  destruct (negb (is_face_visible_regardless_of_shape voxel other_vt)).
  2:{ eexists. split; [reflexivity|]. now intros ? [= <-]. }
  destruct (negb (is_face_visible_according_to_shape K lib voxel other_vt side)).
  { eexists. split; [reflexivity|]. discriminate. }
  destruct (BakedData.cutout_sides_enabled voxel).
  2:{ eexists. split; [reflexivity|]. now intros ? [= <-]. }
  cbv zeta.
  destruct (Model.cutout_side_surfaces (BakedData.model voxel) side !! _) as [cut|] eqn:Ecut.
  - eexists. split; [reflexivity|]. intros ? [= <-]. eapply Hcut, Ecut.
  - eexists. split; [reflexivity|]. now intros ? [= <-].
Qed.

Lemma bake_shaded_corner_defined bake x y z side :
  inner size x y z ->
  is_Some (bake_shaded_corner K lib type_buffer (iy size) (ix size * iy size) bake
             (y + x * iy size + z * (ix size * iy size)) side).
Proof.
  intros Hin. unfold bake_shaded_corner. destruct bake; [|eauto].
  destruct (foldM_defined (fun _ => True)
              (shade_edge K lib type_buffer (iy size) (ix size * iy size)
                 (y + x * iy size + z * (ix size * iy size)) side)
              [0; 1; 2; 3]%nat (fun _ => 0) I) as (shaded_corner & -> & _).
  { intros s j _ _. unfold shade_edge.
    destruct (read_neighbor x y z _ Hin (edge_neighbor_offset (g_side_edges K side j)))
      as [id ->].
    cbn. eauto. }
  cbn [mbind option_bind].
  destruct (foldM_defined (fun _ => True)
              (shade_corner K lib type_buffer (iy size) (ix size * iy size)
                 (y + x * iy size + z * (ix size * iy size)) side)
              [0; 1; 2; 3]%nat shaded_corner I) as (shaded_corner' & -> & _); [|eauto].
  intros s j _ _. unfold shade_corner.
  destruct (s (g_side_corners K side j) =? 2); [eauto|].
  destruct (read_neighbor x y z _ Hin (corner_neighbor_offset (g_side_corners K side j)))
    as [id ->].
  cbn. eauto.
Qed.

Lemma side_patch_defined bake d voxel side shaded_corner pos surface side_surface :
  side_surface_fits side_surface ->
  exists p, side_patch K bake d voxel side shaded_corner pos surface side_surface = Some p
            /\ patch_material p = Surface.material_id surface.
Proof.
  intros [Huv Htan]. unfold side_patch.
  rewrite memcpy_defined by exact Huv. cbn [mbind option_bind].
  destruct (copy_tangents_defined _ _ Htan) as [tangents ->]. cbn [mbind option_bind].
  eexists. split; reflexivity.
Qed.

Lemma inside_patch_defined material_count voxel pos surface :
  surface_fits material_count surface ->
  exists p, inside_patch voxel pos surface = Some p
            /\ patch_material p = Surface.material_id surface.
Proof.
  intros (_ & Hn & Huv & Htan). unfold inside_patch.
  destruct (copy_tangents_defined _ _ Htan) as [tangents ->]. cbn [mbind option_bind].
  rewrite (memcpy_defined _ (Surface.normals surface)) by exact Hn.
  cbn [mbind option_bind].
  rewrite (memcpy_defined _ (Surface.uvs surface)) by exact Huv.
  cbn [mbind option_bind].
  eexists. split; reflexivity.
Qed.

Lemma mesh_side_defined voxel surfaces sides n x y z pos st side :
  inner size x y z -> Inv st ->
  slots (surface_fits (Library.indexed_materials_count lib)) n surfaces ->
  slots side_surface_fits n (sides side) ->
  (forall shape cut,
     Model.cutout_side_surfaces (BakedData.model voxel) side !! shape = Some cut ->
     slots side_surface_fits n cut) ->
  exists st',
    mesh_side K lib type_buffer (iy size) (ix size * iy size) emit bake_occlusion
      baked_occlusion_darkness voxel surfaces sides n
      (y + x * iy size + z * (ix size * iy size)) pos st side = Some st'
    /\ Inv st'.
Proof.
  intros Hin Hst Hsurf Hsides Hcut. unfold mesh_side.
  destruct (negb _); [eauto|].
  destruct (visible_side_surfaces_defined voxel sides n x y z side Hin Hsides Hcut)
    as (visible & -> & Hvisible).
  cbn [mbind option_bind].
  destruct visible as [side_surfaces|]; [|eauto].
  specialize (Hvisible side_surfaces eq_refl).
  destruct (bake_shaded_corner_defined bake_occlusion x y z side Hin) as [shaded_corner ->].
  cbn [mbind option_bind].
  apply foldM_defined; [exact Hst|].
  intros s i Hi Hs. apply elem_of_seq in Hi.
  destruct (Hsurf i ltac:(lia)) as (surface & -> & Hmat & _).
  destruct (Hvisible i ltac:(lia)) as (side_surface & -> & Hfit).
  cbn [mbind option_bind].
  destruct (side_patch_defined bake_occlusion baked_occlusion_darkness voxel side
              shaded_corner pos surface side_surface Hfit) as (p & -> & Hp).
  cbn [mbind option_bind].
  apply emit_defined; [exact Hs | now rewrite Hp].
Qed.

Lemma mesh_inside_defined voxel surfaces n pos st i :
  Inv st -> (i < n)%nat ->
  slots (surface_fits (Library.indexed_materials_count lib)) n surfaces ->
  exists st', mesh_inside emit voxel surfaces pos st i = Some st' /\ Inv st'.
Proof.
  intros Hst Hi Hsurf. unfold mesh_inside.
  destruct (Hsurf i Hi) as (surface & -> & Hfit). cbn [mbind option_bind].
  destruct (bool_decide _); [eauto|].
  destruct (inside_patch_defined _ voxel pos surface Hfit) as (p & -> & Hp).
  cbn [mbind option_bind].
  apply emit_defined; [exact Hst|]. rewrite Hp. apply Hfit.
Qed.

Lemma mesh_voxel_defined st x y z :
  inner size x y z -> Inv st ->
  exists st',
    mesh_voxel K lib type_buffer (iy size) (ix size * iy size) emit bake_occlusion
      baked_occlusion_darkness st x y z = Some st'
    /\ Inv st'.
Proof.
  intros Hin Hst. unfold mesh_voxel. cbv zeta.
  destruct (read_around x y z 0 0 0 (y + x * iy size + z * (ix size * iy size)))
    as [voxel_id ->]; [exact Hin|lia..|ring|].
  cbn [mbind option_bind].
  destruct (Z.eqb_spec voxel_id AIR_ID) as [|Hair]; [eauto|].
  destruct (has_model lib voxel_id) eqn:Hm; [|eauto].
  cbn [orb negb].
  apply has_model_get_model in Hm as [voxel Evoxel]. rewrite Evoxel.
  cbn [mbind option_bind].
  pose proof (fits voxel_id voxel Hair Evoxel) as Hfits.
  assert (Hmodel : exists r,
            (if negb (BakedData.fluid_index voxel =? NULL_FLUID_INDEX)
             then generate_fluid_model K voxel type_buffer
                    (y + x * iy size + z * (ix size * iy size)) 1 (iy size)
                    (ix size * iy size) lib
             else Some (Model.surfaces (BakedData.model voxel),
                        Model.sides_surfaces (BakedData.model voxel),
                        Model.surface_count (BakedData.model voxel))) = Some r
            /\ slots (surface_fits (Library.indexed_materials_count lib)) r.2 r.1.1
            /\ (forall side, slots side_surface_fits r.2 (r.1.2 side))
            /\ r.2 = meshed_surface_count voxel).
  { unfold meshed_surface_count.
    destruct (Z.eqb_spec (BakedData.fluid_index voxel) NULL_FLUID_INDEX) as [Hnull|Hnull];
      cbn [negb].
    - eexists. split; [reflexivity|]. cbn [fst snd].
      destruct Hfits as (Hsurf & Hsides & _). unfold meshed_surface_count in Hsurf, Hsides.
      destruct (Z.eqb_spec (BakedData.fluid_index voxel) NULL_FLUID_INDEX); [|congruence].
      split; [exact Hsurf|]. split; [now apply Hsides | reflexivity].
    - destruct (generate_fluid_model_defined voxel x y z Hin Hfits Hnull)
        as (r & -> & E & Hsurf & Hsides).
      exists r. rewrite E. repeat split; assumption. }
  destruct Hmodel as (r & -> & Hsurf & Hsides & Hcount). cbn [mbind option_bind].
  destruct Hfits as (_ & _ & Hcut & _). rewrite <- Hcount in Hcut.
  destruct (foldM_defined Inv
              (mesh_side K lib type_buffer (iy size) (ix size * iy size) emit bake_occlusion
                 baked_occlusion_darkness voxel r.1.1 r.1.2 r.2
                 (y + x * iy size + z * (ix size * iy size))
                 (mkVector3f (inject_Z (x - 1)) (inject_Z (y - 1)) (inject_Z (z - 1))))
              SIDES st Hst) as (st1 & -> & Hst1).
  { intros s side _ Hs. apply mesh_side_defined; auto. apply Hcut. }
  cbn [mbind option_bind].
  apply foldM_defined; [exact Hst1|].
  intros s i Hi Hs. apply elem_of_seq in Hi.
  eapply mesh_inside_defined; [exact Hs | | exact Hsurf]. lia.
Qed.

Lemma mesh_block_defined st :
  Inv st ->
  exists st',
    mesh_block emit K type_buffer size lib bake_occlusion baked_occlusion_darkness st
    = Some st'
    /\ Inv st'.
Proof.
  intros Hst. unfold mesh_block, PADDING. cbn [ix iy iz].
  apply foldM_defined; [exact Hst|]. intros s1 z Hz H1. apply elem_of_range in Hz.
  apply foldM_defined; [exact H1|]. intros s2 x Hx H2. apply elem_of_range in Hx.
  apply foldM_defined; [exact H2|]. intros s3 y Hy H3. apply elem_of_range in Hy.
  apply mesh_voxel_defined; [|exact H3]. repeat split; lia.
Qed.

End Defined.

Lemma generate_blocky_mesh_defined K arrays collision_surface type_buffer size lib bake d :
  library_fits lib ->
  ix size * iy size * iz size <= Z.of_nat (length type_buffer) ->
  (Library.indexed_materials_count lib <= length arrays)%nat ->
  exists arrays' collision_surface' errors,
    generate_blocky_mesh K arrays collision_surface type_buffer size lib bake d
    = Some (arrays', collision_surface', errors)
    /\ (Library.indexed_materials_count lib <= length arrays')%nat.
Proof.
  intros Hfits Hbuffer Hcount. unfold generate_blocky_mesh.
  destruct (block_too_small size); [eauto 6|].
  destruct (mesh_block_defined append_patch
              (fun st => (Library.indexed_materials_count lib
                          <= length (ms_out_arrays_per_material st))%nat
                         /\ (Library.indexed_materials_count lib
                             <= length (ms_index_offsets st))%nat)
              K lib type_buffer size bake d)
    with (st := mkMeshState arrays (replicate (length arrays) 0) collision_surface 0)
    as (st' & -> & Ha & _); try assumption.
  - intros st p [Ha Ho] Hp.
    destruct (append_patch_defined _ st p Ha Ho Hp) as (st' & E & H). eauto.
  - cbn. rewrite length_replicate. split; exact Hcount.
  - cbn [mbind option_bind]. eauto 6.
Qed.

(** X16. Without seams the mesher stays within its buffers.  With a library in
    which every model but air has the surfaces it counts, each with a
    material of the library, a UV (and a normal) for each vertex and tangents
    for all vertices or none, and every fluid has four vertices on each
    lateral side and a top of four vertices and two triangles, a build with
    [lod_index <= 0] of a buffer that holds an identifier for every voxel of
    the block is defined: no read of the buffer, of the library or of a surface, and no
    write to the arrays, is out of range, whatever the identifiers are. *)
Theorem main_pass_stays_within_its_buffers (K : Constants) (p : Parameters.t)
    (cache : list Arrays.t) (output : Output.t) (input : Input.t) :
  (forall lib, Parameters.library p = Some lib -> library_fits lib) ->
  (forall ids, model_ids (Input.voxels input) = Some ids ->
     let size := VoxelBuffer.get_size (Input.voxels input) in
     ix size * iy size * iz size <= Z.of_nat (length ids)) ->
  Input.lod_index input <= 0 ->
  is_Some (build K p cache output input).
Proof.
  intros Hfits Hbuffer Hlod.
  destruct (Parameters.library p) as [lib|] eqn:Elib.
  2:{ destruct (build_returns_early K p cache output input) as (c & e & -> & _); eauto. }
  destruct (model_ids (Input.voxels input)) as [ids|] eqn:Eids.
  2:{ destruct (build_returns_early K p cache output input) as (c & e & -> & _); eauto. }
  rewrite (build_meshes K p cache output input lib ids Elib Eids).
  unfold build_mesh.
  destruct (generate_blocky_mesh_defined K
              (grow (map (fun _ => Arrays.clear) cache) (Library.indexed_materials_count lib))
              (if Input.collision_hint input
               then Some (Output.collision_surface output) else None)
              ids (VoxelBuffer.get_size (Input.voxels input)) lib
              (Parameters.bake_occlusion p) (build_occlusion_darkness p))
    as (arrays' & collision' & errors & -> & Hlen).
  - now apply Hfits.
  - now apply Hbuffer.
  - rewrite length_grow. lia.
  - cbn [mbind option_bind].
    destruct (Z.ltb_spec 0 (Input.lod_index input)); [lia|].
    cbn [mbind option_bind].
    destruct (proj2 (package_is_Some arrays' (Library.indexed_materials_count lib)
                       (Output.surfaces output)) Hlen) as [surfaces ->].
    cbn [mbind option_bind]. eauto.
Qed.

Lemma main_pass_stays_within_its_buffers_witness :
  is_Some (build cube_constants water_parameters [] Output.empty (Input.mk pond_buffer 0 true)).
Proof.
  apply main_pass_stays_within_its_buffers.
  - intros lib [= <-] id voxel Hair Hmodel.
    unfold get_model in Hmodel. unfold AIR_ID in Hair.
    destruct (Z.ltb_spec id 0); [discriminate|].
    assert (Hfluid : fluid_fits 1 water_fluid).
    { repeat split; try (cbn; lia); intros side; destruct side; cbn; try lia; now left. }
    assert (Hno : forall b, surface_fits 1 (no_surface 0 b)).
    { intros b. repeat split; try (cbn; lia). now left. }
    assert (Hquad : forall s, side_surface_fits (quad s)).
    { intros s. split; [cbn; lia | now left]. }
    destruct (Z.to_nat id) as [|[|[|[|n]]]] eqn:En; cbn in Hmodel; try discriminate;
      [lia| | |]; injection Hmodel as <-.
    + repeat split.
      * exact (slots_first _ _ _ (Hno _)).
      * intros _ side. exact (slots_first _ _ _ (Hquad side)).
      * intros side shape cut Hcut. cbn in Hcut. now rewrite lookup_empty in Hcut.
      * intros Hnull. now contradiction Hnull.
    + repeat split.
      * exact (slots_first _ _ _ (Hno _)).
      * discriminate.
      * intros side shape cut Hcut. cbn in Hcut. now rewrite lookup_empty in Hcut.
      * intros _. exists water_fluid. split; [reflexivity | exact Hfluid].
    + repeat split.
      * exact (slots_first _ _ _ (Hno _)).
      * discriminate.
      * intros side shape cut Hcut. cbn in Hcut. now rewrite lookup_empty in Hcut.
      * intros _. exists water_fluid. split; [reflexivity | exact Hfluid].
  - intros ids [= <-]. vm_compute. discriminate.
  - cbn. lia.
Defined.
